(** * Category and class-ID reconciliation of car-part annotations

    A shallow embedding of the two reconcilers of the repository,
    [normalize_annotations.py] (COCO-style documents) and
    [normalize_annotations_yolo.py] (YOLO-style manifests and label
    files), followed by the properties their specification states.

    Modelling conventions.
    - A Python [str] is the list of its Unicode code points.
    - Python integers are [Z]; counters that only grow from zero are [nat].
      Category and class IDs are integers, as the data model says.
    - A [dict] whose iteration order is observable is an association list
      with Python's insertion-order semantics; a [dict] that is only
      looked up is a [gmap]. A [dict] has distinct keys: where a property
      needs it, the association list read from a file is assumed to have
      no duplicate key.
    - The file system is a finite map from paths to file contents, without
      links; a function that reads, writes or logs is a state transformer
      that may raise. The concrete JSON/YAML syntax is abstracted: a file
      holds text or a parsed document, and parsing a file of another kind
      raises. A text file is given by its decoded text, the file being
      the UTF-8 encoding of it, or by its raw bytes, which are decoded
      when the file is read.
    - [int] follows the interpreter's grammar for decimal integers over a
      table of Unicode decimal digits that is left open except for the
      ASCII digits; the interpreter's limit on the number of digits is not
      modelled. *)

From Stdlib Require Import ZArith NArith Ascii String.
From Stdlib Require Strings.Byte.
From stdpp Require Import base numbers option list gmap sorting.

Local Open Scope Z_scope.

(** ** Python text primitives *)

Abbreviation str := (list N).

(** Decoding of a UTF-8 literal into code points (used for constants). *)
Fixpoint utf8_decode (bs : list N) : str :=
  match bs with
  | [] => []
  | b :: r =>
    if (b <? 128)%N then b :: utf8_decode r
    else if (b <? 224)%N then
      match r with
      | b1 :: r1 => ((b - 192) * 64 + (b1 - 128))%N :: utf8_decode r1
      | _ => []
      end
    else if (b <? 240)%N then
      match r with
      | b1 :: b2 :: r2 =>
        ((b - 224) * 4096 + (b1 - 128) * 64 + (b2 - 128))%N :: utf8_decode r2
      | _ => []
      end
    else
      match r with
      | b1 :: b2 :: b3 :: r3 =>
        ((b - 240) * 262144 + (b1 - 128) * 4096 + (b2 - 128) * 64 + (b3 - 128))%N
          :: utf8_decode r3
      | _ => []
      end
  end.

Definition text (s : string) : str :=
  utf8_decode (map N_of_ascii (list_ascii_of_string s)).
Arguments text s%_string.

(** [str.isspace] on one code point: the interpreter's whitespace table. *)
Definition isspace (c : N) : bool :=
  ((9 <=? c) && (c <=? 13) || (28 <=? c) && (c <=? 32)
   || (c =? 133) || (c =? 160) || (c =? 5760)
   || (8192 <=? c) && (c <=? 8202)
   || (c =? 8232) || (c =? 8233) || (c =? 8239) || (c =? 8287)
   || (c =? 12288))%N.

Fixpoint lstrip (s : str) : str :=
  match s with
  | [] => []
  | c :: r => if isspace c then lstrip r else s
  end.

Definition rstrip (s : str) : str := reverse (lstrip (reverse s)).

(** [s.strip()] *)
Definition strip (s : str) : str := rstrip (lstrip s).

(** [s.split()]: maximal runs of non-whitespace code points. *)
Fixpoint split (s : str) : list str :=
  match s with
  | [] => []
  | c :: r =>
    if isspace c then split r
    else
      match r with
      | [] => [[c]]
      | c' :: _ =>
        if isspace c' then [c] :: split r
        else
          match split r with
          | t :: ts => (c :: t) :: ts
          | [] => [[c]]
          end
      end
  end.

(** [sep.join(parts)] *)
Fixpoint join (sep : str) (parts : list str) : str :=
  match parts with
  | [] => []
  | [p] => p
  | p :: ps => p ++ sep ++ join sep ps
  end.

(** [needle in s] for strings: substring test. *)
Fixpoint starts_with (needle s : str) : bool :=
  match needle, s with
  | [], _ => true
  | _ :: _, [] => false
  | a :: n', b :: s' => (a =? b)%N && starts_with n' s'
  end.

Fixpoint contains (needle s : str) : bool :=
  starts_with needle s ||
  match s with
  | [] => false
  | _ :: s' => contains needle s'
  end.

Definition ends_with (suffix s : str) : bool :=
  starts_with (reverse suffix) (reverse s).

(** [str(z)] for an integer: decimal digits, most significant first. *)
Fixpoint digits_of (fuel : nat) (n : N) (acc : str) : str :=
  let acc' := (48 + n mod 10)%N :: acc in
  match fuel with
  | O => acc'
  | S f => if (n <? 10)%N then acc' else digits_of f (n / 10)%N acc'
  end.

Definition str_of_N (n : N) : str := digits_of (N.to_nat (N.log2 n)) n [].

Definition py_str (z : Z) : str :=
  if z <? 0 then 45%N :: str_of_N (Z.to_N (- z)) else str_of_N (Z.to_N z).

(** The interpreter's Unicode database decides which code points are
    decimal digits; the embedding takes that table as an interface and
    fixes only its ASCII part. *)
Class DecimalTable := {
  decimal : N → option Z;
  decimal_ascii : ∀ c, (48 ≤ c ≤ 57)%N → decimal c = Some (Z.of_N c - 48)
}.

Section int_parsing.
Context `{!DecimalTable}.

(** Digits after the first one; an underscore must sit between digits. *)
Fixpoint int_digits (acc : Z) (s : str) : option Z :=
  match s with
  | [] => Some acc
  | c :: r =>
    if (c =? 95)%N then
      match r with
      | d :: r' =>
        match decimal d with
        | Some v => int_digits (acc * 10 + v) r'
        | None => None
        end
      | [] => None
      end
    else
      match decimal c with
      | Some v => int_digits (acc * 10 + v) r
      | None => None
      end
  end.

Definition int_unsigned (s : str) : option Z :=
  match s with
  | c :: r =>
    match decimal c with
    | Some v => int_digits v r
    | None => None
    end
  | [] => None
  end.

(** [int(tok)] on a token without whitespace; [None] is [ValueError]. *)
Definition py_int (tok : str) : option Z :=
  match tok with
  | c :: r =>
    if (c =? 43)%N then int_unsigned r
    else if (c =? 45)%N then Z.opp <$> int_unsigned r
    else int_unsigned tok
  | [] => None
  end.
End int_parsing.

(** ** Insertion-ordered dictionaries *)

Section dict.
Context {K V : Type} `{EqDecision K}.

Fixpoint dict_get (d : list (K * V)) (k : K) : option V :=
  match d with
  | [] => None
  | (k', v) :: r => if decide (k = k') then Some v else dict_get r k
  end.

(** [d[k] = v]: an existing key keeps its position. *)
Fixpoint dict_set (d : list (K * V)) (k : K) (v : V) : list (K * V) :=
  match d with
  | [] => [(k, v)]
  | (k', v') :: r =>
    if decide (k = k') then (k', v) :: r else (k', v') :: dict_set r k v
  end.

Definition dict_values (d : list (K * V)) : list V := d.*2.
Definition dict_keys (d : list (K * V)) : list K := d.*1.
End dict.

(** ** Documents, manifests and the file system *)

Abbreviation path := (list str).

(** A [{id, name}] record; the remaining fields are carried along. *)
Record Category := {
  cat_id : Z;
  cat_name : str;
  cat_extra : list (str * str)
}.

(** An annotation record; [category_id] is [None] when the key is absent. *)
Record Annotation := {
  category_id : option Z;
  ann_extra : list (str * str)
}.

(** A COCO-style annotation document (a JSON object). *)
Record Document := {
  categories : option (list Category);
  annotations : option (list Annotation);
  doc_extra : list (str * str)
}.

(** A YOLO class manifest ([data.yaml]). *)
Record Manifest := {
  train : option str;
  val : option str;
  names : option (list (Z * str));
  manifest_extra : list (str * str)
}.

(** What a file holds: text ([TextFile s] is the file that holds the
    UTF-8 encoding of [s]), a parsed annotation document (a JSON
    object), a parsed manifest, the parsed list of canonical categories
    (a JSON array), or raw bytes. *)
Inductive file_content :=
| TextFile (s : str)
| JsonFile (d : Document)
| YamlFile (m : Manifest)
| CategoriesFile (cats : list Category)
| RawFile (bytes : list Byte.byte).

(** Messages of the [logging] module that the reconcilers emit. *)
Inductive diagnostic :=
| ReferenceNotFound (p : path)
| LoadedReference (classes : nat) (p : path)
| NoNamesField (p : path)
| ClassNotInReference (class_name : str) (old_id : Z) (dataset : str)
| WouldNormalize (p : path)
| TryingLatin1 (p : path).

Record world := {
  fs : gmap path file_content;
  logged : list diagnostic
}.

Inductive exn :=
| FileNotFoundError
| DecodeError
| KeyError
| SystemExit
| UnicodeDecodeError
| TypeError.

#[global] Instance exn_eq_dec : EqDecision exn.
Proof. solve_decision. Defined.

Inductive result (A : Type) :=
| Ok (a : A)
| Raise (e : exn).
Arguments Ok {A} a.
Arguments Raise {A} e.

(** Computations that read and write the world and may raise. *)
Definition M (A : Type) : Type := world → result A * world.

#[global] Instance M_ret : MRet M := λ A a w, (Ok a, w).
#[global] Instance M_bind : MBind M := λ A B f m w,
  match m w with
  | (Ok a, w') => f a w'
  | (Raise e, w') => (Raise e, w')
  end.

Definition raise {A} (e : exn) : M A := λ w, (Raise e, w).

(** [try: body except e: handler]. *)
Definition try_except {A} (body : M A) (e : exn) (handler : M A) : M A := λ w,
  match body w with
  | (Raise e', w') => if decide (e' = e) then handler w' else (Raise e', w')
  | r => r
  end.

Definition read_file (p : path) : M file_content := λ w,
  match fs w !! p with
  | Some c => (Ok c, w)
  | None => (Raise FileNotFoundError, w)
  end.

Definition write_file (p : path) (c : file_content) : M unit := λ w,
  (Ok (), {| fs := <[p := c]> (fs w); logged := logged w |}).

Definition path_exists (p : path) : M bool := λ w,
  (Ok (bool_decide (is_Some (fs w !! p))), w).

Definition log (d : diagnostic) : M unit := λ w,
  (Ok (), {| fs := fs w; logged := logged w ++ [d] |}).

(** [json.load] and [yaml.safe_load], on parsed contents. A JSON file
    holds an object or an array. *)
Inductive Json :=
| JsonObject (d : Document)
| JsonArray (cats : list Category).

Definition json_load (c : file_content) : M Json :=
  match c with
  | JsonFile d => mret (JsonObject d)
  | CategoriesFile cats => mret (JsonArray cats)
  | _ => raise DecodeError
  end.

Definition yaml_load (c : file_content) : M Manifest :=
  match c with YamlFile m => mret m | _ => raise DecodeError end.

(** The codecs. [decode_utf8] is strict, as the interpreter's is:
    overlong forms, surrogates, code points above U+10FFFF and truncated
    sequences are errors. Latin-1 maps every byte to the code point of
    the same number and never fails. *)
Definition continuation (b : N) : bool := ((128 <=? b) && (b <=? 191))%N.

Fixpoint decode_utf8 (bs : list N) : option str :=
  match bs with
  | [] => Some []
  | b0 :: r0 =>
    if (b0 <? 128)%N then (b0 ::.) <$> decode_utf8 r0
    else if ((194 <=? b0) && (b0 <=? 223))%N then
      match r0 with
      | b1 :: r1 =>
        if continuation b1
        then (((b0 - 192) * 64 + (b1 - 128))%N ::.) <$> decode_utf8 r1
        else None
      | _ => None
      end
    else if ((224 <=? b0) && (b0 <=? 239))%N then
      match r0 with
      | b1 :: b2 :: r2 =>
        if continuation b1 && continuation b2
           && (negb (b0 =? 224)%N || (160 <=? b1)%N)
           && (negb (b0 =? 237)%N || (b1 <=? 159)%N)
        then (((b0 - 224) * 4096 + (b1 - 128) * 64 + (b2 - 128))%N ::.)
               <$> decode_utf8 r2
        else None
      | _ => None
      end
    else if ((240 <=? b0) && (b0 <=? 244))%N then
      match r0 with
      | b1 :: b2 :: b3 :: r3 =>
        if continuation b1 && continuation b2 && continuation b3
           && (negb (b0 =? 240)%N || (144 <=? b1)%N)
           && (negb (b0 =? 244)%N || (b1 <=? 143)%N)
        then (((b0 - 240) * 262144 + (b1 - 128) * 4096 + (b2 - 128) * 64
               + (b3 - 128))%N ::.) <$> decode_utf8 r3
        else None
      | _ => None
      end
    else None
  end.

Definition decode_latin1 (bs : list N) : str := bs.

Definition encode_utf8_char (c : N) : list N :=
  if (c <? 128)%N then [c]
  else if (c <? 2048)%N then [192 + c / 64; 128 + c mod 64]%N
  else if (c <? 65536)%N then
    [224 + c / 4096; 128 + (c / 64) mod 64; 128 + c mod 64]%N
  else [240 + c / 262144; 128 + (c / 4096) mod 64; 128 + (c / 64) mod 64;
        128 + c mod 64]%N.

Definition encode_utf8 (s : str) : list N := s ≫= encode_utf8_char.

(** [open(p, 'r', encoding=...)] followed by reading the text. *)
Inductive encoding := Utf8 | Latin1.

Definition read_text (enc : encoding) (c : file_content) : M str :=
  match c, enc with
  | TextFile s, Utf8 => mret s
  | TextFile s, Latin1 => mret (decode_latin1 (encode_utf8 s))
  | RawFile bytes, Utf8 =>
    match decode_utf8 (Byte.to_N <$> bytes) with
    | Some s => mret s
    | None => raise UnicodeDecodeError
    end
  | RawFile bytes, Latin1 => mret (decode_latin1 (Byte.to_N <$> bytes))
  | _, _ => raise DecodeError
  end.

(** [f.readlines()] in universal-newlines mode: every line keeps its
    terminator, translated to a line feed. *)
Fixpoint readlines_from (cur : str) (s : str) : list str :=
  match s with
  | [] => match cur with [] => [] | _ => [reverse cur] end
  | c :: r =>
    if (c =? 10)%N then reverse (10%N :: cur) :: readlines_from [] r
    else if (c =? 13)%N then
      match r with
      | c' :: r' =>
        if (c' =? 10)%N then reverse (10%N :: cur) :: readlines_from [] r'
        else reverse (10%N :: cur) :: readlines_from [] r
      | [] => [reverse (10%N :: cur)]
      end
    else readlines_from (c :: cur) r
  end.

Definition readlines (s : str) : list str := readlines_from [] s.

(** Path operations of [pathlib]. *)
Definition parent (p : path) : path := removelast p.
Definition name (p : path) : str := List.last p [].
Definition path_str (p : path) : str := join (text "/") p.

(** ** normalize_annotations.py *)

Definition load_standard_categories_list (cats : list Category)
  : list (str * Category) :=
  fold_left (λ name_to_category cat,
               dict_set name_to_category (strip (cat_name cat)) cat)
            cats [].

Definition load_standard_categories (categories_file : path)
  : M (list (str * Category)) :=
  c ← read_file categories_file;
  loaded ← json_load c;
  match loaded with
  | JsonArray cats => mret (load_standard_categories_list cats)
  | JsonObject d =>
    (* iterating over an object yields its keys, which are strings *)
    match categories d, annotations d, doc_extra d with
    | None, None, [] => mret []
    | _, _, _ => raise TypeError
    end
  end.

Record Stats := {
  file : path;
  categories_found : nat;
  categories_normalized : nat;
  annotations_updated : nat;
  unmapped_categories : list (Z * str)
}.

(** Body of the loop over the document's own categories. *)
Definition category_step (standard_categories : list (str * Category))
    (st : gmap Z Z * nat * list (Z * str)) (old_cat : Category)
  : gmap Z Z * nat * list (Z * str) :=
  let '(old_to_new_id, normalized, unmapped) := st in
  let old_id := cat_id old_cat in
  let old_name := strip (cat_name old_cat) in
  match dict_get standard_categories old_name with
  | Some std_cat =>
    (<[old_id := cat_id std_cat]> old_to_new_id, S normalized, unmapped)
  | None =>
    (<[old_id := old_id]> old_to_new_id, normalized,
     unmapped ++ [(old_id, old_name)])
  end.

(** [sorted(xs, key=lambda x: x['id'])]: stable. *)
Fixpoint insert_by_id (x : Category) (l : list Category) : list Category :=
  match l with
  | [] => [x]
  | y :: r => if cat_id x <=? cat_id y then x :: l else y :: insert_by_id x r
  end.

Definition sorted_by_id (l : list Category) : list Category :=
  foldr insert_by_id [] l.

(** Loop over the annotations: rewritten list and number of updates. *)
Fixpoint update_annotations (old_to_new_id : gmap Z Z) (anns : list Annotation)
  : list Annotation * nat :=
  match anns with
  | [] => ([], O)
  | ann :: rest =>
    let '(rest', n) := update_annotations old_to_new_id rest in
    match category_id ann with
    | Some old_cat_id =>
      match old_to_new_id !! old_cat_id with
      | Some new_id =>
        ({| category_id := Some new_id; ann_extra := ann_extra ann |} :: rest',
         S n)
      | None => (ann :: rest', n)
      end
    | None => (ann :: rest', n)
    end
  end.

Definition normalize_annotation_file (annotation_file : path)
    (standard_categories : list (str * Category)) (dry_run : bool) : M Stats :=
  let stats := {| file := annotation_file; categories_found := 0;
                  categories_normalized := 0; annotations_updated := 0;
                  unmapped_categories := [] |} in
  c ← read_file annotation_file;
  data ← json_load c;
  match data with
  | JsonArray _ =>
    (* ['categories' not in data]: no element of the list is that string *)
    mret stats
  | JsonObject data =>
    match categories data with
    | None => mret stats
    | Some cats =>
      let '(old_to_new_id, normalized, unmapped) :=
        fold_left (category_step standard_categories) cats (∅, O, []) in
      let new_categories := sorted_by_id (dict_values standard_categories) in
      let '(anns, updated) :=
        match annotations data with
        | Some anns =>
          let '(anns', n) := update_annotations old_to_new_id anns in
          (Some anns', n)
        | None => (None, O)
        end in
      let data' := {| categories := Some new_categories; annotations := anns;
                      doc_extra := doc_extra data |} in
      _ ← (if dry_run then mret ()
           else write_file annotation_file (JsonFile data'));
      mret {| file := annotation_file; categories_found := length cats;
              categories_normalized := normalized;
              annotations_updated := updated;
              unmapped_categories := unmapped |}
    end
  end.

(** ** normalize_annotations_yolo.py *)

(** Damage classes to remove. *)
Definition DAMAGE_CLASSES : list str :=
  [ text "Móp, bẹp(thụng)";
    text "Vỡ, nứt";
    text "Trầy, xước";
    text "Thủng, rách";
    text "Long, rụng";
    text "Mất" ].

Definition load_reference_mapping_names (names : list (Z * str))
  : list (str * Z) :=
  fold_left (λ class_mapping '(class_id, class_name),
               dict_set class_mapping (strip class_name) class_id)
            names [].

Definition load_reference_mapping (reference_path : path)
  : M (list (str * Z)) :=
  found ← path_exists reference_path;
  if negb found then
    _ ← log (ReferenceNotFound reference_path);
    raise SystemExit
  else
    c ← read_file reference_path;
    data ← yaml_load c;
    match names data with
    | Some items =>
      let class_mapping := load_reference_mapping_names items in
      _ ← log (LoadedReference (length class_mapping) reference_path);
      mret class_mapping
    | None => raise KeyError
    end.

(** Loop of [create_class_id_mapping] over the declared classes. *)
Fixpoint classify_names (dataset : str) (reference_mapping : list (str * Z))
    (items : list (Z * str)) (id_mapping : gmap Z Z) (damage_class_ids : list Z)
  : M (gmap Z Z * list Z) :=
  match items with
  | [] => mret (id_mapping, damage_class_ids)
  | (old_id, class_name) :: rest =>
    let class_name_clean := strip class_name in
    if bool_decide (class_name_clean ∈ DAMAGE_CLASSES) then
      classify_names dataset reference_mapping rest id_mapping
                     (damage_class_ids ++ [old_id])
    else
      match dict_get reference_mapping class_name_clean with
      | Some new_id =>
        classify_names dataset reference_mapping rest
                       (<[old_id := new_id]> id_mapping) damage_class_ids
      | None =>
        _ ← log (ClassNotInReference class_name old_id dataset);
        classify_names dataset reference_mapping rest id_mapping
                       damage_class_ids
      end
  end.

Definition create_class_id_mapping (dataset_yaml_path : path)
    (reference_mapping : list (str * Z)) : M (gmap Z Z * list Z) :=
  c ← read_file dataset_yaml_path;
  data ← yaml_load c;
  match names data with
  | None =>
    _ ← log (NoNamesField dataset_yaml_path);
    mret (∅, [])
  | Some items =>
    classify_names (name (parent dataset_yaml_path)) reference_mapping
                   items ∅ []
  end.

(** The content [normalize_data_yaml] dumps. *)
Definition normalized_data (reference_mapping : list (str * Z)) : Manifest :=
  {| train := Some (text "images/train");
     val := Some (text "images/val");
     names := Some (fold_left (λ d '(class_name, class_id),
                                 dict_set d class_id class_name)
                              reference_mapping []);
     manifest_extra := [] |}.

Definition normalize_data_yaml (dataset_yaml_path : path)
    (reference_mapping : list (str * Z)) (dry_run : bool) : M unit :=
  if dry_run then log (WouldNormalize dataset_yaml_path)
  else write_file dataset_yaml_path (YamlFile (normalized_data reference_mapping)).

Section label_files.
Context `{!DecimalTable}.

(** Body of the loop of [normalize_label_file] over the lines read. *)
Definition label_step (id_mapping : gmap Z Z) (damage_class_ids : list Z)
    (st : list str * nat * nat) (line : str) : list str * nat * nat :=
  let '(new_lines, num_remapped, num_removed) := st in
  let line := strip line in
  match line with
  | [] => st
  | _ =>
    let parts := split line in
    if (length parts <? 2)%nat then st
    else
      match py_int (hd [] parts) with
      | None => st
      | Some old_class_id =>
        if bool_decide (old_class_id ∈ damage_class_ids) then
          (new_lines, num_remapped, S num_removed)
        else
          match id_mapping !! old_class_id with
          | Some new_class_id =>
            (new_lines ++ [join (text " ") (py_str new_class_id :: tl parts)],
             S num_remapped, num_removed)
          | None => (new_lines ++ [line], num_remapped, num_removed)
          end
      end
  end.

Definition normalize_lines (id_mapping : gmap Z Z) (damage_class_ids : list Z)
    (lines : list str) : list str * nat * nat :=
  fold_left (label_step id_mapping damage_class_ids) lines ([], O, O).

(** What is written back: the lines joined by line feeds, and a final
    line feed when there is at least one line. *)
Definition written_text (new_lines : list str) : str :=
  join [10%N] new_lines ++ match new_lines with [] => [] | _ => [10%N] end.

Definition normalize_label_file (label_path : path) (id_mapping : gmap Z Z)
    (damage_class_ids : list Z) (dry_run : bool) : M (nat * nat) :=
  found ← path_exists label_path;
  if negb found then mret (O, O)
  else
    content ← try_except (c ← read_file label_path; read_text Utf8 c)
                         UnicodeDecodeError
                         (_ ← log (TryingLatin1 label_path);
                          c ← read_file label_path;
                          read_text Latin1 c);
    let '(new_lines, num_remapped, num_removed) :=
      normalize_lines id_mapping damage_class_ids (readlines content) in
    _ ← (if dry_run then mret ()
         else write_file label_path (TextFile (written_text new_lines)));
    mret (num_remapped, num_removed).

(** [dataset_dir.rglob("*.txt")], kept when the parent directory is named
    [train] or [val] or the parent path contains [labels]. The order of
    the listing is the operating system's; here it is the map's. *)
Definition is_txt_under (dataset_dir : path) (f : path) : bool :=
  bool_decide (dataset_dir `prefix_of` parent f) && bool_decide (f ≠ [])
  && ends_with (text ".txt") (name f).

Definition is_label_file (f : path) : bool :=
  bool_decide (name (parent f) ∈ [text "train"; text "val"])
  || contains (text "labels") (path_str (parent f)).

Definition find_label_files (dataset_dir : path) : M (list path) := λ w,
  (Ok (List.filter is_label_file
         (List.filter (is_txt_under dataset_dir) (elements (dom (fs w))))), w).

Record DatasetStats := {
  dataset : str;
  label_files : nat;
  annotations_remapped : nat;
  annotations_removed : nat;
  classes_mapped : nat;
  damage_classes : nat
}.

Fixpoint normalize_label_files (paths : list path) (id_mapping : gmap Z Z)
    (damage_class_ids : list Z) (dry_run : bool)
    (total_remapped total_removed : nat) : M (nat * nat) :=
  match paths with
  | [] => mret (total_remapped, total_removed)
  | label_path :: rest =>
    '(num_remapped, num_removed) ←
      normalize_label_file label_path id_mapping damage_class_ids dry_run;
    normalize_label_files rest id_mapping damage_class_ids dry_run
      (total_remapped + num_remapped)%nat (total_removed + num_removed)%nat
  end.

Definition normalize_dataset (dataset_yaml_path : path)
    (reference_mapping : list (str * Z)) (dry_run : bool) : M DatasetStats :=
  let dataset_dir := parent dataset_yaml_path in
  let dataset_name := name dataset_dir in
  '(id_mapping, damage_class_ids) ←
    create_class_id_mapping dataset_yaml_path reference_mapping;
  _ ← normalize_data_yaml dataset_yaml_path reference_mapping dry_run;
  paths ← find_label_files dataset_dir;
  '(total_remapped, total_removed) ←
    normalize_label_files paths id_mapping damage_class_ids dry_run O O;
  mret {| dataset := dataset_name; label_files := length paths;
          annotations_remapped := total_remapped;
          annotations_removed := total_removed;
          classes_mapped := size id_mapping;
          damage_classes := length damage_class_ids |}.

End label_files.

(** ** The callers: file discovery and the two [main] functions

    Paths are relative to the working directory, so that [str(path)] is
    the segments joined by [/]. A directory exists when some file lies
    under it: empty directories are not represented. Progress bars and
    printed or logged summary lines are not recorded; what [main] sums up
    is returned instead. *)

(** [f] lies somewhere below the directory [dir]. *)
Definition is_under (dir f : path) : bool :=
  bool_decide (dir `prefix_of` parent f) && bool_decide (f ≠ []).

(** [base_path.rglob(file_name)] for a literal file name. *)
Definition rglob_name (dir : path) (file_name : str) : M (list path) := λ w,
  (Ok (List.filter (λ f, is_under dir f && bool_decide (name f = file_name))
                   (elements (dom (fs w)))), w).

Definition dir_exists (dir : path) : M bool := λ w,
  (Ok (existsb (λ f, bool_decide (dir `prefix_of` f)) (elements (dom (fs w)))),
   w).

Definition find_all_annotation_files (base_dir : path) : M (list path) :=
  rglob_name base_dir (text "annotations.json").

(** Comparison of strings by code points and of paths by segments, as
    [list.sort] applies it to [Path] objects. *)
Fixpoint str_leb (a b : str) : bool :=
  match a, b with
  | [], _ => true
  | _ :: _, [] => false
  | x :: a', y :: b' =>
    if (x <? y)%N then true
    else if (y <? x)%N then false
    else str_leb a' b'
  end.

Fixpoint path_leb (p q : path) : bool :=
  match p, q with
  | [], _ => true
  | _ :: _, [] => false
  | x :: p', y :: q' =>
    if decide (x = y) then path_leb p' q' else str_leb x y
  end.

Fixpoint insert_path (p : path) (l : list path) : list path :=
  match l with
  | [] => [p]
  | q :: r => if path_leb p q then p :: l else q :: insert_path p r
  end.

Definition sort_paths (l : list path) : list path := foldr insert_path [] l.

Definition find_all_data_yaml_files (root_dir : path) : M (list path) :=
  found ← dir_exists root_dir;
  if negb found then raise SystemExit
  else
    data_yaml_files ← rglob_name root_dir (text "data.yaml");
    mret (sort_paths data_yaml_files).

Module Annotations.

Record Args := {
  dataset_dir : path;
  categories_file : path;
  dry_run : bool
}.

(** The figures of the printed summary. *)
Record Summary := {
  files_processed : nat;
  total_categories : nat;
  total_normalized : nat;
  total_annotations : nat;
  unmapped_categories_set : gset str
}.

(** Loop of [main] over the annotation files. *)
Fixpoint process_files (annotation_files : list path)
    (standard_categories : list (str * Category)) (dry_run : bool)
    (all_stats : list Stats) (unmapped_categories_set : gset str)
  : M (list Stats * gset str) :=
  match annotation_files with
  | [] => mret (all_stats, unmapped_categories_set)
  | ann_file :: rest =>
    stats ← normalize_annotation_file ann_file standard_categories dry_run;
    process_files rest standard_categories dry_run (all_stats ++ [stats])
      (fold_left (λ s unmapped, s ∪ {[unmapped.2]})
                 (unmapped_categories stats) unmapped_categories_set)
  end.

Definition main (args : Args) : M Summary :=
  standard_categories ← load_standard_categories (categories_file args);
  annotation_files ← find_all_annotation_files (dataset_dir args);
  '(all_stats, unmapped_categories_set) ←
    process_files annotation_files standard_categories (dry_run args) [] ∅;
  mret {| files_processed := length all_stats;
          total_categories := sum_list_with categories_found all_stats;
          total_normalized := sum_list_with categories_normalized all_stats;
          total_annotations := sum_list_with annotations_updated all_stats;
          unmapped_categories_set := unmapped_categories_set |}.

End Annotations.

Module Yolo.

Record Args := {
  dry_run : bool;
  dataset_filter : option str;
  root_dir : path;
  reference_yaml : path
}.

Record Summary := {
  total_datasets : nat;
  total_files : nat;
  total_remapped : nat;
  total_removed : nat;
  failed : list (path * exn)
}.

Section main.
Context `{!DecimalTable}.

(** Loop of [main] over the datasets: an exception of one dataset is
    logged and the loop goes on; [SystemExit] is no [Exception]. *)
Fixpoint process_datasets (data_yaml_files : list path)
    (reference_mapping : list (str * Z)) (dry_run : bool)
    (all_stats : list DatasetStats) (errors : list (path * exn))
  : M (list DatasetStats * list (path * exn)) :=
  match data_yaml_files with
  | [] => mret (all_stats, errors)
  | data_yaml_path :: rest => λ w,
    match normalize_dataset data_yaml_path reference_mapping dry_run w with
    | (Ok stats, w') =>
      process_datasets rest reference_mapping dry_run (all_stats ++ [stats])
                       errors w'
    | (Raise SystemExit, w') => (Raise SystemExit, w')
    | (Raise e, w') =>
      process_datasets rest reference_mapping dry_run all_stats
                       (errors ++ [(data_yaml_path, e)]) w'
    end
  end.

Definition main (args : Args) : M Summary :=
  reference_mapping ← load_reference_mapping (reference_yaml args);
  data_yaml_files ← find_all_data_yaml_files (root_dir args);
  let data_yaml_files :=
    match dataset_filter args with
    | Some (c :: d) =>
      List.filter (λ f, contains (c :: d) (path_str f)) data_yaml_files
    | _ => data_yaml_files
    end in
  '(all_stats, errors) ←
    process_datasets data_yaml_files reference_mapping (dry_run args) [] [];
  mret {| total_datasets := length all_stats;
          total_files := sum_list_with label_files all_stats;
          total_remapped := sum_list_with annotations_remapped all_stats;
          total_removed := sum_list_with annotations_removed all_stats;
          failed := errors |}.

End main.
End Yolo.

(** * Vocabulary of the properties *)

(** A token: non-empty and free of whitespace, as [split] produces. *)
Definition token (t : str) : Prop :=
  t ≠ [] ∧ Forall (λ c, isspace c = false) t.

(** A text that neither starts nor ends with whitespace. *)
Definition trimmed (s : str) : Prop :=
  ∃ a b m, isspace a = false ∧ isspace b = false ∧
           (s = [a] ∨ s = a :: m ++ [b]).

Definition digit (c : N) : Prop := (48 ≤ c ≤ 57)%N.

(** Value of a digit string read from the left, starting from [a]. *)
Definition dec_val (ds : str) (a : Z) : Z :=
  fold_left (λ a c, a * 10 + (Z.of_N c - 48)) ds a.

Definition zero_stats (annotation_file : path) : Stats :=
  {| file := annotation_file; categories_found := 0;
     categories_normalized := 0; annotations_updated := 0;
     unmapped_categories := [] |}.

Definition canonical_ids (standard_categories : list (str * Category))
  : list Z :=
  cat_id <$> dict_values standard_categories.

(** The rewrite of one annotation, and whether it counts as updated. *)
Definition update_annotation (old_to_new_id : gmap Z Z) (ann : Annotation)
  : Annotation :=
  match category_id ann with
  | Some old_cat_id =>
    match old_to_new_id !! old_cat_id with
    | Some new_id => {| category_id := Some new_id; ann_extra := ann_extra ann |}
    | None => ann
    end
  | None => ann
  end.

Definition in_table (old_to_new_id : gmap Z Z) (ann : Annotation) : bool :=
  match category_id ann with
  | Some old_cat_id => bool_decide (is_Some (old_to_new_id !! old_cat_id))
  | None => false
  end.

Definition refers_to (ids : list Z) (ann : Annotation) : bool :=
  match category_id ann with
  | Some c => bool_decide (c ∈ ids)
  | None => false
  end.

(** The document [normalize_annotation_file] dumps. *)
Definition normalized_document (standard_categories : list (str * Category))
    (old_to_new_id : gmap Z Z) (data : Document) : Document :=
  {| categories := Some (sorted_by_id (dict_values standard_categories));
     annotations :=
       (λ anns : list Annotation, update_annotation old_to_new_id <$> anns)
         <$> annotations data;
     doc_extra := doc_extra data |}.

(** What happens to one line, read off its whitespace-delimited tokens. *)
Inductive outcome :=
| Skipped
| Removed
| Remapped (out : str)
| Kept (out : str).

Definition emitted (o : outcome) : list str :=
  match o with
  | Remapped out | Kept out => [out]
  | _ => []
  end.

Definition remapped (o : outcome) : nat :=
  match o with Remapped _ => 1 | _ => 0 end.

Definition removed (o : outcome) : nat :=
  match o with Removed => 1 | _ => 0 end.

Section vocabulary.
Context `{!DecimalTable}.

Definition line_outcome (id_mapping : gmap Z Z) (damage_class_ids : list Z)
    (line : str) : outcome :=
  match split line with
  | tok :: g :: gs =>
    match py_int tok with
    | None => Skipped
    | Some old_class_id =>
      if bool_decide (old_class_id ∈ damage_class_ids) then Removed
      else
        match id_mapping !! old_class_id with
        | Some new_class_id =>
          Remapped (join (text " ") (py_str new_class_id :: g :: gs))
        | None => Kept (strip line)
        end
    end
  | _ => Skipped
  end.

(** A line with fewer than two tokens, or whose first token is not an
    integer. *)
Definition malformed (line : str) : Prop :=
  (length (split line) < 2)%nat ∨ py_int (hd [] (split line)) = None.

(** The bytes of a text file. *)
Definition text_bytes (c : file_content) : option (list N) :=
  match c with
  | TextFile s => Some (encode_utf8 s)
  | RawFile bytes => Some (Byte.to_N <$> bytes)
  | _ => None
  end.

(** The text [normalize_label_file] reads from a text file: what the
    file decodes to as UTF-8, or as latin-1 when it is not valid UTF-8;
    and the warning logged in the second case. *)
Definition label_text (c : file_content) : option str :=
  match c with
  | TextFile s => Some s
  | RawFile bytes =>
    Some (default (decode_latin1 (Byte.to_N <$> bytes))
                  (decode_utf8 (Byte.to_N <$> bytes)))
  | _ => None
  end.

Definition fallback_warning (label_path : path) (c : file_content)
  : list diagnostic :=
  match c with
  | RawFile bytes =>
    match decode_utf8 (Byte.to_N <$> bytes) with
    | Some _ => []
    | None => [TryingLatin1 label_path]
    end
  | _ => []
  end.

(** The result and the effect of [normalize_label_file] depend on the
    world only through what the label path holds. *)
Definition label_file_result (id_mapping : gmap Z Z)
    (damage_class_ids : list Z) (held : option file_content)
  : result (nat * nat) :=
  match held with
  | None => Ok (O, O)
  | Some c =>
    match label_text c with
    | Some content =>
      let '(_, num_remapped, num_removed) :=
        normalize_lines id_mapping damage_class_ids (readlines content) in
      Ok (num_remapped, num_removed)
    | None => Raise DecodeError
    end
  end.

Definition label_file_effect (id_mapping : gmap Z Z)
    (damage_class_ids : list Z) (dry_run : bool) (label_path : path)
    (w : world) : world :=
  match fs w !! label_path with
  | Some (TextFile content) =>
    if dry_run then w
    else {| fs := <[label_path :=
                      TextFile (written_text
                        (normalize_lines id_mapping damage_class_ids
                                         (readlines content)).1.1)]> (fs w);
            logged := logged w |}
  | Some (RawFile bytes) =>
    let content := default (decode_latin1 (Byte.to_N <$> bytes))
                           (decode_utf8 (Byte.to_N <$> bytes)) in
    {| fs := if dry_run then fs w
             else <[label_path :=
                      TextFile (written_text
                        (normalize_lines id_mapping damage_class_ids
                                         (readlines content)).1.1)]> (fs w);
       logged := logged w ++ fallback_warning label_path (RawFile bytes) |}
  | _ => w
  end.

End vocabulary.

(** * Concrete inputs *)

(** A table that knows the ASCII digits only; used to run the
    reconcilers on concrete inputs. *)
Definition ascii_table_fn (c : N) : option Z :=
  if ((48 <=? c) && (c <=? 57))%N then Some (Z.of_N c - 48) else None.

Definition ascii_table : DecimalTable.
Proof.
  refine {| decimal := ascii_table_fn |}.
  intros c [H1 H2]. unfold ascii_table_fn.
  apply N.leb_le in H1, H2. by rewrite H1, H2.
Defined.

Definition door : Category :=
  {| cat_id := 1; cat_name := text "door"; cat_extra := [] |}.

Definition canonical_doors : list (str * Category) :=
  load_standard_categories_list [door].

Definition annotation_of (c : Z) : Annotation :=
  {| category_id := Some c; ann_extra := [] |}.

Definition annotations_json : path := [text "d"; text "annotations.json"].
Definition data_yaml : path := [text "d"; text "data.yaml"].
Definition label_txt : path :=
  [text "d"; text "labels"; text "train"; text "a.txt"].

(** A document that declares [door] under the local ID 5 and has one
    annotation for it and one for the undeclared ID 99. *)
Definition coco_document : Document :=
  {| categories := Some [{| cat_id := 5; cat_name := text " door";
                            cat_extra := [] |}];
     annotations := Some [annotation_of 5; annotation_of 99];
     doc_extra := [] |}.

Definition coco_world : world :=
  {| fs := {[ annotations_json := JsonFile coco_document ]}; logged := [] |}.

(** A dataset that declares [door] under the local ID 0, with one label
    file holding a line for it and a line for the undeclared ID 9. *)
Definition yolo_manifest : Manifest :=
  {| train := Some (text "train"); val := Some (text "valid");
     names := Some [(0, text "door")]; manifest_extra := [] |}.

Definition yolo_reference : list (str * Z) :=
  load_reference_mapping_names [(1, text "door")].

Definition yolo_world : world :=
  {| fs := {[ data_yaml := YamlFile yolo_manifest;
              label_txt := TextFile (text "0 0.1 0.2" ++ [10%N]
                                     ++ text "9 0.3 0.4" ++ [10%N]) ]};
     logged := [] |}.

(** A label file that is not valid UTF-8: the bytes [9 \xff 1] and a
    line feed. *)
Definition latin1_label : list Byte.byte :=
  [Byte.x39; Byte.x20; Byte.xff; Byte.x20; Byte.x31; Byte.x0a].

Definition latin1_world : world :=
  {| fs := {[ label_txt := RawFile latin1_label ]}; logged := [] |}.

(** The reference mapping [{door: 1, hood: 9}] and a dataset that
    declares [{0: door}] only, with a line for the undeclared ID 9 that
    has runs of spaces. *)
Definition hood_reference : list (str * Z) :=
  load_reference_mapping_names [(1, text "door"); (9, text "hood")].

Definition spaced_world : world :=
  {| fs := {[ data_yaml := YamlFile yolo_manifest;
              label_txt := TextFile (text "0 0.1 0.2" ++ [10%N]
                                     ++ text "9  0.3   0.4" ++ [10%N]) ]};
     logged := [] |}.

(** A document without a [categories] key. *)
Definition bare_document : Document :=
  {| categories := None; annotations := Some [annotation_of 5];
     doc_extra := [] |}.

Definition bare_world : world :=
  {| fs := {[ annotations_json := JsonFile bare_document ]}; logged := [] |}.

(** A dataset whose reference mapping was forced to contain a damage
    name. *)
Definition forced_reference : list (str * Z) :=
  load_reference_mapping_names [(3, text "Mất"); (1, text "door")].

Definition forced_manifest : Manifest :=
  {| train := None; val := None;
     names := Some [(4, text " Mất "); (0, text "door")];
     manifest_extra := [] |}.

Definition forced_world : world :=
  {| fs := {[ data_yaml := YamlFile forced_manifest ]}; logged := [] |}.

(** The reference mapping [{bumper: 0, door: 1}] and a dataset that
    declares [{door: 0, bumper: 1}]. *)
Definition swapped_reference : list (str * Z) :=
  load_reference_mapping_names [(0, text "bumper"); (1, text "door")].

Definition swapped_manifest : Manifest :=
  {| train := None; val := None;
     names := Some [(0, text "door"); (1, text "bumper")];
     manifest_extra := [] |}.

Definition swapped_world : world :=
  {| fs := {[ data_yaml := YamlFile swapped_manifest ]}; logged := [] |}.

(** * Vocabulary of the further properties *)

(** The remap table a document's own categories produce. *)
Definition category_table (standard_categories : list (str * Category))
    (cats : list Category) : gmap Z Z :=
  (fold_left (category_step standard_categories) cats (∅, O, [])).1.1.

(** The result and the effect of [normalize_annotation_file] depend on
    the world only through what the annotation path holds. *)
Definition annotation_file_result (annotation_file : path)
    (standard_categories : list (str * Category))
    (held : option file_content) : result Stats :=
  match held with
  | None => Raise FileNotFoundError
  | Some (CategoriesFile _) => Ok (zero_stats annotation_file)
  | Some (JsonFile data) =>
    match categories data with
    | None => Ok (zero_stats annotation_file)
    | Some cats =>
      let '(old_to_new_id, normalized, unmapped) :=
        fold_left (category_step standard_categories) cats (∅, O, []) in
      Ok {| file := annotation_file;
            categories_found := length cats;
            categories_normalized := normalized;
            annotations_updated :=
              default O ((λ anns : list Annotation,
                            length (List.filter (in_table old_to_new_id) anns))
                           <$> annotations data);
            unmapped_categories := unmapped |}
    end
  | Some _ => Raise DecodeError
  end.

Definition annotation_file_effect (annotation_file : path)
    (standard_categories : list (str * Category)) (dry_run : bool)
    (w : world) : world :=
  match fs w !! annotation_file with
  | Some (JsonFile data) =>
    match categories data with
    | Some cats =>
      if dry_run then w
      else {| fs := <[annotation_file :=
                        JsonFile (normalized_document standard_categories
                                    (category_table standard_categories cats)
                                    data)]> (fs w);
              logged := logged w |}
    | None => w
    end
  | _ => w
  end.


(** Characters that end a line when a file is read. *)
Definition no_line_break (s : str) : Prop :=
  Forall (λ c, c ≠ 10%N ∧ c ≠ 13%N) s.

(** The order that [path_leb] decides. *)
Definition path_le (p q : path) : Prop := path_leb p q = true.

(** Whether the standard mapping knows a category's trimmed name, and the
    entry reported for a category it does not know. *)
Definition is_known (standard_categories : list (str * Category))
    (cat : Category) : bool :=
  bool_decide (is_Some (dict_get standard_categories (strip (cat_name cat)))).

Definition unmapped_entry (cat : Category) : Z * str :=
  (cat_id cat, strip (cat_name cat)).

(** Whether a declared class carries a damage name. *)
Definition is_damage_item (item : Z * str) : bool :=
  bool_decide (strip item.2 ∈ DAMAGE_CLASSES).

#[global] Instance malformed_dec `{!DecimalTable} (line : str) :
  Decision (malformed line).
Proof. unfold malformed. apply _. Defined.

(** * Further concrete inputs *)

Definition local_door : Category :=
  {| cat_id := 5; cat_name := text " door"; cat_extra := [] |}.

Definition categories_json : path := [text "categories.json"].

(** The standard category file next to the annotated dataset of
    [coco_world]. *)
Definition standard_world : world :=
  {| fs := {[ categories_json := CategoriesFile [door];
              annotations_json := JsonFile coco_document ]};
     logged := [] |}.

(** The same tree with an [annotations.json] that holds no document. *)
Definition broken_world : world :=
  {| fs := {[ categories_json := CategoriesFile [door];
              annotations_json := TextFile [] ]};
     logged := [] |}.

(** A dataset whose manifest declares no classes. *)
Definition nameless_manifest : Manifest :=
  {| train := Some (text "train"); val := None; names := None;
     manifest_extra := [] |}.

Definition nameless_world : world :=
  {| fs := {[ data_yaml := YamlFile nameless_manifest;
              label_txt := TextFile (text "0 0.1 0.2" ++ [10%N]) ]};
     logged := [] |}.

(** A raw tree with the reference manifest beside it: dataset [d] is
    well formed, the manifest of dataset [e] is no YAML document. *)
Definition reference_yaml_path : path := [text "ref"; text "data.yaml"].
Definition raw : path := [text "raw"].
Definition raw_d_yaml : path := [text "raw"; text "d"; text "data.yaml"].
Definition raw_e_yaml : path := [text "raw"; text "e"; text "data.yaml"].
Definition raw_d_label : path :=
  [text "raw"; text "d"; text "labels"; text "train"; text "a.txt"].

Definition reference_manifest : Manifest :=
  {| train := None; val := None; names := Some [(1, text "door")];
     manifest_extra := [] |}.

Definition raw_world : world :=
  {| fs := {[ reference_yaml_path := YamlFile reference_manifest;
              raw_d_yaml := YamlFile yolo_manifest;
              raw_d_label := TextFile (text "0 0.1 0.2" ++ [10%N]);
              raw_e_yaml := TextFile [] ]};
     logged := [] |}.

Definition raw_args (dry_run : bool) : Yolo.Args :=
  {| Yolo.dry_run := dry_run; Yolo.dataset_filter := None;
     Yolo.root_dir := raw; Yolo.reference_yaml := reference_yaml_path |}.
(** * Properties *)

(** ** Facts about the text primitives *)

Lemma split_space (c : N) (s : str) :
  isspace c = true → split (c :: s) = split s.
Proof. intros Hc. simpl. by rewrite Hc. Qed.

Lemma split_tokens (s : str) : Forall token (split s).
Proof.
  induction s as [|c r IH]; [constructor|].
  simpl. destruct (isspace c) eqn:Hc; [done|].
  destruct r as [|c' r'].
  { repeat constructor; [done|]. by repeat constructor. }
  destruct (isspace c') eqn:Hc'.
  { constructor; [|done]. split; [done|]. by repeat constructor. }
  destruct (split (c' :: r')) as [|t ts].
  { repeat constructor; [done|]. by repeat constructor. }
  inversion IH as [|? ? [Ht1 Ht2] Hts]; subst.
  constructor; [|done]. split; [done|]. by constructor.
Qed.

Lemma split_token_space (t : str) (c : N) (s : str) :
  token t → isspace c = true → split (t ++ c :: s) = t :: split s.
Proof.
  intros [Hne Ht] Hc. induction t as [|a t IH]; [done|].
  inversion Ht as [|? ? Ha Ht']; subst.
  destruct t as [|b t'].
  - simpl. by rewrite Ha, Hc.
  - assert (Hb : isspace b = false) by by inversion Ht'.
    change ((a :: b :: t') ++ c :: s) with (a :: (b :: t') ++ c :: s).
    change (split (a :: (b :: t') ++ c :: s)) with
      (if isspace a then split ((b :: t') ++ c :: s)
       else if isspace b then [a] :: split ((b :: t') ++ c :: s)
       else match split ((b :: t') ++ c :: s) with
            | t :: ts => (a :: t) :: ts
            | [] => [[a]]
            end).
    rewrite Ha, Hb. by rewrite IH.
Qed.

Lemma split_token (t : str) : token t → split t = [t].
Proof.
  intros [Hne Ht]. induction t as [|a t IH]; [done|].
  inversion Ht as [|? ? Ha Ht']; subst.
  destruct t as [|b t'].
  - simpl. by rewrite Ha.
  - assert (Hb : isspace b = false) by by inversion Ht'.
    change (split (a :: b :: t')) with
      (if isspace a then split (b :: t')
       else if isspace b then [a] :: split (b :: t')
       else match split (b :: t') with
            | t :: ts => (a :: t) :: ts
            | [] => [[a]]
            end).
    rewrite Ha, Hb. by rewrite IH.
Qed.

(** Splitting a line that was produced by joining tokens with single
    spaces gives the tokens back. *)
Lemma split_join (parts : list str) :
  Forall token parts → split (join (text " ") parts) = parts.
Proof.
  induction 1 as [|p ps Hp Hps IH]; [done|].
  destruct ps as [|p' ps'].
  - simpl. by apply split_token.
  - change (join (text " ") (p :: p' :: ps'))
      with (p ++ 32%N :: join (text " ") (p' :: ps')).
    rewrite split_token_space by done. by rewrite IH.
Qed.

Lemma split_app_space (s : str) (c : N) :
  isspace c = true → split (s ++ [c]) = split s.
Proof.
  intros Hc. induction s as [|a r IH].
  - simpl. by rewrite Hc.
  - destruct r as [|b r'].
    + simpl. destruct (isspace a); [by rewrite Hc|]. by rewrite Hc.
    + change ((a :: b :: r') ++ [c]) with (a :: b :: (r' ++ [c])).
      change (b :: r' ++ [c]) with ((b :: r') ++ [c]) in *.
      change (split (a :: (b :: r') ++ [c])) with
        (if isspace a then split ((b :: r') ++ [c])
         else if isspace b then [a] :: split ((b :: r') ++ [c])
         else match split ((b :: r') ++ [c]) with
              | t :: ts => (a :: t) :: ts
              | [] => [[a]]
              end).
      rewrite IH. done.
Qed.

Lemma split_lstrip (s : str) : split (lstrip s) = split s.
Proof.
  induction s as [|c r IH]; [done|].
  simpl lstrip. destruct (isspace c) eqn:Hc; [|done].
  by rewrite split_space.
Qed.

Lemma lstrip_suffix (s : str) :
  ∃ ws, Forall (λ c, isspace c = true) ws ∧ s = ws ++ lstrip s.
Proof.
  induction s as [|c r (ws & Hws & IH)].
  - by exists [].
  - simpl. destruct (isspace c) eqn:Hc.
    + exists (c :: ws). split; [by constructor|]. simpl. by rewrite <- IH.
    + by exists [].
Qed.

Lemma split_app_spaces (s ws : str) :
  Forall (λ c, isspace c = true) ws → split (s ++ ws) = split s.
Proof.
  intros Hws. revert s. induction Hws as [|c ws Hc Hws IH]; intros s.
  - by rewrite app_nil_r.
  - rewrite (cons_middle c s ws), app_assoc, IH. by apply split_app_space.
Qed.

Lemma split_rstrip (s : str) : split (rstrip s) = split s.
Proof.
  unfold rstrip. destruct (lstrip_suffix (reverse s)) as (ws & Hws & E).
  apply (f_equal reverse) in E. rewrite reverse_involutive, reverse_app in E.
  rewrite E at 2. symmetry. apply split_app_spaces.
  by apply Forall_reverse.
Qed.

(** The tokens of a line do not depend on stripping it first. *)
Lemma split_strip (s : str) : split (strip s) = split s.
Proof. unfold strip. by rewrite split_rstrip, split_lstrip. Qed.

Lemma lstrip_id (c : N) (s : str) :
  isspace c = false → lstrip (c :: s) = c :: s.
Proof. intros Hc. simpl. by rewrite Hc. Qed.

Lemma rstrip_id (s : str) (c : N) :
  isspace c = false → rstrip (s ++ [c]) = s ++ [c].
Proof.
  intros Hc. unfold rstrip. rewrite reverse_snoc, lstrip_id by done.
  by rewrite reverse_cons, reverse_involutive.
Qed.

Lemma rstrip_app_space (s : str) (c : N) :
  isspace c = true → rstrip (s ++ [c]) = rstrip s.
Proof.
  intros Hc. unfold rstrip. rewrite reverse_snoc. simpl. by rewrite Hc.
Qed.

Lemma strip_trimmed (s : str) : trimmed s → strip s = s.
Proof.
  intros (a & b & m & Ha & Hb & [->| ->]); unfold strip.
  - rewrite lstrip_id by done. by apply (rstrip_id []).
  - rewrite lstrip_id by done. by apply (rstrip_id (a :: m)).
Qed.

Lemma strip_trimmed_newline (s : str) :
  trimmed s → strip (s ++ [10%N]) = s.
Proof.
  intros Hs. pose proof (strip_trimmed s Hs) as E.
  destruct Hs as (a & b & m & Ha & Hb & [->| ->]); unfold strip in *.
  - simpl. rewrite Ha. by apply (rstrip_id []).
  - change ((a :: m ++ [b]) ++ [10%N]) with (a :: (m ++ [b]) ++ [10%N]).
    rewrite lstrip_id by done.
    change (a :: (m ++ [b]) ++ [10%N]) with ((a :: m ++ [b]) ++ [10%N]).
    rewrite rstrip_app_space by done.
    by apply (rstrip_id (a :: m)).
Qed.

Lemma token_trimmed (t : str) : token t → trimmed t.
Proof.
  intros [Hne Ht]. destruct t as [|a t]; [done|].
  inversion Ht as [|? ? Ha Ht']; subst.
  destruct (decide (t = [])) as [->|Hn].
  - exists a, a, []. eauto.
  - destruct (exists_last Hn) as (m & b & ->).
    exists a, b, m. split; [done|]. split; [|by right].
    apply Forall_app in Ht' as [_ Hb]. by inversion Hb.
Qed.

Lemma join_trimmed (parts : list str) :
  parts ≠ [] → Forall token parts → trimmed (join (text " ") parts).
Proof.
  intros Hne Hall. induction Hall as [|p ps Hp Hps IH]; [done|].
  destruct ps as [|p' ps']; [by apply token_trimmed|].
  destruct (token_trimmed p Hp) as (a & b & m & Ha & Hb & E).
  destruct IH as (a' & b' & m' & Ha' & Hb' & E'); [done|].
  change (join (text " ") (p :: p' :: ps'))
    with (p ++ 32%N :: join (text " ") (p' :: ps')).
  destruct E as [->| ->], E' as [E'|E']; rewrite E'.
  - exists a, a', [32%N]. split_and!; [done..|]. by right.
  - exists a, b', (32%N :: a' :: m'). split_and!; [done..|]. by right.
  - exists a, a', (m ++ b :: [32%N]). split_and!; [done..|]. right.
    simpl. f_equal. by rewrite <- !app_assoc.
  - exists a, b', (m ++ b :: 32%N :: a' :: m'). split_and!; [done..|]. right.
    simpl. f_equal. rewrite <- !app_assoc. simpl. done.
Qed.

Lemma lstrip_cases (s : str) :
  lstrip s = [] ∨ ∃ c r, lstrip s = c :: r ∧ isspace c = false.
Proof.
  induction s as [|a s IH]; [by left|].
  simpl. destruct (isspace a) eqn:Ha; [done|]. right. eauto.
Qed.

Lemma lstrip_snoc_nonspace (l : str) (c : N) :
  isspace c = false → lstrip (l ++ [c]) = lstrip l ++ [c].
Proof.
  intros Hc. induction l as [|a l IH]; simpl.
  - by rewrite Hc.
  - by destruct (isspace a).
Qed.

Lemma rstrip_cons_nonspace (c : N) (r : str) :
  isspace c = false → rstrip (c :: r) = c :: rstrip r.
Proof.
  intros Hc. unfold rstrip.
  by rewrite reverse_cons, lstrip_snoc_nonspace, reverse_snoc.
Qed.

Lemma strip_cases (s : str) : strip s = [] ∨ trimmed (strip s).
Proof.
  unfold strip. destruct (lstrip_cases s) as [->|(c & r & -> & Hc)]; [by left|].
  right. rewrite rstrip_cons_nonspace by done. unfold rstrip.
  destruct (lstrip_cases (reverse r)) as [->|(b & y & -> & Hb)].
  - exists c, c, []. split_and!; [done..|]. by left.
  - exists c, b, (reverse y). split_and!; [done..|]. right.
    by rewrite reverse_cons.
Qed.

(** Stripping twice is stripping once. *)
Lemma strip_idempotent (s : str) : strip (strip s) = strip s.
Proof.
  destruct (strip_cases s) as [->|Ht]; [done|]. by apply strip_trimmed.
Qed.

(** ** Printing and parsing integers *)

Lemma isspace_printable (c : N) : (33 ≤ c ≤ 132)%N → isspace c = false.
Proof.
  intros [Hlo Hhi]. unfold isspace.
  assert ((c <=? 13)%N = false) as -> by (apply N.leb_gt; lia).
  assert ((c <=? 32)%N = false) as -> by (apply N.leb_gt; lia).
  assert ((8192 <=? c)%N = false) as -> by (apply N.leb_gt; lia).
  assert ((c =? 133)%N = false) as -> by (apply N.eqb_neq; lia).
  assert ((c =? 160)%N = false) as -> by (apply N.eqb_neq; lia).
  assert ((c =? 5760)%N = false) as -> by (apply N.eqb_neq; lia).
  assert ((c =? 8232)%N = false) as -> by (apply N.eqb_neq; lia).
  assert ((c =? 8233)%N = false) as -> by (apply N.eqb_neq; lia).
  assert ((c =? 8239)%N = false) as -> by (apply N.eqb_neq; lia).
  assert ((c =? 8287)%N = false) as -> by (apply N.eqb_neq; lia).
  assert ((c =? 12288)%N = false) as -> by (apply N.eqb_neq; lia).
  by rewrite !andb_false_r.
Qed.

Lemma digit_mod10 (n : N) : digit (48 + n mod 10).
Proof.
  unfold digit. pose proof (N.mod_upper_bound n 10 ltac:(lia)) as H.
  revert H. generalize (n mod 10)%N. lia.
Qed.

Lemma digits_of_digits (fuel : nat) (n : N) (acc : str) :
  Forall digit acc → Forall digit (digits_of fuel n acc).
Proof.
  revert n acc. induction fuel as [|f IH]; intros n acc Hacc; simpl.
  - constructor; [apply digit_mod10|done].
  - assert (Forall digit ((48 + n mod 10)%N :: acc)).
    { constructor; [apply digit_mod10|done]. }
    destruct (n <? 10)%N; [done|]. by apply IH.
Qed.

Lemma digits_of_nonempty (fuel : nat) (n : N) (acc : str) :
  digits_of fuel n acc ≠ [].
Proof.
  revert n acc. induction fuel as [|f IH]; intros n acc; simpl; [done|].
  destruct (n <? 10)%N; [done|]. apply IH.
Qed.

Lemma dec_val_cons_mod10 (n : N) (acc : str) (a : Z) :
  dec_val ((48 + n mod 10)%N :: acc) a
  = dec_val acc (a * 10 + Z.of_N (n mod 10)).
Proof.
  unfold dec_val. simpl. f_equal. generalize (n mod 10)%N. lia.
Qed.

Lemma digits_of_val (fuel : nat) (n : N) (acc : str) :
  (N.to_nat (N.log2 n) ≤ fuel)%nat →
  dec_val (digits_of fuel n acc) 0 = dec_val acc (Z.of_N n).
Proof.
  revert n acc. induction fuel as [|f IH]; intros n acc Hf; cbn [digits_of].
  - assert (N.log2 n = 0%N) as Hl by lia.
    assert (n < 2)%N as Hn.
    { destruct (decide (n = 0%N)) as [->|]; [lia|].
      pose proof (N.log2_spec n ltac:(lia)) as Hs. rewrite Hl in Hs.
      simpl in Hs. lia. }
    rewrite dec_val_cons_mod10, N.mod_small by lia. f_equal.
  - destruct (N.ltb_spec n 10) as [Hlt|Hge].
    + rewrite dec_val_cons_mod10, N.mod_small by lia. f_equal.
    + rewrite IH.
      * rewrite dec_val_cons_mod10. f_equal.
        pose proof (N.Div0.div_mod n 10) as Hdm. revert Hdm.
        generalize (n / 10)%N (n mod 10)%N. lia.
      * assert (N.log2 (n / 10) ≤ N.log2 (n / 2))%N as Hle.
        { apply N.log2_le_mono. apply N.div_le_compat_l. lia. }
        rewrite <- N.div2_div, N.div2_spec, N.log2_shiftr in Hle.
        revert Hle. generalize (N.log2 (n / 10)). 
        assert (1 ≤ N.log2 n)%N.
        { change 1%N with (N.log2 2). apply N.log2_le_mono. lia. }
        lia.
Qed.

Lemma str_of_N_digits (n : N) : Forall digit (str_of_N n).
Proof. by apply digits_of_digits. Qed.

Lemma str_of_N_val (n : N) : dec_val (str_of_N n) 0 = Z.of_N n.
Proof. unfold str_of_N. by rewrite digits_of_val. Qed.

Lemma digit_nonspace (c : N) : digit c → isspace c = false.
Proof. intros [? ?]. apply isspace_printable. lia. Qed.

(** [str(z)] is a single token. *)
Lemma py_str_token (z : Z) : token (py_str z).
Proof.
  unfold py_str. destruct (z <? 0).
  - split; [done|]. constructor; [done|].
    eapply Forall_impl; [apply str_of_N_digits|]. apply digit_nonspace.
  - split; [apply digits_of_nonempty|].
    eapply Forall_impl; [apply str_of_N_digits|]. apply digit_nonspace.
Qed.

Section int_facts.
Context `{!DecimalTable}.

Lemma int_digits_digits (ds : str) (a : Z) :
  Forall digit ds → int_digits a ds = Some (dec_val ds a).
Proof.
  intros Hds. revert a. induction Hds as [|c r Hc Hr IH]; intros a; [done|].
  simpl. assert ((c =? 95)%N = false) as ->.
  { apply N.eqb_neq. unfold digit in Hc. lia. }
  rewrite decimal_ascii by done. by rewrite IH.
Qed.

Lemma int_unsigned_digits (ds : str) :
  ds ≠ [] → Forall digit ds → int_unsigned ds = Some (dec_val ds 0).
Proof.
  intros Hne Hds. destruct Hds as [|c r Hc Hr]; [done|].
  simpl. rewrite decimal_ascii by done.
  by rewrite int_digits_digits.
Qed.

(** Parsing what [str] printed gives the integer back. *)
Lemma py_int_py_str (z : Z) : py_int (py_str z) = Some z.
Proof.
  unfold py_str. destruct (Z.ltb_spec z 0) as [Hneg|Hpos].
  - simpl. rewrite int_unsigned_digits
      by (apply digits_of_nonempty || apply str_of_N_digits).
    rewrite str_of_N_val. simpl. f_equal. lia.
  - pose proof (str_of_N_digits (Z.to_N z)) as Hd.
    pose proof (digits_of_nonempty (N.to_nat (N.log2 (Z.to_N z))) (Z.to_N z) [])
      as Hne.
    fold (str_of_N (Z.to_N z)) in Hne.
    destruct (str_of_N (Z.to_N z)) as [|c r] eqn:E; [done|].
    unfold py_int.
    assert (digit c) as Hc by by inversion Hd.
    assert ((c =? 43)%N = false) as -> by (apply N.eqb_neq; unfold digit in Hc; lia).
    assert ((c =? 45)%N = false) as -> by (apply N.eqb_neq; unfold digit in Hc; lia).
    rewrite int_unsigned_digits by done.
    rewrite <- E, str_of_N_val. f_equal. lia.
Qed.

End int_facts.

(** ** Insertion-ordered dictionaries *)

Section dict_facts.
Context {K V : Type} `{EqDecision K}.
Implicit Types (d : list (K * V)) (k : K) (v : V).

Lemma dict_get_set_eq d k v : dict_get (dict_set d k v) k = Some v.
Proof.
  induction d as [|[k' v'] r IH]; simpl.
  - by rewrite decide_True.
  - destruct (decide (k = k')) as [->|Hne]; simpl.
    + by rewrite decide_True.
    + by rewrite decide_False.
Qed.

Lemma dict_get_set_ne d k k' v :
  k ≠ k' → dict_get (dict_set d k v) k' = dict_get d k'.
Proof.
  intros Hne. induction d as [|[k0 v0] r IH]; simpl.
  - by rewrite decide_False.
  - destruct (decide (k = k0)) as [->|Hne0]; simpl.
    + by rewrite !decide_False.
    + by rewrite IH.
Qed.

Lemma dict_keys_set d k v k' :
  k' ∈ dict_keys (dict_set d k v) ↔ k' = k ∨ k' ∈ dict_keys d.
Proof.
  unfold dict_keys. induction d as [|[k0 v0] r IH]; simpl.
  - rewrite list_elem_of_singleton. split; [by left|].
    intros [?|Hin]; [done|]. by apply elem_of_nil in Hin.
  - destruct (decide (k = k0)) as [->|Hne]; simpl; rewrite !elem_of_cons.
    + split; [tauto|]. intros [->|?]; [by left|done].
    + rewrite IH. tauto.
Qed.

Lemma dict_set_NoDup d k v :
  NoDup (dict_keys d) → NoDup (dict_keys (dict_set d k v)).
Proof.
  unfold dict_keys. induction d as [|[k0 v0] r IH]; simpl; intros Hnd.
  - apply NoDup_singleton.
  - apply NoDup_cons in Hnd as [Hfresh Hnd].
    destruct (decide (k = k0)) as [->|Hne]; simpl.
    + by apply NoDup_cons.
    + apply NoDup_cons. split; [|by apply IH].
      intros Hin. apply (dict_keys_set r k v k0) in Hin as [?|?]; done.
Qed.

Lemma dict_get_Some_elem d k v : dict_get d k = Some v → (k, v) ∈ d.
Proof.
  induction d as [|[k0 v0] r IH]; simpl; [done|].
  destruct (decide (k = k0)) as [->|Hne].
  - intros [= ->]. by left.
  - intros ?. right. by apply IH.
Qed.

Lemma dict_get_None d k : dict_get d k = None ↔ k ∉ dict_keys d.
Proof.
  unfold dict_keys. induction d as [|[k0 v0] r IH]; simpl.
  - split; [|done]. intros _ Hin. by apply elem_of_nil in Hin.
  - rewrite not_elem_of_cons. destruct (decide (k = k0)) as [->|Hne].
    + split; [done|]. by intros [? _].
    + rewrite IH. tauto.
Qed.

Lemma dict_get_NoDup d k v :
  NoDup (dict_keys d) → (k, v) ∈ d → dict_get d k = Some v.
Proof.
  unfold dict_keys. induction d as [|[k0 v0] r IH]; simpl; intros Hnd Hin.
  - by apply elem_of_nil in Hin.
  - apply NoDup_cons in Hnd as [Hfresh Hnd].
    apply elem_of_cons in Hin as [[= -> ->]|Hin].
    + by rewrite decide_True.
    + rewrite decide_False; [by apply IH|].
      intros ->. apply Hfresh. apply list_elem_of_fmap. by exists (k0, v).
Qed.

(** After [d[k] = v], an entry is the new one or an old one under
    another key. *)
Lemma dict_set_elem d k v k' v' :
  NoDup (dict_keys d) →
  (k', v') ∈ dict_set d k v →
  (k' = k ∧ v' = v) ∨ (k' ≠ k ∧ (k', v') ∈ d).
Proof.
  intros Hnd Hin.
  apply dict_get_NoDup in Hin; [|by apply dict_set_NoDup].
  destruct (decide (k' = k)) as [->|Hne].
  - rewrite dict_get_set_eq in Hin. left. by inversion Hin.
  - rewrite dict_get_set_ne in Hin by done. right. split; [done|].
    by apply dict_get_Some_elem.
Qed.

Lemma dict_get_value d k v : dict_get d k = Some v → v ∈ dict_values d.
Proof.
  intros Hg. apply dict_get_Some_elem in Hg.
  unfold dict_values. apply list_elem_of_fmap. by exists (k, v).
Qed.

End dict_facts.
(** ** Running the monad *)

Ltac run_M :=
  unfold mbind, M_bind, mret, M_ret, raise, read_file, write_file, log,
    path_exists, json_load, yaml_load, read_text in *; simpl in *.

(** C10. A document without a [categories] key yields the all-zero
    statistics and the world, in particular the file, is left exactly as
    it was, whatever [dry_run] is. *)
Theorem no_categories_key_untouched (annotation_file : path)
    (standard_categories : list (str * Category)) (dry_run : bool)
    (w : world) (data : Document) :
  fs w !! annotation_file = Some (JsonFile data) →
  categories data = None →
  normalize_annotation_file annotation_file standard_categories dry_run w
  = (Ok (zero_stats annotation_file), w).
Proof.
  intros Hf Hc. unfold normalize_annotation_file. run_M.
  rewrite Hf. simpl. by rewrite Hc.
Qed.

(** ** Preview mode *)



Section label_file_facts.
Context `{!DecimalTable}.

(** What [normalize_label_file] does to an existing text file. *)
Lemma normalize_label_file_text (label_path : path) (id_mapping : gmap Z Z)
    (damage_class_ids : list Z) (dry_run : bool) (w : world) (content : str) :
  fs w !! label_path = Some (TextFile content) →
  normalize_label_file label_path id_mapping damage_class_ids dry_run w
  = let '(new_lines, num_remapped, num_removed) :=
      normalize_lines id_mapping damage_class_ids (readlines content) in
    (Ok (num_remapped, num_removed),
     if dry_run then w
     else {| fs := <[label_path := TextFile (written_text new_lines)]> (fs w);
             logged := logged w |}).
Proof.
  intros Hf. unfold normalize_label_file, mbind, M_bind, path_exists.
  rewrite bool_decide_true by eauto. cbn [negb].
  unfold try_except, read_file, read_text. rewrite Hf.
  cbn [mret M_ret].
  destruct (normalize_lines _ _ _) as [[new_lines r] rm].
  by destruct dry_run.
Qed.

Lemma normalize_label_file_missing (label_path : path) (id_mapping : gmap Z Z)
    (damage_class_ids : list Z) (dry_run : bool) (w : world) :
  fs w !! label_path = None →
  normalize_label_file label_path id_mapping damage_class_ids dry_run w
  = (Ok (O, O), w).
Proof.
  intros Hf. unfold normalize_label_file, mbind, M_bind, path_exists.
  rewrite Hf. rewrite bool_decide_false; [done|]. by intros [? ?].
Qed.

(** What it does to a file given by its bytes: the bytes are decoded as
    UTF-8, or as latin-1, with a warning, when that fails; what is
    written back is text. *)
Lemma normalize_label_file_raw (label_path : path) (id_mapping : gmap Z Z)
    (damage_class_ids : list Z) (dry_run : bool) (w : world)
    (bytes : list Byte.byte) :
  fs w !! label_path = Some (RawFile bytes) →
  normalize_label_file label_path id_mapping damage_class_ids dry_run w
  = let content := default (decode_latin1 (Byte.to_N <$> bytes))
                           (decode_utf8 (Byte.to_N <$> bytes)) in
    let '(new_lines, num_remapped, num_removed) :=
      normalize_lines id_mapping damage_class_ids (readlines content) in
    (Ok (num_remapped, num_removed),
     {| fs := if dry_run then fs w
              else <[label_path := TextFile (written_text new_lines)]> (fs w);
        logged := logged w ++ fallback_warning label_path (RawFile bytes) |}).
Proof.
  intros Hf. unfold normalize_label_file, mbind, M_bind, path_exists.
  rewrite bool_decide_true by eauto. cbn [negb].
  unfold try_except, read_file, read_text, log, fallback_warning.
  rewrite Hf.
  destruct (decode_utf8 (Byte.to_N <$> bytes)) as [s|] eqn:Hd;
    cbn [mret M_ret raise default from_option id fs logged].
  - destruct (normalize_lines _ _ (readlines s)) as [[new_lines r] rm].
    rewrite app_nil_r. destruct dry_run; [by destruct w|reflexivity].
  - rewrite decide_True by done. cbn [fs]. rewrite Hf.
    cbn [mret M_ret].
    destruct (normalize_lines _ _ _) as [[new_lines r] rm].
    by destruct dry_run.
Qed.

Lemma normalize_label_file_cases (label_path : path) (id_mapping : gmap Z Z)
    (damage_class_ids : list Z) (dry_run : bool) (w : world) :
  normalize_label_file label_path id_mapping damage_class_ids dry_run w
  = (label_file_result id_mapping damage_class_ids (fs w !! label_path),
     label_file_effect id_mapping damage_class_ids dry_run label_path w).
Proof.
  unfold label_file_result, label_file_effect.
  destruct (fs w !! label_path) as [[content|doc|m|cs|bytes]|] eqn:Hf.
  - rewrite (normalize_label_file_text _ _ _ _ _ _ Hf). cbn [label_text].
    by destruct (normalize_lines _ _ _) as [[nl r] rm].
  - unfold normalize_label_file, try_except. run_M.
    rewrite bool_decide_true by eauto. simpl. by rewrite Hf.
  - unfold normalize_label_file, try_except. run_M.
    rewrite bool_decide_true by eauto. simpl. by rewrite Hf.
  - unfold normalize_label_file, try_except. run_M.
    rewrite bool_decide_true by eauto. simpl. by rewrite Hf.
  - rewrite (normalize_label_file_raw _ _ _ _ _ _ Hf). cbn [label_text].
    cbn zeta. by destruct (normalize_lines _ _ _) as [[nl r] rm].
  - by apply normalize_label_file_missing.
Qed.

(** Both cases at once, through the text the file decodes to. *)
Lemma normalize_label_file_decoded (label_path : path)
    (id_mapping : gmap Z Z) (damage_class_ids : list Z) (dry_run : bool)
    (w : world) (c : file_content) (content : str) :
  fs w !! label_path = Some c →
  label_text c = Some content →
  normalize_label_file label_path id_mapping damage_class_ids dry_run w
  = let '(new_lines, num_remapped, num_removed) :=
      normalize_lines id_mapping damage_class_ids (readlines content) in
    (Ok (num_remapped, num_removed),
     {| fs := if dry_run then fs w
              else <[label_path := TextFile (written_text new_lines)]> (fs w);
        logged := logged w ++ fallback_warning label_path c |}).
Proof.
  intros Hf Ht. destruct c as [s|doc|m|cs|bytes]; try done.
  - injection Ht as <-. rewrite (normalize_label_file_text _ _ _ _ _ _ Hf).
    destruct (normalize_lines _ _ _) as [[new_lines r] rm].
    cbn [fallback_warning]. rewrite app_nil_r.
    destruct dry_run; [by destruct w|done].
  - injection Ht as <-. by rewrite (normalize_label_file_raw _ _ _ _ _ _ Hf).
Qed.


(** The text written back is the lines, each followed by a line feed. *)
Lemma written_text_lines (new_lines : list str) :
  written_text new_lines = mjoin ((λ l, l ++ [10%N]) <$> new_lines).
Proof.
  unfold written_text. induction new_lines as [|l [|l' ls] IH]; simpl.
  - done.
  - by rewrite app_nil_r.
  - simpl in IH. rewrite <- IH. by rewrite <- !app_assoc.
Qed.

End label_file_facts.


(** ** The loop over the lines of a label file *)

Section label_lines.
Context `{!DecimalTable}.

Lemma strip_nil_split (s : str) : strip s = [] → split s = [].
Proof. intros E. by rewrite <- split_strip, E. Qed.

Lemma label_step_outcome (id_mapping : gmap Z Z) (damage_class_ids : list Z)
    (new_lines : list str) (num_remapped num_removed : nat) (line : str) :
  label_step id_mapping damage_class_ids
             (new_lines, num_remapped, num_removed) line
  = let o := line_outcome id_mapping damage_class_ids line in
    (new_lines ++ emitted o, (num_remapped + remapped o)%nat,
     (num_removed + removed o)%nat).
Proof.
  unfold label_step, line_outcome.
  destruct (strip line) as [|c l] eqn:E.
  { rewrite (strip_nil_split _ E). simpl.
    by rewrite app_nil_r, !Nat.add_0_r. }
  rewrite <- E, split_strip.
  destruct (split line) as [|tok [|g gs]]; simpl;
    try by rewrite app_nil_r, !Nat.add_0_r.
  destruct (py_int tok) as [k|]; simpl;
    [|by rewrite app_nil_r, !Nat.add_0_r].
  case_bool_decide; simpl.
  { by rewrite app_nil_r, Nat.add_0_r, Nat.add_1_r. }
  destruct (id_mapping !! k); simpl.
  - by rewrite Nat.add_0_r, Nat.add_1_r.
  - by rewrite !Nat.add_0_r.
Qed.

Lemma fold_label_step (id_mapping : gmap Z Z) (damage_class_ids : list Z)
    (lines : list str) (new_lines : list str) (r rm : nat) :
  fold_left (label_step id_mapping damage_class_ids) lines (new_lines, r, rm)
  = let os := line_outcome id_mapping damage_class_ids <$> lines in
    (new_lines ++ mjoin (emitted <$> os),
     (r + sum_list_with remapped os)%nat,
     (rm + sum_list_with removed os)%nat).
Proof.
  revert new_lines r rm. induction lines as [|line lines IH];
    intros new_lines r rm.
  - simpl. by rewrite app_nil_r, !Nat.add_0_r.
  - cbn [fold_left]. rewrite label_step_outcome. cbn zeta. rewrite IH.
    rewrite fmap_cons. simpl.
    by rewrite <- app_assoc, <- !Nat.add_assoc.
Qed.

(** The whole loop: the lines written are the emitted ones, in order, and
    the two counters count the remapped and the removed lines. *)
Lemma normalize_lines_outcomes (id_mapping : gmap Z Z)
    (damage_class_ids : list Z) (lines : list str) :
  normalize_lines id_mapping damage_class_ids lines
  = let os := line_outcome id_mapping damage_class_ids <$> lines in
    (mjoin (emitted <$> os), sum_list_with remapped os,
     sum_list_with removed os).
Proof. unfold normalize_lines. by rewrite fold_label_step. Qed.

Lemma normalize_lines_emits (id_mapping : gmap Z Z)
    (damage_class_ids : list Z) (lines : list str) (line out : str) :
  line ∈ lines →
  out ∈ emitted (line_outcome id_mapping damage_class_ids line) →
  out ∈ (normalize_lines id_mapping damage_class_ids lines).1.1.
Proof.
  intros Hline Hout. rewrite normalize_lines_outcomes. cbn [fst].
  apply list_elem_of_join. eexists. split; [exact Hout|].
  apply list_elem_of_fmap. eexists. split; [reflexivity|].
  apply list_elem_of_fmap. eauto.
Qed.

Lemma normalize_lines_skip (id_mapping : gmap Z Z) (damage_class_ids : list Z)
    (before after : list str) (line : str) :
  line_outcome id_mapping damage_class_ids line = Skipped →
  normalize_lines id_mapping damage_class_ids (before ++ line :: after)
  = normalize_lines id_mapping damage_class_ids (before ++ after).
Proof.
  intros Ho. rewrite !normalize_lines_outcomes. cbn zeta.
  repeat (rewrite fmap_app || rewrite fmap_cons). rewrite Ho.
  by rewrite !join_app, !sum_list_with_app.
Qed.

Lemma malformed_skipped (id_mapping : gmap Z Z) (damage_class_ids : list Z)
    (line : str) :
  malformed line → line_outcome id_mapping damage_class_ids line = Skipped.
Proof.
  unfold malformed, line_outcome.
  destruct (split line) as [|tok [|g gs]]; simpl; intros [Hl|Hp];
    try done; try lia.
  by rewrite Hp.
Qed.

(** C8. A malformed line is dropped: the loop leaves its state as it is,
    so the lines written and both counters are those of the file without
    that line, and the run over a text file containing it returns
    normally. *)
Theorem malformed_line_dropped (id_mapping : gmap Z Z)
    (damage_class_ids : list Z) (line : str) :
  malformed line →
  (∀ st, label_step id_mapping damage_class_ids st line = st) ∧
  (∀ before after,
     normalize_lines id_mapping damage_class_ids (before ++ line :: after)
     = normalize_lines id_mapping damage_class_ids (before ++ after)) ∧
  (∀ label_path dry_run w content,
     fs w !! label_path = Some (TextFile content) →
     line ∈ readlines content →
     ∃ stats w',
       normalize_label_file label_path id_mapping damage_class_ids dry_run w
       = (Ok stats, w')).
Proof.
  intros Hm. pose proof (malformed_skipped id_mapping damage_class_ids _ Hm) as Ho.
  split_and!.
  - intros [[nl r] rm]. rewrite label_step_outcome, Ho. simpl.
    by rewrite app_nil_r, !Nat.add_0_r.
  - intros. by apply normalize_lines_skip.
  - intros p dry w content Hf _.
    rewrite (normalize_label_file_text _ _ _ _ _ _ Hf).
    destruct (normalize_lines _ _ _) as [[nl r] rm]. eauto.
Qed.

End label_lines.

Section label_line_claims.
Context `{!DecimalTable}.

Lemma line_outcome_remapped (id_mapping : gmap Z Z) (damage_class_ids : list Z)
    (line tok g : str) (gs : list str) (old_class_id new_class_id : Z) :
  split line = tok :: g :: gs →
  py_int tok = Some old_class_id →
  old_class_id ∉ damage_class_ids →
  id_mapping !! old_class_id = Some new_class_id →
  line_outcome id_mapping damage_class_ids line
  = Remapped (join (text " ") (py_str new_class_id :: g :: gs)).
Proof.
  intros Hs Hp Hd Hm. unfold line_outcome. rewrite Hs, Hp.
  rewrite bool_decide_false by done. by rewrite Hm.
Qed.

Lemma line_outcome_kept (id_mapping : gmap Z Z) (damage_class_ids : list Z)
    (line tok g : str) (gs : list str) (old_class_id : Z) :
  split line = tok :: g :: gs →
  py_int tok = Some old_class_id →
  old_class_id ∉ damage_class_ids →
  id_mapping !! old_class_id = None →
  line_outcome id_mapping damage_class_ids line = Kept (strip line).
Proof.
  intros Hs Hp Hd Hm. unfold line_outcome. rewrite Hs, Hp.
  rewrite bool_decide_false by done. by rewrite Hm.
Qed.

Lemma line_outcome_damage (id_mapping : gmap Z Z) (damage_class_ids : list Z)
    (line tok : str) (rest : list str) (old_class_id : Z) :
  split line = tok :: rest →
  py_int tok = Some old_class_id →
  old_class_id ∈ damage_class_ids →
  line_outcome id_mapping damage_class_ids line
  = match rest with [] => Skipped | _ => Removed end.
Proof.
  intros Hs Hp Hd. unfold line_outcome. rewrite Hs.
  destruct rest; [done|]. rewrite Hp. by rewrite bool_decide_true.
Qed.

Lemma step_of_outcome (id_mapping : gmap Z Z) (damage_class_ids : list Z)
    (line : str) (o : outcome) (new_lines : list str) (r rm : nat) :
  line_outcome id_mapping damage_class_ids line = o →
  label_step id_mapping damage_class_ids (new_lines, r, rm) line
  = (new_lines ++ emitted o, (r + remapped o)%nat, (rm + removed o)%nat).
Proof. intros <-. apply label_step_outcome. Qed.

(** C3, amended. A line with at least two tokens whose first token is an
    integer in the remap table, and not a damage ID, is written back as
    the canonical ID followed by the same geometry tokens, and counted as
    remapped. *)
Theorem remapped_line_rewritten (id_mapping : gmap Z Z)
    (damage_class_ids : list Z) (line tok g : str) (gs : list str)
    (old_class_id new_class_id : Z) :
  split line = tok :: g :: gs →
  py_int tok = Some old_class_id →
  old_class_id ∉ damage_class_ids →
  id_mapping !! old_class_id = Some new_class_id →
  let out := join (text " ") (py_str new_class_id :: g :: gs) in
  (∀ new_lines r rm,
     label_step id_mapping damage_class_ids (new_lines, r, rm) line
     = (new_lines ++ [out], S r, rm)) ∧
  normalize_lines id_mapping damage_class_ids [line] = ([out], 1%nat, O) ∧
  split out = py_str new_class_id :: g :: gs.
Proof.
  intros Hs Hp Hd Hm out.
  pose proof (line_outcome_remapped _ _ _ _ _ _ _ _ Hs Hp Hd Hm) as Ho.
  split_and!.
  - intros nl r rm. rewrite (step_of_outcome _ _ _ _ _ _ _ Ho).
    cbn [emitted remapped removed].
    by rewrite Nat.add_1_r, Nat.add_0_r.
  - unfold normalize_lines. cbn [fold_left].
    by rewrite (step_of_outcome _ _ _ _ _ _ _ Ho).
  - apply split_join. constructor; [apply py_str_token|].
    pose proof (split_tokens line) as Ht. rewrite Hs in Ht.
    by inversion Ht.
Qed.

(** C6, amended. A line with at least two tokens whose first token is an
    integer that is neither a damage ID nor in the remap table is written
    back as its decoded text with the surrounding whitespace stripped
    and nothing else changed, and is counted in neither statistic. The
    text is what the file decodes to as UTF-8, or as latin-1, with a
    warning, when the file is not valid UTF-8; what is written is text,
    that is UTF-8. *)
Theorem unmapped_line_kept_stripped (id_mapping : gmap Z Z)
    (damage_class_ids : list Z) (line tok g : str) (gs : list str)
    (old_class_id : Z) :
  split line = tok :: g :: gs →
  py_int tok = Some old_class_id →
  old_class_id ∉ damage_class_ids →
  id_mapping !! old_class_id = None →
  (∀ new_lines r rm,
     label_step id_mapping damage_class_ids (new_lines, r, rm) line
     = (new_lines ++ [strip line], r, rm)) ∧
  normalize_lines id_mapping damage_class_ids [line] = ([strip line], O, O) ∧
  (∀ body, trimmed body → line = body ∨ line = body ++ [10%N] →
           strip line = body) ∧
  (∀ (label_path : path) (w : world) (c : file_content) (content : str),
     fs w !! label_path = Some c →
     label_text c = Some content →
     line ∈ readlines content →
     ∃ new_lines counts,
       normalize_label_file label_path id_mapping damage_class_ids false w
       = (Ok counts,
          {| fs := <[label_path := TextFile (written_text new_lines)]> (fs w);
             logged := logged w ++ fallback_warning label_path c |}) ∧
       strip line ∈ new_lines).
Proof.
  intros Hs Hp Hd Hm.
  pose proof (line_outcome_kept _ _ _ _ _ _ _ Hs Hp Hd Hm) as Ho.
  split_and!.
  - intros nl r rm. rewrite (step_of_outcome _ _ _ _ _ _ _ Ho). simpl.
    by rewrite !Nat.add_0_r.
  - unfold normalize_lines. cbn [fold_left].
    by rewrite (step_of_outcome _ _ _ _ _ _ _ Ho).
  - intros body Hb [->| ->].
    + by apply strip_trimmed.
    + by apply strip_trimmed_newline.
  - intros p w c content Hf Ht Hline.
    rewrite (normalize_label_file_decoded _ _ _ _ _ _ _ Hf Ht).
    pose proof (normalize_lines_emits id_mapping damage_class_ids
                  (readlines content) line (strip line) Hline) as Hin.
    rewrite Ho in Hin. specialize (Hin ltac:(by left)).
    destruct (normalize_lines _ _ _) as [[new_lines r] rm].
    by exists new_lines, (r, rm).
Qed.

(** A line whose first token is a damage ID never reaches the output and
    is never counted as remapped, whatever the remap table holds. *)
Lemma damage_line_dropped (id_mapping : gmap Z Z) (damage_class_ids : list Z)
    (line tok : str) (rest : list str) (old_class_id : Z)
    (new_lines : list str) (r rm : nat) :
  split line = tok :: rest →
  py_int tok = Some old_class_id →
  old_class_id ∈ damage_class_ids →
  ∃ rm', label_step id_mapping damage_class_ids (new_lines, r, rm) line
         = (new_lines, r, rm').
Proof.
  intros Hs Hp Hd.
  rewrite (step_of_outcome _ _ _ _ _ _ _
             (line_outcome_damage id_mapping _ _ _ _ _ Hs Hp Hd)).
  destruct rest; simpl; rewrite app_nil_r, Nat.add_0_r; eauto.
Qed.

(** The round trip of the specification, for any digit table. *)
Example round_trip_3_to_7 :
  normalize_lines {[3 := 7]} [] [text "3 0.1 0.2 0.3 0.4"]
  = ([text "7 0.1 0.2 0.3 0.4"], 1%nat, O).
Proof.
  unfold normalize_lines. cbn [fold_left].
  erewrite step_of_outcome.
  2:{ apply (line_outcome_remapped _ _ _ (py_str 3) (text "0.1")
               [text "0.2"; text "0.3"; text "0.4"] 3 7).
      - by vm_compute.
      - apply py_int_py_str.
      - by apply not_elem_of_nil.
      - done. }
  by vm_compute.
Qed.

End label_line_claims.

Lemma remapped_line_rewritten_witness :
  let out := join (text " ")
                  (py_str 7 :: text "0.1"
                     :: [text "0.2"; text "0.3"; text "0.4"]) in
  (∀ new_lines r rm,
     @label_step ascii_table {[3 := 7]} [4] (new_lines, r, rm)
                 (text "3 0.1 0.2 0.3 0.4")
     = (new_lines ++ [out], S r, rm)) ∧
  @normalize_lines ascii_table {[3 := 7]} [4] [text "3 0.1 0.2 0.3 0.4"]
  = ([out], 1%nat, O) ∧
  split out = py_str 7 :: text "0.1" :: [text "0.2"; text "0.3"; text "0.4"].
Proof.
  apply (@remapped_line_rewritten ascii_table {[3 := 7]} [4]
           (text "3 0.1 0.2 0.3 0.4") (text "3") (text "0.1")
           [text "0.2"; text "0.3"; text "0.4"] 3 7).
  - vm_compute. reflexivity.
  - vm_compute. reflexivity.
  - vm_compute. intros H. inversion H as [|? ? ? H']; subst. inversion H'.
  - vm_compute. reflexivity.
Defined.

(** C3 as stated fails on a line that has the class ID and nothing else:
    the ID is in the remap table, yet the line is dropped, not rewritten. *)
Lemma lone_class_id_not_rewritten :
  split (text "3") = [text "3"] ∧
  @py_int ascii_table (text "3") = Some 3 ∧
  ({[3 := 7]} : gmap Z Z) !! 3 = Some 7 ∧
  @normalize_lines ascii_table {[3 := 7]} [] [text "3"] = ([], O, O).
Proof. vm_compute. done. Qed.

Lemma unmapped_line_kept_stripped_witness :
  (∀ new_lines r rm,
     @label_step ascii_table {[3 := 7]} [4] (new_lines, r, rm)
                 (text " 5 0.1 0.2")
     = (new_lines ++ [strip (text " 5 0.1 0.2")], r, rm)) ∧
  @normalize_lines ascii_table {[3 := 7]} [4] [text " 5 0.1 0.2"]
  = ([strip (text " 5 0.1 0.2")], O, O) ∧
  (∀ body, trimmed body →
           text " 5 0.1 0.2" = body ∨ text " 5 0.1 0.2" = body ++ [10%N] →
           strip (text " 5 0.1 0.2") = body) ∧
  (∀ (label_path : path) (w : world) (c : file_content) (content : str),
     fs w !! label_path = Some c →
     label_text c = Some content →
     text " 5 0.1 0.2" ∈ readlines content →
     ∃ new_lines counts,
       @normalize_label_file ascii_table label_path {[3 := 7]} [4] false w
       = (Ok counts,
          {| fs := <[label_path := TextFile (written_text new_lines)]> (fs w);
             logged := logged w ++ fallback_warning label_path c |}) ∧
       strip (text " 5 0.1 0.2") ∈ new_lines).
Proof.
  apply (@unmapped_line_kept_stripped ascii_table {[3 := 7]} [4]
           (text " 5 0.1 0.2") (text "5") (text "0.1") [text "0.2"] 5).
  - vm_compute. reflexivity.
  - vm_compute. reflexivity.
  - vm_compute. intros H. inversion H as [|? ? ? H']; subst. inversion H'.
  - vm_compute. reflexivity.
Defined.

(** C6 as stated fails in two ways. On a line with leading whitespace:
    its ID is neither a damage ID nor in the remap table, and the line
    written back differs from the line read. And on a file that is not
    valid UTF-8: the line [9 \xff 1], whose ID 9 is in neither table and
    which has no surrounding whitespace, is read as latin-1 and written
    back in UTF-8, where the byte [\xff] has become [\xc3 \xbf]. *)
Lemma unmapped_line_not_bytewise :
  (@py_int ascii_table (hd [] (split (text " 5 0.1 0.2"))) = Some 5 ∧
   ({[3 := 7]} : gmap Z Z) !! 5 = None ∧
   (5 ∉ [4]) ∧
   @normalize_lines ascii_table {[3 := 7]} [4]
                    (readlines (text " 5 0.1 0.2" ++ [10%N]))
   = ([text "5 0.1 0.2"], O, O) ∧
   written_text [text "5 0.1 0.2"] ≠ text " 5 0.1 0.2" ++ [10%N]) ∧
  (let run := @normalize_label_file ascii_table label_txt {[3 := 7]} [4]
                                    false latin1_world in
   (fs latin1_world !! label_txt) ≫= text_bytes
   = Some [57; 32; 255; 32; 49; 10]%N ∧
   decode_utf8 [57; 32; 255; 32; 49; 10]%N = None ∧
   @py_int ascii_table (hd [] (split [57; 32; 255; 32; 49; 10]%N)) = Some 9 ∧
   ({[3 := 7]} : gmap Z Z) !! 9 = None ∧
   (9 ∉ [4]) ∧
   run.1 = Ok (O, O) ∧
   logged run.2 = [TryingLatin1 label_txt] ∧
   (fs run.2 !! label_txt) ≫= text_bytes
   = Some [57; 32; 195; 191; 32; 49; 10]%N).
Proof.
  split; [split_and!; try (vm_compute; reflexivity)|].
  - intros H. inversion H as [|? ? ? H']; subst. inversion H'.
  - vm_compute. discriminate.
  - cbn zeta. split_and!; try (vm_compute; reflexivity).
    intros H. inversion H as [|? ? ? H']; subst. inversion H'.
Qed.

Lemma malformed_line_dropped_witness :
  @malformed ascii_table (text "x 0.1 0.2") ∧
  (∀ st, @label_step ascii_table {[3 := 7]} [4] st (text "x 0.1 0.2") = st).
Proof.
  assert (@malformed ascii_table (text "x 0.1 0.2")) as Hm.
  { right. vm_compute. reflexivity. }
  split; [exact Hm|].
  apply (@malformed_line_dropped ascii_table {[3 := 7]} [4] _ Hm).
Defined.

(** ** Building the remap table of a dataset *)

Lemma classify_names_spec (dataset : str) (reference_mapping : list (str * Z))
    (items : list (Z * str)) (id_mapping : gmap Z Z)
    (damage_class_ids : list Z) (w : world) :
  NoDup items.*1 →
  ∃ id_mapping' damage_class_ids' ds,
    classify_names dataset reference_mapping items id_mapping
                   damage_class_ids w
    = (Ok (id_mapping', damage_class_ids'),
       {| fs := fs w; logged := logged w ++ ds |}) ∧
    (∀ k, k ∉ items.*1 → id_mapping' !! k = id_mapping !! k) ∧
    (∀ k, k ∈ damage_class_ids' ↔
          k ∈ damage_class_ids ∨
          ∃ class_name, (k, class_name) ∈ items ∧
                        strip class_name ∈ DAMAGE_CLASSES) ∧
    (∀ k class_name, (k, class_name) ∈ items →
       if bool_decide (strip class_name ∈ DAMAGE_CLASSES)
       then id_mapping' !! k = id_mapping !! k
       else match dict_get reference_mapping (strip class_name) with
            | Some new_id => id_mapping' !! k = Some new_id
            | None => id_mapping' !! k = id_mapping !! k ∧
                      ClassNotInReference class_name k dataset ∈ ds
            end).
Proof.
  revert id_mapping damage_class_ids w.
  induction items as [|[old_id class_name] rest IH];
    intros id_mapping damage_class_ids w Hnd.
  { exists id_mapping, damage_class_ids, []. simpl. split_and!.
    - unfold mret, M_ret. rewrite app_nil_r. by destruct w.
    - done.
    - intros k. split; [by left|]. intros [?|(? & Hin & _)]; [done|].
      by apply elem_of_nil in Hin.
    - intros k cn Hin. by apply elem_of_nil in Hin. }
  rewrite fmap_cons in Hnd. apply NoDup_cons in Hnd as [Hfresh Hnd].
  cbn [classify_names].
  destruct (bool_decide (strip class_name ∈ DAMAGE_CLASSES)) eqn:Hdmg.
  - destruct (IH id_mapping (damage_class_ids ++ [old_id]) w Hnd)
      as (m' & d' & ds & Hrun & Hout & Hd & Hin).
    exists m', d', ds. split_and!; [done|..].
    + intros k Hk. rewrite fmap_cons in Hk.
      apply not_elem_of_cons in Hk as [_ Hk]. by apply Hout.
    + intros k. rewrite Hd. apply bool_decide_eq_true in Hdmg.
      rewrite elem_of_app, list_elem_of_singleton. split.
      * intros [[?| ->]|(cn & ? & ?)]; [by left|right..].
        -- exists class_name. split; [by left|done].
        -- exists cn. split; [by right|done].
      * intros [?|(cn & Hcn & ?)]; [by left; left|].
        apply elem_of_cons in Hcn as [[= -> ->]|?]; [left; by right|].
        right. by exists cn.
    + intros k cn Hkin. apply elem_of_cons in Hkin as [[= -> ->]|Hkin].
      * rewrite Hdmg. apply Hout. done.
      * by apply Hin.
  - destruct (dict_get reference_mapping (strip class_name)) as [new_id|] eqn:Hg.
    + destruct (IH (<[old_id := new_id]> id_mapping) damage_class_ids w Hnd)
        as (m' & d' & ds & Hrun & Hout & Hd & Hin).
      exists m', d', ds. split_and!; [done|..].
      * intros k Hk. rewrite fmap_cons in Hk.
        apply not_elem_of_cons in Hk as [Hne Hk]. cbn [fst] in Hne.
        rewrite Hout by done. by apply lookup_insert_ne.
      * intros k. rewrite Hd. apply bool_decide_eq_false in Hdmg. split.
        -- intros [?|(cn & ? & ?)]; [by left|right].
           exists cn. split; [by right|done].
        -- intros [?|(cn & Hcn & ?)]; [by left|].
           apply elem_of_cons in Hcn as [[= -> ->]|?]; [done|].
           right. by exists cn.
      * intros k cn Hkin. apply elem_of_cons in Hkin as [[= -> ->]|Hkin].
        -- rewrite Hdmg, Hg, Hout by done. apply lookup_insert_eq.
        -- specialize (Hin k cn Hkin).
           assert (k ≠ old_id) as Hne.
           { intros ->. apply Hfresh. apply list_elem_of_fmap.
             by exists (old_id, cn). }
           destruct (bool_decide (strip cn ∈ DAMAGE_CLASSES)).
           ++ rewrite Hin. by apply lookup_insert_ne.
           ++ destruct (dict_get reference_mapping (strip cn)); [done|].
              destruct Hin as [-> ?]. split; [|done].
              by apply lookup_insert_ne.
    + unfold mbind, M_bind, log. cbn [fst snd].
      destruct (IH id_mapping damage_class_ids
                   {| fs := fs w;
                      logged := logged w
                                ++ [ClassNotInReference class_name old_id dataset] |}
                   Hnd)
        as (m' & d' & ds & Hrun & Hout & Hd & Hin).
      exists m', d', (ClassNotInReference class_name old_id dataset :: ds).
      split_and!.
      * rewrite Hrun. cbn [fs logged]. by rewrite <- app_assoc.
      * intros k Hk. rewrite fmap_cons in Hk.
        apply not_elem_of_cons in Hk as [_ Hk]. by apply Hout.
      * intros k. rewrite Hd. apply bool_decide_eq_false in Hdmg. split.
        -- intros [?|(cn & ? & ?)]; [by left|right].
           exists cn. split; [by right|done].
        -- intros [?|(cn & Hcn & ?)]; [by left|].
           apply elem_of_cons in Hcn as [[= -> ->]|?]; [done|].
           right. by exists cn.
      * intros k cn Hkin. apply elem_of_cons in Hkin as [[= -> ->]|Hkin].
        -- rewrite Hdmg, Hg. split; [by apply Hout|by left].
        -- specialize (Hin k cn Hkin).
           destruct (bool_decide (strip cn ∈ DAMAGE_CLASSES)); [done|].
           destruct (dict_get reference_mapping (strip cn)); [done|].
           destruct Hin as [-> ?]. split; [done|by right].
Qed.

(** What [create_class_id_mapping] returns for a manifest that declares
    classes: nothing is written, each declared class is either a damage
    ID, or remapped to the canonical ID of its name, or reported. *)
Lemma create_class_id_mapping_spec (dataset_yaml_path : path)
    (reference_mapping : list (str * Z)) (w : world) (data : Manifest)
    (items : list (Z * str)) :
  fs w !! dataset_yaml_path = Some (YamlFile data) →
  names data = Some items →
  NoDup items.*1 →
  ∃ id_mapping damage_class_ids ds,
    create_class_id_mapping dataset_yaml_path reference_mapping w
    = (Ok (id_mapping, damage_class_ids),
       {| fs := fs w; logged := logged w ++ ds |}) ∧
    (∀ k, k ∉ items.*1 → id_mapping !! k = None) ∧
    (∀ k, k ∈ damage_class_ids ↔
          ∃ class_name, (k, class_name) ∈ items ∧
                        strip class_name ∈ DAMAGE_CLASSES) ∧
    (∀ k class_name, (k, class_name) ∈ items →
       if bool_decide (strip class_name ∈ DAMAGE_CLASSES)
       then id_mapping !! k = None
       else match dict_get reference_mapping (strip class_name) with
            | Some new_id => id_mapping !! k = Some new_id
            | None => id_mapping !! k = None ∧
                      ClassNotInReference class_name k
                        (name (parent dataset_yaml_path)) ∈ ds
            end).
Proof.
  intros Hf Hn Hnd. unfold create_class_id_mapping.
  unfold mbind, M_bind, read_file. rewrite Hf. cbn [yaml_load mret M_ret].
  rewrite Hn.
  destruct (classify_names_spec (name (parent dataset_yaml_path))
              reference_mapping items ∅ [] w Hnd)
    as (m' & d' & ds & Hrun & Hout & Hd & Hin).
  exists m', d', ds. split_and!; [done|..].
  - intros k Hk. by rewrite Hout.
  - intros k. rewrite Hd. split; [|by right].
    intros [Hk|?]; [|done]. by apply elem_of_nil in Hk.
  - intros k cn Hkin. specialize (Hin k cn Hkin).
    by rewrite !lookup_empty in Hin.
Qed.

(** Only declared classes are ever reported. *)
Lemma classify_names_reports (dataset : str)
    (reference_mapping : list (str * Z)) (items : list (Z * str))
    (id_mapping : gmap Z Z) (damage_class_ids : list Z) (w : world) :
  ∃ r ds,
    classify_names dataset reference_mapping items id_mapping
                   damage_class_ids w
    = (Ok r, {| fs := fs w; logged := logged w ++ ds |}) ∧
    ∀ e, e ∈ ds →
         ∃ k class_name, e = ClassNotInReference class_name k dataset ∧
                         (k, class_name) ∈ items.
Proof.
  revert id_mapping damage_class_ids w.
  induction items as [|[old_id class_name] rest IH]; intros m d w.
  { exists (m, d), []. split.
    - simpl. unfold mret, M_ret. rewrite app_nil_r. by destruct w.
    - intros e He. by apply elem_of_nil in He. }
  cbn [classify_names]. case_bool_decide.
  { destruct (IH m (d ++ [old_id]) w) as (r & ds & Hrun & Hds).
    exists r, ds. split; [done|]. intros e He.
    destruct (Hds e He) as (k & cn & -> & ?). exists k, cn.
    split; [done|by right]. }
  destruct (dict_get reference_mapping (strip class_name)) as [new_id|].
  { destruct (IH (<[old_id := new_id]> m) d w) as (r & ds & Hrun & Hds).
    exists r, ds. split; [done|]. intros e He.
    destruct (Hds e He) as (k & cn & -> & ?). exists k, cn.
    split; [done|by right]. }
  unfold mbind, M_bind, log.
  destruct (IH m d {| fs := fs w;
                      logged := logged w ++
                        [ClassNotInReference class_name old_id dataset] |})
    as (r & ds & Hrun & Hds).
  exists r, (ClassNotInReference class_name old_id dataset :: ds). split.
  - rewrite Hrun. cbn [fs logged]. by rewrite <- app_assoc.
  - intros e [->|He]%elem_of_cons.
    + exists old_id, class_name. split; [done|by left].
    + destruct (Hds e He) as (k & cn & -> & ?). exists k, cn.
      split; [done|by right].
Qed.

(** ** The rewritten manifest *)

Lemma invert_names_spec (reference_mapping : list (str * Z))
    (acc : list (Z * str)) :
  NoDup (dict_keys acc) →
  let d := fold_left (λ d '(class_name, class_id),
                        dict_set d class_id class_name)
                     reference_mapping acc in
  NoDup (dict_keys d) ∧
  (∀ class_id, class_id ∈ dict_keys d ↔
               class_id ∈ dict_keys acc ∨ class_id ∈ reference_mapping.*2) ∧
  (∀ class_id class_name,
     (class_id, class_name) ∈ d →
     (class_id, class_name) ∈ acc ∨ (class_name, class_id) ∈ reference_mapping).
Proof.
  revert acc. induction reference_mapping as [|[n i] rest IH]; intros acc Hnd.
  - simpl. split_and!; [done| |by left].
    intros k. split; [by left|]. intros [?|Hin]; [done|].
    by apply elem_of_nil in Hin.
  - cbn [fold_left].
    destruct (IH (dict_set acc i n) (dict_set_NoDup _ _ _ Hnd))
      as (Hnd' & Hkeys & Helems).
    split_and!; [done|..].
    + intros k. rewrite Hkeys, dict_keys_set, fmap_cons, elem_of_cons.
      cbn [snd]. tauto.
    + intros k cn Hin. apply Helems in Hin as [Hin|Hin].
      * apply dict_set_elem in Hin; [|done].
        destruct Hin as [[-> ->]|[_ ?]]; [right; by left|by left].
      * right. by right.
Qed.

(** C7. Whatever two datasets held before, [normalize_data_yaml] leaves
    the same manifest in both: the two fixed split paths, and names that
    declare exactly the pairs and the IDs of the reference mapping. *)
Theorem manifest_rewrite_ignores_dataset
    (reference_mapping : list (str * Z))
    (dataset_yaml_path1 dataset_yaml_path2 : path) (w1 w2 : world) :
  let w1' := (normalize_data_yaml dataset_yaml_path1 reference_mapping
                                  false w1).2 in
  let w2' := (normalize_data_yaml dataset_yaml_path2 reference_mapping
                                  false w2).2 in
  fs w1' !! dataset_yaml_path1
  = Some (YamlFile (normalized_data reference_mapping)) ∧
  fs w2' !! dataset_yaml_path2
  = Some (YamlFile (normalized_data reference_mapping)) ∧
  train (normalized_data reference_mapping) = Some (text "images/train") ∧
  val (normalized_data reference_mapping) = Some (text "images/val") ∧
  manifest_extra (normalized_data reference_mapping) = [] ∧
  ∃ d, names (normalized_data reference_mapping) = Some d ∧
       NoDup (dict_keys d) ∧
       (∀ class_id, class_id ∈ dict_keys d ↔
                    class_id ∈ reference_mapping.*2) ∧
       (∀ class_id class_name,
          dict_get d class_id = Some class_name →
          (class_name, class_id) ∈ reference_mapping).
Proof.
  cbn zeta. unfold normalize_data_yaml, write_file. cbn [snd fs].
  rewrite !lookup_insert_eq. split_and!; try done.
  eexists. split; [reflexivity|].
  destruct (invert_names_spec reference_mapping [] (NoDup_nil_2))
    as (Hnd & Hkeys & Helems).
  split_and!; [done|..].
  - intros k. rewrite Hkeys. split; [|by right].
    intros [Hin|?]; [|done]. by apply elem_of_nil in Hin.
  - intros k cn Hg. apply dict_get_Some_elem in Hg.
    apply Helems in Hg as [Hin|?]; [|done]. by apply elem_of_nil in Hin.
Qed.

(** When the reference mapping gives distinct IDs to distinct names, the
    manifest maps every canonical ID to its name. *)
Lemma normalized_names_lookup (reference_mapping : list (str * Z))
    (class_name : str) (class_id : Z) (d : list (Z * str)) :
  NoDup reference_mapping.*2 →
  (class_name, class_id) ∈ reference_mapping →
  names (normalized_data reference_mapping) = Some d →
  dict_get d class_id = Some class_name.
Proof.
  intros Hnd Hin [= <-].
  destruct (invert_names_spec reference_mapping [] (NoDup_nil_2))
    as (Hnd' & Hkeys & Helems). cbn zeta in *.
  set (d := fold_left _ reference_mapping []) in *.
  assert (class_id ∈ dict_keys d) as Hk.
  { apply Hkeys. right. apply list_elem_of_fmap. by exists (class_name, class_id). }
  destruct (dict_get d class_id) as [cn|] eqn:Hg;
    [|by apply dict_get_None in Hg].
  f_equal. apply dict_get_Some_elem in Hg.
  apply Helems in Hg as [Hg|Hg]; [by apply elem_of_nil in Hg|].
  clear -Hnd Hin Hg. induction reference_mapping as [|[n i] rest IH];
    [by apply elem_of_nil in Hin|].
  rewrite fmap_cons in Hnd. apply NoDup_cons in Hnd as [Hfresh Hnd].
  apply elem_of_cons in Hin as [Hin|Hin];
    apply elem_of_cons in Hg as [Hg|Hg]; simplify_eq; try done.
  - exfalso. apply Hfresh. apply list_elem_of_fmap. by exists (cn, i).
  - exfalso. apply Hfresh. apply list_elem_of_fmap. by exists (class_name, i).
  - by apply IH.
Qed.

(** ** Damage classes *)

Section damage.
Context `{!DecimalTable}.

(** C4. A declared class whose trimmed name is a damage name is recorded
    as a damage ID and gets no entry in the remap table, whether or not
    the reference mapping knows the name; and every line whose first
    token is that ID is left out of the output and never counted as
    remapped, whatever remap table is applied. *)
Theorem damage_takes_precedence (dataset_yaml_path : path)
    (reference_mapping : list (str * Z)) (w : world) (data : Manifest)
    (items : list (Z * str)) (old_id : Z) (class_name : str) :
  fs w !! dataset_yaml_path = Some (YamlFile data) →
  names data = Some items →
  NoDup items.*1 →
  (old_id, class_name) ∈ items →
  strip class_name ∈ DAMAGE_CLASSES →
  ∃ id_mapping damage_class_ids w',
    create_class_id_mapping dataset_yaml_path reference_mapping w
    = (Ok (id_mapping, damage_class_ids), w') ∧
    old_id ∈ damage_class_ids ∧
    id_mapping !! old_id = None ∧
    (∀ any_mapping line tok rest new_lines r rm,
       split line = tok :: rest →
       py_int tok = Some old_id →
       ∃ rm', label_step any_mapping damage_class_ids
                         (new_lines, r, rm) line
              = (new_lines, r, rm')).
Proof.
  intros Hf Hn Hnd Hin Hdmg.
  destruct (create_class_id_mapping_spec _ reference_mapping _ _ _ Hf Hn Hnd)
    as (m & d & ds & Hrun & _ & Hd & Hitems).
  eexists m, d, _. split; [exact Hrun|].
  assert (old_id ∈ d) as Hold by (apply Hd; eauto).
  split_and!; [done| |].
  - specialize (Hitems _ _ Hin). by rewrite bool_decide_true in Hitems.
  - intros any line tok rest nl r rm Hs Hp.
    by eapply damage_line_dropped.
Qed.

End damage.

(** ** The category reconciler *)

Lemma update_annotation_keyed (old_to_new_id : gmap Z Z) (c : Z)
    (extra : list (str * str)) :
  update_annotation old_to_new_id {| category_id := Some c; ann_extra := extra |}
  = {| category_id := Some (default c (old_to_new_id !! c));
       ann_extra := extra |}.
Proof. unfold update_annotation. simpl. by destruct (old_to_new_id !! c). Qed.

Lemma update_annotations_spec (old_to_new_id : gmap Z Z)
    (anns : list Annotation) :
  update_annotations old_to_new_id anns
  = (update_annotation old_to_new_id <$> anns,
     length (List.filter (in_table old_to_new_id) anns)).
Proof.
  induction anns as [|[[c|] extra] rest IH]; [done|..];
    cbn [update_annotations category_id ann_extra]; rewrite IH;
    rewrite fmap_cons; cbn [List.filter]; [|done].
  rewrite update_annotation_keyed.
  change (in_table old_to_new_id {| category_id := Some c; ann_extra := extra |})
    with (bool_decide (is_Some (old_to_new_id !! c))).
  destruct (old_to_new_id !! c) as [c'|] eqn:E.
  - by rewrite bool_decide_true by eauto.
  - rewrite bool_decide_false; [done|]. by intros [? ?].
Qed.

Lemma update_annotation_identity (old_to_new_id : gmap Z Z) (ann : Annotation) :
  (∀ k v, old_to_new_id !! k = Some v → v = k) →
  update_annotation old_to_new_id ann = ann.
Proof.
  intros Hid. unfold update_annotation. destruct ann as [[c|] extra]; [|done].
  simpl. destruct (old_to_new_id !! c) as [c'|] eqn:E; [|done].
  by rewrite (Hid _ _ E).
Qed.

Lemma filter_ext_length {A} (f g : A → bool) (l : list A) :
  (∀ x, f x = g x) →
  length (List.filter f l) = length (List.filter g l).
Proof.
  intros Hfg. induction l as [|x l IH]; [done|].
  simpl. rewrite Hfg. destruct (g x); simpl; by rewrite IH.
Qed.

(** The loop over the declared categories. *)
Lemma category_fold_spec (standard_categories : list (str * Category))
    (cats : list Category) (m : gmap Z Z) (n : nat) (u : list (Z * str)) :
  ∃ m' n' u_new,
    fold_left (category_step standard_categories) cats (m, n, u)
    = (m', n', u ++ u_new) ∧
    (n' + length u_new = n + length cats)%nat ∧
    (∀ k, k ∉ cat_id <$> cats → m' !! k = m !! k) ∧
    (∀ k, k ∈ cat_id <$> cats →
          ∃ v, m' !! k = Some v ∧
               (v ∈ canonical_ids standard_categories ∨
                (v = k ∧ ∃ old_name, (k, old_name) ∈ u_new))).
Proof.
  revert m n u. induction cats as [|cat rest IH]; intros m n u.
  { exists m, n, []. simpl. rewrite app_nil_r. split_and!; [done|lia|done|].
    intros k Hk. by apply elem_of_nil in Hk. }
  cbn [fold_left]. unfold category_step at 2.
  destruct (dict_get standard_categories (strip (cat_name cat)))
    as [std_cat|] eqn:Hg.
  - destruct (IH (<[cat_id cat := cat_id std_cat]> m) (S n) u)
      as (m' & n' & u_new & Hrun & Hcount & Hout & Hin).
    exists m', n', u_new. split_and!; [done|simpl; lia|..].
    + intros k Hk. rewrite fmap_cons in Hk.
      apply not_elem_of_cons in Hk as [Hne Hk].
      rewrite Hout by done. by apply lookup_insert_ne.
    + intros k Hk. destruct (decide (k ∈ cat_id <$> rest)) as [Hr|Hr];
        [by apply Hin|].
      rewrite fmap_cons in Hk. apply elem_of_cons in Hk as [->|?]; [|done].
      exists (cat_id std_cat). rewrite Hout by done.
      rewrite lookup_insert_eq. split; [done|]. left.
      unfold canonical_ids. apply list_elem_of_fmap.
      exists std_cat. split; [done|]. by eapply dict_get_value.
  - destruct (IH (<[cat_id cat := cat_id cat]> m) n
                 (u ++ [(cat_id cat, strip (cat_name cat))]))
      as (m' & n' & u_new & Hrun & Hcount & Hout & Hin).
    exists m', n', ((cat_id cat, strip (cat_name cat)) :: u_new).
    split_and!.
    + rewrite Hrun. by rewrite <- app_assoc.
    + simpl. lia.
    + intros k Hk. rewrite fmap_cons in Hk.
      apply not_elem_of_cons in Hk as [Hne Hk].
      rewrite Hout by done. by apply lookup_insert_ne.
    + intros k Hk. destruct (decide (k ∈ cat_id <$> rest)) as [Hr|Hr].
      * destruct (Hin k Hr) as (v & Hv & [?|[-> (nm & ?)]]).
        -- exists v. split; [done|by left].
        -- exists k. split; [done|]. right. split; [done|].
           exists nm. by right.
      * rewrite fmap_cons in Hk. apply elem_of_cons in Hk as [->|?]; [|done].
        exists (cat_id cat). rewrite Hout by done.
        rewrite lookup_insert_eq. split; [done|]. right. split; [done|].
        exists (strip (cat_name cat)). by left.
Qed.

(** Only declared categories are ever reported as unmapped. *)
Lemma category_fold_reports (standard_categories : list (str * Category))
    (cats : list Category) (m : gmap Z Z) (n : nat) (u : list (Z * str)) :
  ∃ m' n' u_new,
    fold_left (category_step standard_categories) cats (m, n, u)
    = (m', n', u ++ u_new) ∧
    ∀ k old_name, (k, old_name) ∈ u_new → k ∈ cat_id <$> cats.
Proof.
  revert m n u. induction cats as [|cat rest IH]; intros m n u.
  { exists m, n, []. split; [by rewrite app_nil_r|].
    intros k nm Hin. by apply elem_of_nil in Hin. }
  cbn [fold_left]. unfold category_step at 2.
  destruct (dict_get standard_categories (strip (cat_name cat))).
  - destruct (IH (<[cat_id cat := cat_id c]> m) (S n) u)
      as (m' & n' & u_new & Hrun & Hu).
    exists m', n', u_new. split; [done|].
    intros k nm Hin. rewrite fmap_cons. right. by eapply Hu.
  - destruct (IH (<[cat_id cat := cat_id cat]> m) n
                 (u ++ [(cat_id cat, strip (cat_name cat))]))
      as (m' & n' & u_new & Hrun & Hu).
    exists m', n', ((cat_id cat, strip (cat_name cat)) :: u_new). split.
    + rewrite Hrun. by rewrite <- app_assoc.
    + intros k nm [[= -> ->]|Hin]%elem_of_cons; rewrite fmap_cons.
      * by left.
      * right. by eapply Hu.
Qed.

(** On categories that are the canonical records themselves, the loop
    builds the identity on their IDs and reports nothing. *)
Lemma category_fold_canonical (standard_categories : list (str * Category))
    (cats : list Category) (m : gmap Z Z) (n : nat) (u : list (Z * str)) :
  (∀ cat, cat ∈ cats →
          dict_get standard_categories (strip (cat_name cat)) = Some cat) →
  (∀ k v, m !! k = Some v → v = k) →
  ∃ m', fold_left (category_step standard_categories) cats (m, n, u)
        = (m', (n + length cats)%nat, u) ∧
        (∀ k v, m' !! k = Some v → v = k) ∧
        (∀ k, is_Some (m' !! k) ↔ is_Some (m !! k) ∨ k ∈ cat_id <$> cats).
Proof.
  revert m n. induction cats as [|cat rest IH]; intros m n Hfix Hid.
  { exists m. simpl. rewrite Nat.add_0_r. split_and!; [done..|].
    intros k. split; [by left|]. intros [?|Hk]; [done|].
    by apply elem_of_nil in Hk. }
  cbn [fold_left]. unfold category_step at 2.
  rewrite (Hfix cat) by by left.
  destruct (IH (<[cat_id cat := cat_id cat]> m) (S n)) as (m' & Hrun & Hid' & Hdom).
  { intros c Hc. apply Hfix. by right. }
  { intros k v. rewrite lookup_insert. case_decide; [naive_solver|apply Hid]. }
  exists m'. split_and!; [|done|].
  - rewrite Hrun. f_equal. f_equal. simpl. lia.
  - intros k. rewrite Hdom, fmap_cons, elem_of_cons, lookup_insert.
    case_decide; subst; [|intuition congruence]. split; [by right; left|].
    intros _. by left.
Qed.

Lemma insert_by_id_perm (x : Category) (l : list Category) :
  insert_by_id x l ≡ₚ x :: l.
Proof.
  induction l as [|y r IH]; [done|].
  simpl. destruct (cat_id x <=? cat_id y); [done|].
  rewrite IH. apply Permutation_swap.
Qed.

Lemma sorted_by_id_perm (l : list Category) : sorted_by_id l ≡ₚ l.
Proof.
  induction l as [|x r IH]; [done|].
  simpl. rewrite insert_by_id_perm. by rewrite IH.
Qed.

(** The mapping loaded from the canonical list: keys are the trimmed
    names of their own records. *)
Lemma load_standard_categories_spec (cats : list Category)
    (acc : list (str * Category)) :
  NoDup (dict_keys acc) →
  (∀ k v, (k, v) ∈ acc → k = strip (cat_name v)) →
  let d := fold_left (λ name_to_category cat,
                        dict_set name_to_category (strip (cat_name cat)) cat)
                     cats acc in
  NoDup (dict_keys d) ∧ (∀ k v, (k, v) ∈ d → k = strip (cat_name v)).
Proof.
  revert acc. induction cats as [|cat rest IH]; intros acc Hnd Hkeys; [done|].
  cbn [fold_left]. apply IH; [by apply dict_set_NoDup|].
  intros k v Hin. apply dict_set_elem in Hin; [|done].
  destruct Hin as [[-> ->]|[_ ?]]; [done|by apply Hkeys].
Qed.

Lemma canonical_lookup_self (canonical : list Category) (cat : Category) :
  cat ∈ dict_values (load_standard_categories_list canonical) →
  dict_get (load_standard_categories_list canonical) (strip (cat_name cat))
  = Some cat.
Proof.
  intros Hin. unfold dict_values in Hin.
  apply list_elem_of_fmap in Hin as ([k v] & -> & Hin). simpl.
  destruct (load_standard_categories_spec canonical [] (NoDup_nil_2))
    as [Hnd Hkeys].
  { intros ? ? H. by apply elem_of_nil in H. }
  rewrite <- (Hkeys k v Hin). by apply dict_get_NoDup.
Qed.

(** ** What the two reconcilers leave behind *)

Lemma normalize_annotation_file_run (annotation_file : path)
    (standard_categories : list (str * Category)) (dry_run : bool)
    (w : world) (data : Document) (cats : list Category) :
  fs w !! annotation_file = Some (JsonFile data) →
  categories data = Some cats →
  normalize_annotation_file annotation_file standard_categories dry_run w
  = let '(old_to_new_id, normalized, unmapped) :=
      fold_left (category_step standard_categories) cats (∅, O, []) in
    (Ok {| file := annotation_file;
           categories_found := length cats;
           categories_normalized := normalized;
           annotations_updated :=
             default O ((λ anns : list Annotation,
                           length (List.filter (in_table old_to_new_id) anns))
                          <$> annotations data);
           unmapped_categories := unmapped |},
     if dry_run then w
     else {| fs := <[annotation_file :=
                       JsonFile (normalized_document standard_categories
                                                     old_to_new_id data)]> (fs w);
             logged := logged w |}).
Proof.
  intros Hf Hc. unfold normalize_annotation_file, normalized_document.
  unfold mbind, M_bind, read_file. rewrite Hf. cbn [json_load mret M_ret].
  rewrite Hc.
  destruct (fold_left _ cats _) as [[m n] u].
  destruct (annotations data) as [anns|]; cbn [fmap option_fmap option_map default].
  - rewrite update_annotations_spec. by destruct dry_run.
  - by destruct dry_run.
Qed.

Lemma load_reference_mapping_spec (items : list (Z * str))
    (acc : list (str * Z)) :
  NoDup (dict_keys acc) →
  (∀ k, k ∈ dict_keys acc → strip k = k) →
  let d := fold_left (λ class_mapping '(class_id, class_name),
                        dict_set class_mapping (strip class_name) class_id)
                     items acc in
  NoDup (dict_keys d) ∧ (∀ k, k ∈ dict_keys d → strip k = k).
Proof.
  revert acc. induction items as [|[i n] rest IH]; intros acc Hnd Hkeys; [done|].
  cbn [fold_left]. apply IH; [by apply dict_set_NoDup|].
  intros k Hk. apply dict_keys_set in Hk as [->|?]; [|by apply Hkeys].
  apply strip_idempotent.
Qed.

Section accounting.
Context `{!DecimalTable}.

Lemma line_outcome_emitted (id_mapping : gmap Z Z) (damage_class_ids : list Z)
    (line out : str) :
  out ∈ emitted (line_outcome id_mapping damage_class_ids line) →
  ∃ tok g gs k,
    split line = tok :: g :: gs ∧ py_int tok = Some k ∧
    (k ∉ damage_class_ids) ∧
    ((∃ c, id_mapping !! k = Some c ∧
           out = join (text " ") (py_str c :: g :: gs)) ∨
     (id_mapping !! k = None ∧ out = strip line)).
Proof.
  unfold line_outcome.
  destruct (split line) as [|tok [|g gs]];
    try (intros Hin; by apply elem_of_nil in Hin).
  destruct (py_int tok) as [k|] eqn:Hp;
    [|intros Hin; by apply elem_of_nil in Hin].
  case_bool_decide as Hd; [intros Hin; by apply elem_of_nil in Hin|].
  destruct (id_mapping !! k) as [c|] eqn:Hm; cbn [emitted];
    intros ->%list_elem_of_singleton.
  - exists tok, g, gs, k. split_and!; [done..|]. left. eauto.
  - exists tok, g, gs, k. split_and!; [done..|]. by right.
Qed.

Lemma normalize_lines_emitted (id_mapping : gmap Z Z)
    (damage_class_ids : list Z) (lines : list str) (out : str) :
  out ∈ (normalize_lines id_mapping damage_class_ids lines).1.1 →
  ∃ line, line ∈ lines ∧
          out ∈ emitted (line_outcome id_mapping damage_class_ids line).
Proof.
  rewrite normalize_lines_outcomes. cbn [fst].
  intros Hin. apply list_elem_of_join in Hin as (l & Hout & Hl).
  apply list_elem_of_fmap in Hl as (o & -> & Ho).
  apply list_elem_of_fmap in Ho as (line & -> & Hline). eauto.
Qed.

(** C1, amended. After a run, a surviving annotation or label line whose
    reference was declared by the dataset carries a canonical ID or a
    reference that was reported as unmapped. An annotation whose
    reference the document never declared is kept exactly as it was; a
    label line with at least two tokens whose class ID the manifest never
    declared is kept, as its decoded text with the surrounding whitespace
    stripped; nothing is reported about either. *)
Theorem surviving_references_accounted :
  (∀ (annotation_file : path) (standard_categories : list (str * Category))
     (w : world) (data : Document) (cats : list Category)
     (anns : list Annotation),
     fs w !! annotation_file = Some (JsonFile data) →
     categories data = Some cats →
     annotations data = Some anns →
     ∃ stats data' anns',
       normalize_annotation_file annotation_file standard_categories false w
       = (Ok stats, {| fs := <[annotation_file := JsonFile data']> (fs w);
                       logged := logged w |}) ∧
       annotations data' = Some anns' ∧
       length anns' = length anns ∧
       ∀ i ann ann',
         anns !! i = Some ann → anns' !! i = Some ann' →
         match category_id ann with
         | Some c =>
           if bool_decide (c ∈ cat_id <$> cats) then
             ∃ c', category_id ann' = Some c' ∧
                   (c' ∈ canonical_ids standard_categories ∨
                    (c' = c ∧ ∃ old_name,
                                (c, old_name) ∈ unmapped_categories stats))
           else ann' = ann ∧
                ∀ old_name, (c, old_name) ∉ unmapped_categories stats
         | None => ann' = ann
         end) ∧
  (∀ (dataset_yaml_path : path) (reference_mapping : list (str * Z))
     (w : world) (data : Manifest) (items : list (Z * str)),
     fs w !! dataset_yaml_path = Some (YamlFile data) →
     names data = Some items →
     NoDup items.*1 →
     ∃ id_mapping damage_class_ids ds,
       create_class_id_mapping dataset_yaml_path reference_mapping w
       = (Ok (id_mapping, damage_class_ids),
          {| fs := fs w; logged := logged w ++ ds |}) ∧
       ∀ (label_path : path) (held : file_content) (content : str)
         (w1 : world),
         fs w1 !! label_path = Some held →
         label_text held = Some content →
         ∃ new_lines stats,
           normalize_label_file label_path id_mapping damage_class_ids
                                false w1
           = (Ok stats,
              {| fs := <[label_path := TextFile (written_text new_lines)]>
                         (fs w1);
                 logged := logged w1 ++ fallback_warning label_path held |})
           ∧
           (∀ out, out ∈ new_lines →
              ∃ line tok g gs k,
                line ∈ readlines content ∧ split line = tok :: g :: gs ∧
                py_int tok = Some k ∧
                ((∃ c, k ∈ items.*1 ∧ c ∈ reference_mapping.*2 ∧
                       split out = py_str c :: g :: gs) ∨
                 (out = strip line ∧ k ∈ items.*1 ∧
                  ∃ class_name,
                    ClassNotInReference class_name k
                      (name (parent dataset_yaml_path)) ∈ ds) ∨
                 (out = strip line ∧ (k ∉ items.*1) ∧
                  ∀ class_name dataset,
                    ClassNotInReference class_name k dataset ∉ ds))) ∧
           (∀ line tok g gs k,
              line ∈ readlines content →
              split line = tok :: g :: gs →
              py_int tok = Some k →
              k ∉ items.*1 →
              strip line ∈ new_lines ∧
              ∀ class_name dataset,
                ClassNotInReference class_name k dataset ∉ ds)).
Proof.
  split.
  - intros p std w data cats anns Hf Hc Ha.
    rewrite (normalize_annotation_file_run _ _ _ _ _ _ Hf Hc).
    destruct (category_fold_spec std cats ∅ O [])
      as (m & n & u & Hrun & _ & Hout & Hin).
    destruct (category_fold_reports std cats ∅ O [])
      as (m0 & n0 & u0 & Hrun0 & Hrep).
    rewrite Hrun in Hrun0. injection Hrun0 as <- <- <-.
    rewrite Hrun. cbn [app].
    eexists _, _, _. split; [reflexivity|].
    unfold normalized_document. cbn [annotations]. rewrite Ha.
    split; [reflexivity|]. split; [by rewrite length_fmap|].
    intros i ann ann' Hi Hi'. rewrite list_lookup_fmap, Hi in Hi'.
    injection Hi' as <-. cbn [unmapped_categories].
    unfold update_annotation.
    destruct (category_id ann) as [c|] eqn:Hcid; [|done].
    case_bool_decide as Hdecl.
    + destruct (Hin c Hdecl) as (v & Hv & Hcases). rewrite Hv.
      exists v. split; [done|]. done.
    + rewrite (Hout c Hdecl), lookup_empty. split; [done|].
      intros nm Hnm. apply Hdecl. by eapply Hrep.
  - intros p ref w data items Hf Hn Hnd.
    destruct (create_class_id_mapping_spec _ ref _ _ _ Hf Hn Hnd)
      as (m & d & ds & Hrun & Hout & Hd & Hitems).
    assert (∀ e, e ∈ ds →
                 ∃ k class_name,
                   e = ClassNotInReference class_name k (name (parent p)) ∧
                   (k, class_name) ∈ items) as Hreports.
    { destruct (classify_names_reports (name (parent p)) ref items ∅ [] w)
        as (r0 & ds0 & Hrun0 & Hds0).
      unfold create_class_id_mapping, mbind, M_bind, read_file in Hrun.
      rewrite Hf in Hrun. cbn [yaml_load mret M_ret] in Hrun.
      rewrite Hn, Hrun0 in Hrun. injection Hrun as _ Hlog.
      apply app_inv_head in Hlog. by subst ds0. }
    exists m, d, ds. split; [done|].
    assert (∀ k, k ∉ items.*1 →
                 ∀ class_name dataset,
                   ClassNotInReference class_name k dataset ∉ ds) as Hsilent.
    { intros k Hk cn dsname Hlog. apply Hk.
      destruct (Hreports _ Hlog) as (k' & cn' & [= <- <- _] & Hin').
      apply list_elem_of_fmap. by exists (k, cn). }
    intros label_path held content w1 Hf1 Ht1.
    rewrite (normalize_label_file_decoded _ _ _ _ _ _ _ Hf1 Ht1).
    pose proof (normalize_lines_emitted m d (readlines content)) as Hem.
    pose proof (normalize_lines_emits m d (readlines content)) as Hkeep.
    destruct (normalize_lines m d (readlines content)) as [[new_lines r] rm].
    exists new_lines, (r, rm). split; [done|]. cbn [fst] in Hem, Hkeep.
    split.
    2:{ intros line tok g gs k Hline Hs Hp Hk. split; [|by apply Hsilent].
        apply (Hkeep line); [done|].
        rewrite (line_outcome_kept m d line tok g gs k); [by left|done..| |].
        - intros (cn & Hin & _)%Hd. apply Hk.
          apply list_elem_of_fmap. by exists (k, cn).
        - by apply Hout. }
    intros out Hin.
    apply Hem in Hin as (line & Hline & Hin). clear Hem. rename Hin into Hem.
    apply line_outcome_emitted in Hem
      as (tok & g & gs & k & Hs & Hp & Hnd' & Hcases).
    exists line, tok, g, gs, k. split_and!; [done..|].
    destruct (decide (k ∈ items.*1)) as [Hk|Hk].
    + apply list_elem_of_fmap in Hk as ([k' cn] & -> & Hkin). cbn [fst] in *.
      assert (k' ∈ items.*1) as Hk'.
      { apply list_elem_of_fmap. by exists (k', cn). }
      specialize (Hitems _ _ Hkin).
      case_bool_decide as Hdmg.
      { exfalso. apply Hnd', Hd. eauto. }
      destruct (dict_get ref (strip cn)) as [new_id|] eqn:Hg.
      * destruct Hcases as [(c & Hc & ->)|[Hc _]]; [|congruence].
        left. exists c. split_and!; [done| |].
        -- assert (c = new_id) as -> by congruence.
           apply dict_get_Some_elem in Hg.
           apply list_elem_of_fmap. by exists (strip cn, new_id).
        -- apply split_join. constructor; [apply py_str_token|].
           pose proof (split_tokens line) as Ht. rewrite Hs in Ht.
           by inversion Ht.
      * destruct Hitems as [Hnone Hlog].
        destruct Hcases as [(c & Hc & _)|[_ ->]]; [congruence|].
        right. left. split_and!; [done..|]. eauto.
    + rewrite (Hout k Hk) in Hcases.
      destruct Hcases as [(c & Hc & _)|[_ ->]]; [done|].
      right. right. split_and!; [done..|]. by apply Hsilent.
Qed.

End accounting.

(** ** Running a reconciler again on its own output *)

Lemma readlines_from_single (cur s : str) :
  Forall (λ c, c ≠ 10%N ∧ c ≠ 13%N) s →
  readlines_from cur (s ++ [10%N]) = [reverse cur ++ s ++ [10%N]].
Proof.
  intros Hs. revert cur. induction Hs as [|c s [H10 H13] Hs IH]; intros cur.
  - simpl. by rewrite reverse_cons.
  - cbn [app readlines_from].
    apply N.eqb_neq in H10, H13. rewrite H10, H13.
    rewrite IH, reverse_cons, <- app_assoc. done.
Qed.

Lemma token_no_newline (t : str) :
  token t → Forall (λ c, c ≠ 10%N ∧ c ≠ 13%N) t.
Proof.
  intros [_ Ht]. eapply Forall_impl; [exact Ht|].
  intros c Hc. split; intros ->; by vm_compute in Hc.
Qed.

Lemma join_no_newline (parts : list str) :
  Forall token parts →
  Forall (λ c, c ≠ 10%N ∧ c ≠ 13%N) (join (text " ") parts).
Proof.
  induction 1 as [|p ps Hp Hps IH]; [constructor|].
  destruct ps as [|p' ps']; [by apply token_no_newline|].
  change (join (text " ") (p :: p' :: ps'))
    with (p ++ 32%N :: join (text " ") (p' :: ps')).
  apply Forall_app. split; [by apply token_no_newline|].
  constructor; [done|]. apply IH.
Qed.

(** A line made of single-spaced tokens survives writing and reading. *)
Lemma readlines_written_line (parts : list str) :
  Forall token parts →
  readlines (written_text [join (text " ") parts])
  = [join (text " ") parts ++ [10%N]].
Proof.
  intros Hp. unfold written_text, readlines. cbn [join].
  by rewrite readlines_from_single by by apply join_no_newline.
Qed.

Section second_run.
Context `{!DecimalTable}.

(** A line that a remap wrote is, under a table that maps its ID to
    itself, written again unchanged and counted as remapped. *)
Lemma rewritten_line_fixed (id_mapping : gmap Z Z) (damage_class_ids : list Z)
    (c : Z) (g : str) (gs : list str) :
  id_mapping !! c = Some c →
  c ∉ damage_class_ids →
  Forall token (g :: gs) →
  line_outcome id_mapping damage_class_ids
               (join (text " ") (py_str c :: g :: gs) ++ [10%N])
  = Remapped (join (text " ") (py_str c :: g :: gs)).
Proof.
  intros Hm Hd Ht.
  assert (Forall token (py_str c :: g :: gs)) as Hall.
  { constructor; [apply py_str_token|done]. }
  eapply line_outcome_remapped; [|apply py_int_py_str|done..].
  rewrite split_app_space by done. by apply split_join.
Qed.

(** C2, amended. A second run leaves the annotation document and the
    manifest exactly as the first run wrote them, and writes back
    unchanged each label line the first run rewrote; but its counters are
    not zero: every canonical category is counted as normalized, every
    annotation that refers to a canonical ID as updated, and every
    rewritten label line as remapped once more. *)
Theorem second_run_keeps_content_recounts :
  (∀ (canonical : list Category) (annotation_file : path) (w : world)
     (data : Document) (cats : list Category),
     let standard_categories := load_standard_categories_list canonical in
     fs w !! annotation_file = Some (JsonFile data) →
     categories data = Some cats →
     ∃ stats1 data1 stats2,
       let w1 := {| fs := <[annotation_file := JsonFile data1]> (fs w);
                    logged := logged w |} in
       normalize_annotation_file annotation_file standard_categories false w
       = (Ok stats1, w1) ∧
       normalize_annotation_file annotation_file standard_categories false w1
       = (Ok stats2, w1) ∧
       categories_normalized stats2 = length standard_categories ∧
       unmapped_categories stats2 = [] ∧
       annotations_updated stats2
       = length (List.filter (refers_to (canonical_ids standard_categories))
                             (default [] (annotations data1)))) ∧
  (∀ (dataset_yaml_path : path) (reference_mapping : list (str * Z))
     (w : world),
     let w1 := (normalize_data_yaml dataset_yaml_path reference_mapping
                                    false w).2 in
     fs w1 !! dataset_yaml_path
     = Some (YamlFile (normalized_data reference_mapping)) ∧
     normalize_data_yaml dataset_yaml_path reference_mapping false w1
     = (Ok (), w1)) ∧
  (∀ (reference_names : list (Z * str)) (dataset_yaml_path : path)
     (w : world) (declared : list (Z * str)),
     let reference_mapping := load_reference_mapping_names reference_names in
     fs w !! dataset_yaml_path
     = Some (YamlFile (normalized_data reference_mapping)) →
     names (normalized_data reference_mapping) = Some declared →
     ∃ id_mapping damage_class_ids w',
       create_class_id_mapping dataset_yaml_path reference_mapping w
       = (Ok (id_mapping, damage_class_ids), w') ∧
       (∀ k v, id_mapping !! k = Some v → v = k) ∧
       (∀ c, c ∈ reference_mapping.*2 → is_Some (dict_get declared c)) ∧
       (∀ c class_name,
          dict_get declared c = Some class_name →
          class_name ∉ DAMAGE_CLASSES →
          id_mapping !! c = Some c ∧ c ∉ damage_class_ids) ∧
       (∀ c g gs,
          id_mapping !! c = Some c →
          c ∉ damage_class_ids →
          Forall token (g :: gs) →
          normalize_lines id_mapping damage_class_ids
            (readlines (written_text [join (text " ") (py_str c :: g :: gs)]))
          = ([join (text " ") (py_str c :: g :: gs)], 1%nat, O))).
Proof.
  split_and!.
  - intros canonical p w data cats std Hf Hc.
    rewrite (normalize_annotation_file_run _ _ _ _ _ _ Hf Hc).
    destruct (fold_left (category_step std) cats (∅, O, [])) as [[m1 n1] u1].
    set (data1 := normalized_document std m1 data).
    destruct (category_fold_canonical std (sorted_by_id (dict_values std))
                ∅ O []) as (m2 & Hrun & Hid & Hdom).
    { intros cat Hcat. rewrite sorted_by_id_perm in Hcat.
      by apply canonical_lookup_self. }
    { intros k v. by rewrite lookup_empty. }
    assert (normalized_document std m2 data1 = data1) as Hsame.
    { unfold normalized_document at 1. unfold data1 at 3.
      unfold normalized_document. f_equal.
      change ((λ anns : list Annotation, update_annotation m1 <$> anns)
                <$> annotations data) with (annotations data1).
      destruct (annotations data1) as [anns|]; [|done].
      cbn [fmap option_fmap option_map]. f_equal.
      rewrite <- (list_fmap_id anns) at 2. apply list_fmap_ext.
      intros i ann _. by apply update_annotation_identity. }
    eexists _, data1, _. cbn zeta. split; [reflexivity|].
    set (w1 := {| fs := <[p:=JsonFile data1]> (fs w); logged := logged w |}).
    assert (fs w1 !! p = Some (JsonFile data1)) as Hf1
      by apply lookup_insert_eq.
    assert (categories data1 = Some (sorted_by_id (dict_values std))) as Hc1
      by done.
    rewrite (normalize_annotation_file_run _ _ _ _ _ _ Hf1 Hc1).
    rewrite Hrun.
    rewrite Hsame. split_and!.
    + f_equal.
      unfold w1. cbn [fs logged]. by rewrite insert_insert_eq.
    + cbn [categories_normalized]. rewrite sorted_by_id_perm.
      unfold dict_values. by rewrite length_fmap.
    + done.
    + cbn [annotations_updated].
      destruct (annotations data1) as [anns|]; [|done].
      cbn [fmap option_fmap option_map default].
      apply filter_ext_length. intros ann. unfold in_table, refers_to.
      destruct (category_id ann) as [c|]; [|done].
      apply bool_decide_ext. rewrite Hdom, lookup_empty.
      unfold canonical_ids. rewrite sorted_by_id_perm.
      split; [intros [[? ?]|?]; done|by right].
  - intros p ref w. cbn zeta.
    unfold normalize_data_yaml, write_file. cbn [snd fs logged].
    split; [apply lookup_insert_eq|]. by rewrite insert_insert_eq.
  - intros raw p w declared ref Hf Hn.
    destruct (load_reference_mapping_spec raw [] (NoDup_nil_2))
      as [Hrnd Hrkeys].
    { intros k Hk. by apply elem_of_nil in Hk. }
    fold (load_reference_mapping_names raw) in Hrnd, Hrkeys. fold ref in Hrnd, Hrkeys.
    destruct (invert_names_spec ref [] (NoDup_nil_2))
      as (Hnd & Hdkeys & Helems).
    assert (declared = fold_left (λ d '(class_name, class_id),
                                    dict_set d class_id class_name) ref [])
      as Hdecl by (by injection Hn).
    rewrite <- Hdecl in Hnd, Hdkeys, Helems.
    assert (∀ k cn, (k, cn) ∈ declared →
                    strip cn = cn ∧ dict_get ref cn = Some k) as Hback.
    { intros k cn Hin. apply Helems in Hin as [Hin|Hin];
        [by apply elem_of_nil in Hin|].
      split; [|by apply dict_get_NoDup].
      apply Hrkeys. apply list_elem_of_fmap. by exists (cn, k). }
    destruct (create_class_id_mapping_spec _ ref _ _ _ Hf Hn Hnd)
      as (m & d & ds & Hrun & Hout & Hd & Hitems).
    eexists m, d, _. split; [exact Hrun|]. split_and!.
    + intros k v Hv. destruct (decide (k ∈ declared.*1)) as [Hk|Hk];
        [|by rewrite (Hout k Hk) in Hv].
      apply list_elem_of_fmap in Hk as ([k' cn] & -> & Hin). cbn [fst] in *.
      specialize (Hitems _ _ Hin). destruct (Hback _ _ Hin) as [Hs Hg].
      rewrite Hs, Hg in Hitems. case_bool_decide; congruence.
    + intros c Hc. destruct (dict_get declared c) as [cn|] eqn:Hg; [eauto|].
      apply dict_get_None in Hg. destruct Hg. apply Hdkeys. by right.
    + intros c cn Hg Hnot. apply dict_get_Some_elem in Hg.
      destruct (Hback _ _ Hg) as [Hs Hget].
      specialize (Hitems _ _ Hg). rewrite Hs, Hget in Hitems.
      rewrite bool_decide_false in Hitems by done. split; [done|].
      intros (cn' & Hin' & Hdmg)%Hd.
      assert (cn' = cn) as ->.
      { apply dict_get_NoDup in Hin', Hg; [|done..]. congruence. }
      by rewrite Hs in Hdmg.
    + intros c g gs Hm Hdc Ht.
      rewrite readlines_written_line
        by (constructor; [apply py_str_token|done]).
      unfold normalize_lines. cbn [fold_left].
      by rewrite (step_of_outcome _ _ _ _ _ _ _
                    (rewritten_line_fixed _ _ _ _ _ Hm Hdc Ht)).
Qed.

End second_run.

(** ** Whole datasets and preview mode *)

Section dataset.
Context `{!DecimalTable}.

Lemma label_file_effect_other (id_mapping : gmap Z Z)
    (damage_class_ids : list Z) (dry_run : bool) (label_path q : path)
    (w : world) :
  q ≠ label_path →
  fs (label_file_effect id_mapping damage_class_ids dry_run label_path w) !! q
  = fs w !! q.
Proof.
  intros Hne. unfold label_file_effect.
  destruct (fs w !! label_path) as [[content|doc|m|cs|bytes]|]; try done;
    destruct dry_run; try done; cbn [fs]; by apply lookup_insert_ne.
Qed.

Lemma label_file_effect_dry (id_mapping : gmap Z Z)
    (damage_class_ids : list Z) (label_path : path) (w : world) :
  fs (label_file_effect id_mapping damage_class_ids true label_path w)
  = fs w.
Proof.
  unfold label_file_effect.
  by destruct (fs w !! label_path) as [[content|doc|m|cs|bytes]|].
Qed.

(** The loop over the label files: in preview mode no file changes, and
    the totals are those of a real run started from any world that holds
    the same label files. *)
Lemma normalize_label_files_dry_run (paths : list path)
    (id_mapping : gmap Z Z) (damage_class_ids : list Z)
    (total_remapped total_removed : nat) (w w' : world) :
  NoDup paths →
  (∀ q, q ∈ paths → fs w' !! q = fs w !! q) →
  fs (normalize_label_files paths id_mapping damage_class_ids true
                            total_remapped total_removed w).2 = fs w ∧
  (normalize_label_files paths id_mapping damage_class_ids true
                         total_remapped total_removed w).1
  = (normalize_label_files paths id_mapping damage_class_ids false
                           total_remapped total_removed w').1.
Proof.
  revert total_remapped total_removed w w'.
  induction paths as [|q rest IH]; intros a b w w' Hnd Hsame; [done|].
  apply NoDup_cons in Hnd as [Hfresh Hnd].
  cbn [normalize_label_files]. unfold mbind, M_bind.
  rewrite !normalize_label_file_cases.
  rewrite (Hsame q) by by left.
  pose proof (label_file_effect_dry id_mapping damage_class_ids q w) as Hdry.
  destruct (label_file_result id_mapping damage_class_ids (fs w !! q))
    as [[r rm]|e]; [|done].
  rewrite <- Hdry. apply IH; [done|].
  intros q' Hq'. rewrite label_file_effect_other by (intros ->; done).
  rewrite Hdry. apply Hsame. by right.
Qed.

Lemma NoDup_list_filter {A} (f : A → bool) (l : list A) :
  NoDup l → NoDup (List.filter f l).
Proof.
  induction 1 as [|x l Hx Hl IH]; simpl; [constructor|].
  destruct (f x); [|done]. constructor; [|done].
  intros Hin. apply Hx. apply list_elem_of_In in Hin.
  apply filter_In in Hin as [Hin _]. by apply list_elem_of_In.
Qed.

Lemma find_label_files_spec (dataset_dir : path) (w : world) :
  ∃ paths, find_label_files dataset_dir w = (Ok paths, w) ∧ NoDup paths ∧
           ∀ q, q ∈ paths → ends_with (text ".txt") (name q) = true.
Proof.
  eexists. split; [reflexivity|]. split.
  - do 2 apply NoDup_list_filter. apply NoDup_elements.
  - intros q Hq. apply list_elem_of_In in Hq.
    apply filter_In in Hq as [Hq _]. apply filter_In in Hq as [_ Hq].
    unfold is_txt_under in Hq. by apply andb_prop in Hq as [_ Hq].
Qed.

Lemma bind_run {A B} (m : M A) (f : A → M B) (w : world) :
  (m ≫= f) w
  = match m w with
    | (Ok a, w') => f a w'
    | (Raise e, w') => (Raise e, w')
    end.
Proof. reflexivity. Qed.

Lemma classify_names_fs (dataset : str) (reference_mapping : list (str * Z))
    (items : list (Z * str)) (id_mapping : gmap Z Z)
    (damage_class_ids : list Z) (w : world) :
  ∃ r w', classify_names dataset reference_mapping items id_mapping
                         damage_class_ids w = (Ok r, w') ∧
          fs w' = fs w.
Proof.
  revert id_mapping damage_class_ids w.
  induction items as [|[old_id class_name] rest IH]; intros m d w.
  - by eexists _, _.
  - cbn [classify_names]. case_bool_decide; [apply IH|].
    destruct (dict_get reference_mapping (strip class_name)); [apply IH|].
    rewrite bind_run. unfold log.
    destruct (IH m d {| fs := fs w;
                        logged := logged w ++
                          [ClassNotInReference class_name old_id dataset] |})
      as (r & w' & -> & Hfs).
    by eexists _, _.
Qed.

Lemma create_class_id_mapping_fs (dataset_yaml_path : path)
    (reference_mapping : list (str * Z)) (w : world) :
  ∃ r w', create_class_id_mapping dataset_yaml_path reference_mapping w
          = (r, w') ∧
          fs w' = fs w ∧
          (∀ x, r = Ok x → is_Some (fs w !! dataset_yaml_path)).
Proof.
  unfold create_class_id_mapping. rewrite bind_run. unfold read_file.
  destruct (fs w !! dataset_yaml_path) as [[content|doc|data|cs|bytes]|] eqn:Hf;
    try (eexists _, _; split; [reflexivity|]; split; [done|]; by intros).
  rewrite bind_run. cbn [yaml_load mret M_ret].
  destruct (names data) as [items|].
  - destruct (classify_names_fs (name (parent dataset_yaml_path))
                reference_mapping items ∅ [] w) as (r & w' & -> & Hfs).
    eexists _, _. split; [reflexivity|]. split; [done|]. eauto.
  - eexists _, _. split; [reflexivity|]. split; [done|]. eauto.
Qed.

(** A whole dataset in preview mode: no file changes, and the statistics
    are those of the real run. The manifest is taken not to be a [.txt]
    file itself, as holds for every [data.yaml]. *)
Lemma normalize_dataset_dry_run (dataset_yaml_path : path)
    (reference_mapping : list (str * Z)) (w : world) :
  ends_with (text ".txt") (name dataset_yaml_path) = false →
  fs (normalize_dataset dataset_yaml_path reference_mapping true w).2 = fs w ∧
  (normalize_dataset dataset_yaml_path reference_mapping true w).1
  = (normalize_dataset dataset_yaml_path reference_mapping false w).1.
Proof.
  intros Hyaml. unfold normalize_dataset. rewrite !bind_run.
  destruct (create_class_id_mapping_fs dataset_yaml_path reference_mapping w)
    as (r & w0 & -> & Hfs0 & Hsome).
  destruct r as [[m d]|e]; [|done].
  specialize (Hsome _ eq_refl).
  rewrite !bind_run. unfold normalize_data_yaml, log, write_file.
  rewrite !bind_run. unfold find_label_files. cbn [fs logged].
  rewrite dom_insert_lookup_L by by rewrite Hfs0.
  set (paths := List.filter is_label_file
                  (List.filter (is_txt_under (parent dataset_yaml_path))
                               (elements (dom (fs w0))))).
  set (wd := {| fs := fs w0;
                logged := logged w0 ++ [WouldNormalize dataset_yaml_path] |}).
  set (ww := {| fs := <[dataset_yaml_path :=
                         YamlFile (normalized_data reference_mapping)]> (fs w0);
                logged := logged w0 |}).
  rewrite !bind_run.
  destruct (normalize_label_files_dry_run paths m d O O wd ww) as [Hw Hr].
  { unfold paths. do 2 apply NoDup_list_filter. apply NoDup_elements. }
  { intros q Hq. unfold ww, wd. cbn [fs]. apply lookup_insert_ne.
    intros <-. apply list_elem_of_In in Hq.
    apply filter_In in Hq as [Hq _]. apply filter_In in Hq as [_ Hq].
    unfold is_txt_under in Hq. apply andb_prop in Hq as [_ Hq].
    congruence. }
  destruct (normalize_label_files paths m d true 0 0 wd) as [rd wd'].
  destruct (normalize_label_files paths m d false 0 0 ww) as [rw ww'].
  cbn [fst snd] in Hw, Hr. subst rw.
  destruct rd as [[tr trm]|e]; cbn [fst snd mret M_ret]; rewrite Hw;
    by rewrite <- Hfs0.
Qed.



End dataset.

(** ** The reconcilers on concrete inputs *)

Example damage_name_code_points :
  text "Vỡ, nứt" = [86; 7905; 44; 32; 110; 7913; 116]%N.
Proof. vm_compute. reflexivity. Qed.

Example coco_first_run :
  normalize_annotation_file annotations_json canonical_doors false coco_world
  = (Ok {| file := annotations_json; categories_found := 1;
           categories_normalized := 1; annotations_updated := 1;
           unmapped_categories := [] |},
     {| fs := {[ annotations_json :=
                   JsonFile {| categories := Some [door];
                               annotations := Some [annotation_of 1;
                                                    annotation_of 99];
                               doc_extra := [] |} ]};
        logged := [] |}).
Proof. vm_compute. reflexivity. Qed.

Example yolo_first_run :
  (@normalize_dataset ascii_table data_yaml yolo_reference false yolo_world).1
  = Ok {| dataset := text "d"; label_files := 1; annotations_remapped := 1;
          annotations_removed := 0; classes_mapped := 1;
          damage_classes := 0 |}.
Proof. vm_compute. reflexivity. Qed.

(** The scenario of the specification: door and bumper swap their IDs. *)
Example swapped_ids_scenario :
  create_class_id_mapping data_yaml swapped_reference swapped_world
  = (Ok ({[0 := 1; 1 := 0]}, []), swapped_world) ∧
  @normalize_lines ascii_table {[0 := 1; 1 := 0]} []
    (readlines (text "0 0.1 0.2 0.3 0.4" ++ [10%N]
                ++ text "1 0.5 0.6 0.7 0.8" ++ [10%N]))
  = ([text "1 0.1 0.2 0.3 0.4"; text "0 0.5 0.6 0.7 0.8"], 2%nat, O).
Proof. split; vm_compute; reflexivity. Qed.

(** The scenario of the specification: every line of a damage class is
    dropped. *)
Example damage_lines_scenario :
  @normalize_lines ascii_table {[0 := 1]} [4]
    (readlines (text "4 0.1 0.2 0.3 0.4" ++ [10%N]
                ++ text "0 0.5 0.6 0.7 0.8" ++ [10%N]
                ++ text "4 0.9 0.9 0.1 0.1" ++ [10%N]))
  = ([text "1 0.5 0.6 0.7 0.8"], 1%nat, 2%nat).
Proof. vm_compute. reflexivity. Qed.

Ltac by_compute := refine (bool_decide_unpack _ _); vm_compute; exact I.

Lemma no_categories_key_untouched_witness :
  normalize_annotation_file annotations_json canonical_doors false bare_world
  = (Ok (zero_stats annotations_json), bare_world).
Proof.
  apply (no_categories_key_untouched annotations_json canonical_doors false
           bare_world bare_document); reflexivity.
Defined.

Lemma damage_takes_precedence_witness :
  ∃ id_mapping damage_class_ids w',
    create_class_id_mapping data_yaml forced_reference forced_world
    = (Ok (id_mapping, damage_class_ids), w') ∧
    4 ∈ damage_class_ids ∧
    id_mapping !! 4 = None ∧
    (∀ any_mapping line tok rest new_lines r rm,
       split line = tok :: rest →
       @py_int ascii_table tok = Some 4 →
       ∃ rm', @label_step ascii_table any_mapping damage_class_ids
                          (new_lines, r, rm) line
              = (new_lines, r, rm')).
Proof.
  apply (@damage_takes_precedence ascii_table data_yaml forced_reference
           forced_world forced_manifest
           [(4, text " Mất "); (0, text "door")] 4 (text " Mất ")).
  - reflexivity.
  - reflexivity.
  - by_compute.
  - by left.
  - by_compute.
Defined.



(** C1 as stated fails for both reconcilers: the annotation with the
    undeclared category ID 99, and the label line with the undeclared
    class ID 9, survive the run unchanged; neither ID is canonical and
    nothing is reported about them. *)
Lemma undeclared_reference_kept_unreported :
  (normalize_annotation_file annotations_json canonical_doors false coco_world
   = (Ok {| file := annotations_json; categories_found := 1;
            categories_normalized := 1; annotations_updated := 1;
            unmapped_categories := [] |},
      {| fs := {[ annotations_json :=
                    JsonFile {| categories := Some [door];
                                annotations := Some [annotation_of 1;
                                                     annotation_of 99];
                                doc_extra := [] |} ]};
         logged := [] |}) ∧
   (99 ∉ canonical_ids canonical_doors)) ∧
  (@normalize_dataset ascii_table data_yaml yolo_reference false yolo_world
   = (Ok {| dataset := text "d"; label_files := 1; annotations_remapped := 1;
            annotations_removed := 0; classes_mapped := 1;
            damage_classes := 0 |},
      {| fs := {[ data_yaml := YamlFile (normalized_data yolo_reference);
                  label_txt := TextFile (text "1 0.1 0.2" ++ [10%N]
                                         ++ text "9 0.3 0.4" ++ [10%N]) ]};
         logged := [] |}) ∧
   (9 ∉ yolo_reference.*2)).
Proof.
  split_and!.
  - vm_compute. reflexivity.
  - by_compute.
  - vm_compute. reflexivity.
  - by_compute.
Qed.

(** C2 as stated fails for both reconcilers. Run again on their own
    output, they report one category normalized, one annotation updated
    and one label line remapped, although nothing changes. And a second
    run can change a label file: with the reference [{door: 1, hood: 9}]
    and a manifest that declares [{0: door}], the first run keeps the
    line [9  0.3   0.4] of the undeclared ID 9 with its runs of spaces;
    the second run, whose manifest now declares 9, rewrites it with single
    spaces and counts it as remapped. *)
Lemma second_run_recounts_and_rewrites :
  (let w1 := (normalize_annotation_file annotations_json canonical_doors
                                        false coco_world).2 in
   normalize_annotation_file annotations_json canonical_doors false w1
   = (Ok {| file := annotations_json; categories_found := 1;
            categories_normalized := 1; annotations_updated := 1;
            unmapped_categories := [] |}, w1)) ∧
  (let w1 := (@normalize_dataset ascii_table data_yaml yolo_reference false
                                 yolo_world).2 in
   let id_mapping := ({[1 := 1]} : gmap Z Z) in
   @create_class_id_mapping data_yaml yolo_reference w1
   = (Ok (id_mapping, []), w1) ∧
   @normalize_label_file ascii_table label_txt id_mapping [] false w1
   = (Ok (1%nat, O), w1) ∧
   @normalize_dataset ascii_table data_yaml yolo_reference false w1
   = (Ok {| dataset := text "d"; label_files := 1; annotations_remapped := 1;
            annotations_removed := 0; classes_mapped := 1;
            damage_classes := 0 |}, w1)) ∧
  (let first := @normalize_dataset ascii_table data_yaml hood_reference false
                                   spaced_world in
   let second := @normalize_dataset ascii_table data_yaml hood_reference
                                    false first.2 in
   first.1
   = Ok {| dataset := text "d"; label_files := 1; annotations_remapped := 1;
           annotations_removed := 0; classes_mapped := 1;
           damage_classes := 0 |} ∧
   fs first.2 !! label_txt
   = Some (TextFile (text "1 0.1 0.2" ++ [10%N]
                     ++ text "9  0.3   0.4" ++ [10%N])) ∧
   second.1
   = Ok {| dataset := text "d"; label_files := 1; annotations_remapped := 2;
           annotations_removed := 0; classes_mapped := 2;
           damage_classes := 0 |} ∧
   fs second.2 !! label_txt
   = Some (TextFile (text "1 0.1 0.2" ++ [10%N]
                     ++ text "9 0.3 0.4" ++ [10%N])) ∧
   fs second.2 ≠ fs first.2).
Proof.
  split; [|split; cbn zeta; split_and!]; try (vm_compute; reflexivity).
  intros Heq.
  assert (fs (@normalize_dataset ascii_table data_yaml hood_reference false
                (@normalize_dataset ascii_table data_yaml hood_reference
                   false spaced_world).2).2 !! label_txt
          = fs (@normalize_dataset ascii_table data_yaml hood_reference
                  false spaced_world).2 !! label_txt) as Hl
    by (by rewrite Heq).
  vm_compute in Hl. discriminate.
Qed.

Lemma surviving_references_accounted_witness :
  (∃ stats data' anns',
     normalize_annotation_file annotations_json canonical_doors false
                               coco_world
     = (Ok stats,
        {| fs := <[annotations_json := JsonFile data']> (fs coco_world);
           logged := logged coco_world |}) ∧
     annotations data' = Some anns' ∧
     length anns' = length [annotation_of 5; annotation_of 99] ∧
     ∀ i ann ann',
       [annotation_of 5; annotation_of 99] !! i = Some ann →
       anns' !! i = Some ann' →
       match category_id ann with
       | Some c =>
         if bool_decide (c ∈ cat_id <$> [{| cat_id := 5;
                                            cat_name := text " door";
                                            cat_extra := [] |}]) then
           ∃ c', category_id ann' = Some c' ∧
                 (c' ∈ canonical_ids canonical_doors ∨
                  (c' = c ∧ ∃ old_name,
                              (c, old_name) ∈ unmapped_categories stats))
         else ann' = ann ∧
              ∀ old_name, (c, old_name) ∉ unmapped_categories stats
       | None => ann' = ann
       end) ∧
  (∃ id_mapping damage_class_ids ds,
     create_class_id_mapping data_yaml yolo_reference yolo_world
     = (Ok (id_mapping, damage_class_ids),
        {| fs := fs yolo_world; logged := logged yolo_world ++ ds |}) ∧
     ∀ (label_path : path) (held : file_content) (content : str)
       (w1 : world),
       fs w1 !! label_path = Some held →
       label_text held = Some content →
       ∃ new_lines stats,
         @normalize_label_file ascii_table label_path id_mapping
                               damage_class_ids false w1
         = (Ok stats,
            {| fs := <[label_path := TextFile (written_text new_lines)]>
                       (fs w1);
               logged := logged w1 ++ fallback_warning label_path held |}) ∧
         (∀ out, out ∈ new_lines →
            ∃ line tok g gs k,
              line ∈ readlines content ∧ split line = tok :: g :: gs ∧
              @py_int ascii_table tok = Some k ∧
              ((∃ c, k ∈ [(0, text "door")].*1 ∧ c ∈ yolo_reference.*2 ∧
                     split out = py_str c :: g :: gs) ∨
               (out = strip line ∧ k ∈ [(0, text "door")].*1 ∧
                ∃ class_name,
                  ClassNotInReference class_name k (name (parent data_yaml))
                  ∈ ds) ∨
               (out = strip line ∧ (k ∉ [(0, text "door")].*1) ∧
                ∀ class_name dataset,
                  ClassNotInReference class_name k dataset ∉ ds))) ∧
         (∀ line tok g gs k,
            line ∈ readlines content →
            split line = tok :: g :: gs →
            @py_int ascii_table tok = Some k →
            k ∉ [(0, text "door")].*1 →
            strip line ∈ new_lines ∧
            ∀ class_name dataset,
              ClassNotInReference class_name k dataset ∉ ds)).
Proof.
  split.
  - apply (proj1 (@surviving_references_accounted ascii_table)
             annotations_json canonical_doors coco_world coco_document);
      reflexivity.
  - apply (proj2 (@surviving_references_accounted ascii_table)
             data_yaml yolo_reference yolo_world yolo_manifest).
    + reflexivity.
    + reflexivity.
    + by_compute.
Defined.

Lemma second_run_keeps_content_recounts_witness :
  (∃ stats1 data1 stats2,
     let w1 := {| fs := <[annotations_json := JsonFile data1]> (fs coco_world);
                  logged := logged coco_world |} in
     normalize_annotation_file annotations_json canonical_doors false
                               coco_world
     = (Ok stats1, w1) ∧
     normalize_annotation_file annotations_json canonical_doors false w1
     = (Ok stats2, w1) ∧
     categories_normalized stats2 = length canonical_doors ∧
     unmapped_categories stats2 = [] ∧
     annotations_updated stats2
     = length (List.filter (refers_to (canonical_ids canonical_doors))
                           (default [] (annotations data1)))) ∧
  (∃ id_mapping damage_class_ids w',
     let w1 := (@normalize_dataset ascii_table data_yaml yolo_reference false
                                   yolo_world).2 in
     create_class_id_mapping data_yaml yolo_reference w1
     = (Ok (id_mapping, damage_class_ids), w') ∧
     (∀ k v, id_mapping !! k = Some v → v = k) ∧
     (∀ c, c ∈ yolo_reference.*2 →
           is_Some (dict_get [(1, text "door")] c)) ∧
     (∀ c class_name,
        dict_get [(1, text "door")] c = Some class_name →
        class_name ∉ DAMAGE_CLASSES →
        id_mapping !! c = Some c ∧ c ∉ damage_class_ids) ∧
     (∀ c g gs,
        id_mapping !! c = Some c →
        c ∉ damage_class_ids →
        Forall token (g :: gs) →
        @normalize_lines ascii_table id_mapping damage_class_ids
          (readlines (written_text [join (text " ") (py_str c :: g :: gs)]))
        = ([join (text " ") (py_str c :: g :: gs)], 1%nat, O))).
Proof.
  split.
  - apply (proj1 (@second_run_keeps_content_recounts ascii_table)
             [door] annotations_json coco_world coco_document
             [{| cat_id := 5; cat_name := text " door"; cat_extra := [] |}]);
      reflexivity.
  - apply (proj2 (proj2 (@second_run_keeps_content_recounts ascii_table))
             [(1, text "door")] data_yaml
             (@normalize_dataset ascii_table data_yaml yolo_reference false
                                 yolo_world).2).
    + vm_compute. reflexivity.
    + vm_compute. reflexivity.
Defined.

(** * Further properties *)

(** ** [normalize_annotation_file] as a function of its own file *)

Lemma normalize_annotation_file_cases (annotation_file : path)
    (standard_categories : list (str * Category)) (dry_run : bool)
    (w : world) :
  normalize_annotation_file annotation_file standard_categories dry_run w
  = (annotation_file_result annotation_file standard_categories
                            (fs w !! annotation_file),
     annotation_file_effect annotation_file standard_categories dry_run w).
Proof.
  unfold annotation_file_result, annotation_file_effect.
  destruct (fs w !! annotation_file) as [[s|data|m|cs|bytes]|] eqn:Hf;
    try (unfold normalize_annotation_file, mbind, M_bind, read_file;
         by rewrite Hf).
  destruct (categories data) as [cats|] eqn:Hc.
  - rewrite (normalize_annotation_file_run _ _ _ _ _ _ Hf Hc).
    unfold category_table.
    by destruct (fold_left _ cats _) as [[m n] u].
  - unfold normalize_annotation_file, mbind, M_bind, read_file.
    rewrite Hf. cbn [json_load mret M_ret]. by rewrite Hc.
Qed.

Lemma category_fold_counts (standard_categories : list (str * Category))
    (cats : list Category) (m : gmap Z Z) (n : nat) (u : list (Z * str)) :
  ∃ m',
    fold_left (category_step standard_categories) cats (m, n, u)
    = (m',
       (n + length (List.filter (is_known standard_categories) cats))%nat,
       u ++ (unmapped_entry <$>
               List.filter (λ cat, negb (is_known standard_categories cat))
                           cats)).
Proof.
  revert m n u. induction cats as [|cat rest IH]; intros m n u.
  { exists m. simpl. by rewrite Nat.add_0_r, app_nil_r. }
  cbn [fold_left List.filter]. unfold category_step at 2.
  destruct (dict_get standard_categories (strip (cat_name cat)))
    as [std_cat|] eqn:Hg.
  - assert (is_known standard_categories cat = true) as ->.
    { unfold is_known. rewrite Hg. apply bool_decide_eq_true. eauto. }
    cbn [negb].
    destruct (IH (<[cat_id cat := cat_id std_cat]> m) (S n) u) as [m' ->].
    exists m'. cbn [length]. by rewrite Nat.add_succ_r.
  - assert (is_known standard_categories cat = false) as ->.
    { unfold is_known. rewrite Hg. apply bool_decide_eq_false. by intros [? ?]. }
    cbn [negb].
    destruct (IH (<[cat_id cat := cat_id cat]> m) n
                 (u ++ [(cat_id cat, strip (cat_name cat))])) as [m' ->].
    exists m'. rewrite fmap_cons, <- app_assoc. done.
Qed.

Lemma filter_split_length {A} (f : A → bool) (l : list A) :
  (length (List.filter f l) + length (List.filter (λ x, negb (f x)) l))%nat
  = length l.
Proof.
  induction l as [|x l IH]; [done|].
  simpl. destruct (f x); simpl; lia.
Qed.

Lemma filter_length_le {A} (f : A → bool) (l : list A) :
  (length (List.filter f l) ≤ length l)%nat.
Proof.
  induction l as [|x l IH]; [done|].
  simpl. destruct (f x); simpl; lia.
Qed.

(** X1. The statistics of one annotation file add up: the categories
    counted as normalized are those whose trimmed name the standard
    mapping knows, the unmapped list holds the others with their ID and
    trimmed name in the order of the file, so found = normalized +
    unmapped; and no more annotations are counted than there are. *)
Theorem annotation_statistics_add_up (annotation_file : path)
    (standard_categories : list (str * Category)) (dry_run : bool)
    (w : world) (data : Document) (cats : list Category) :
  fs w !! annotation_file = Some (JsonFile data) →
  categories data = Some cats →
  ∃ stats w',
    normalize_annotation_file annotation_file standard_categories dry_run w
    = (Ok stats, w') ∧
    file stats = annotation_file ∧
    categories_found stats = length cats ∧
    categories_normalized stats
    = length (List.filter (is_known standard_categories) cats) ∧
    unmapped_categories stats
    = unmapped_entry <$>
        List.filter (λ cat, negb (is_known standard_categories cat)) cats ∧
    categories_found stats
    = (categories_normalized stats + length (unmapped_categories stats))%nat ∧
    (annotations_updated stats ≤ length (default [] (annotations data)))%nat.
Proof.
  intros Hf Hc. rewrite normalize_annotation_file_cases, Hf.
  unfold annotation_file_result. rewrite Hc.
  destruct (category_fold_counts standard_categories cats ∅ O []) as [m ->].
  eexists _, _. split; [reflexivity|]. cbn.
  split_and!; try done.
  - rewrite length_fmap. symmetry. apply filter_split_length.
  - destruct (annotations data) as [anns|]; cbn; [|lia].
    apply filter_length_le.
Qed.






(** ** Loading the canonical mappings *)

Section dict_more.
Context {K V : Type} `{EqDecision K}.
Implicit Types (d : list (K * V)) (k : K) (v : V).

Lemma dict_set_fresh d k v :
  k ∉ dict_keys d → dict_set d k v = d ++ [(k, v)].
Proof.
  unfold dict_keys. induction d as [|[k' v'] r IH]; [done|].
  simpl. intros [Hne Hk]%not_elem_of_cons.
  rewrite decide_False by done. by rewrite IH.
Qed.

Lemma dict_set_values d k v x :
  x ∈ (dict_set d k v).*2 → x = v ∨ x ∈ d.*2.
Proof.
  induction d as [|[k' v'] r IH]; simpl.
  - intros ->%list_elem_of_singleton. by left.
  - destruct (decide (k = k')); rewrite !fmap_cons, !elem_of_cons; simpl.
    + intros [->|?]; [by left|right; by right].
    + intros [->|[->|?]%IH]; [right; by left|by left|right; by right].
Qed.

Lemma dict_set_values_NoDup d k v :
  NoDup d.*2 → v ∉ d.*2 → NoDup (dict_set d k v).*2.
Proof.
  induction d as [|[k' v'] r IH]; simpl.
  - intros _ _. apply NoDup_singleton.
  - intros [Hv' Hr]%NoDup_cons [Hne Hv]%not_elem_of_cons.
    destruct (decide (k = k')); simpl.
    + by apply NoDup_cons.
    + apply NoDup_cons. split; [|by apply IH].
      intros [->|?]%dict_set_values; done.
Qed.

Lemma dict_set_length d k v :
  (length (dict_set d k v) ≤ S (length d))%nat.
Proof.
  induction d as [|[k' v'] r IH]; simpl; [lia|].
  destruct (decide (k = k')); simpl; lia.
Qed.

End dict_more.

Lemma last_cons_filter {A} (x : A) (l : list A) :
  last (x :: l) = match last l with Some y => Some y | None => Some x end.
Proof. destruct l as [|y l]; [done|]. rewrite last_cons_cons. by destruct (last (y :: l)) eqn:E; [|apply last_None in E]. Qed.

Lemma load_standard_categories_lookup (cats : list Category)
    (acc : list (str * Category)) (k : str) :
  dict_get (fold_left (λ name_to_category cat,
                         dict_set name_to_category (strip (cat_name cat)) cat)
                      cats acc) k
  = match last (List.filter (λ c, bool_decide (strip (cat_name c) = k)) cats)
    with
    | Some c => Some c
    | None => dict_get acc k
    end.
Proof.
  revert acc. induction cats as [|cat rest IH]; intros acc; [done|].
  cbn [fold_left List.filter]. rewrite IH. case_bool_decide as Hk.
  - rewrite last_cons_filter.
    destruct (last (List.filter _ rest)); [done|].
    subst k. apply dict_get_set_eq.
  - destruct (last (List.filter _ rest)); [done|].
    by apply dict_get_set_ne.
Qed.

Lemma load_standard_categories_length (cats : list Category)
    (acc : list (str * Category)) :
  (length (fold_left (λ name_to_category cat,
                        dict_set name_to_category (strip (cat_name cat)) cat)
                     cats acc) ≤ length acc + length cats)%nat.
Proof.
  revert acc. induction cats as [|cat rest IH]; intros acc; simpl; [lia|].
  etrans; [apply IH|].
  pose proof (dict_set_length acc (strip (cat_name cat)) cat). lia.
Qed.

(** X3. The standard mapping loaded from a category file has one entry
    per trimmed name: looking a name up gives the last category of the
    file whose trimmed name it is, so a repeated name silently loses its
    earlier records, and every category of the file is found under its
    trimmed name. Loading changes nothing. *)
Theorem standard_categories_last_wins (categories_file : path) (w : world)
    (cats : list Category) :
  fs w !! categories_file = Some (CategoriesFile cats) →
  ∃ standard_categories,
    load_standard_categories categories_file w = (Ok standard_categories, w) ∧
    NoDup (dict_keys standard_categories) ∧
    (length standard_categories ≤ length cats)%nat ∧
    (∀ k, dict_get standard_categories k
          = last (List.filter (λ c, bool_decide (strip (cat_name c) = k))
                              cats)) ∧
    (∀ cat, cat ∈ cats → is_known standard_categories cat = true).
Proof.
  intros Hf. exists (load_standard_categories_list cats).
  assert (∀ k, dict_get (load_standard_categories_list cats) k
               = last (List.filter
                         (λ c, bool_decide (strip (cat_name c) = k)) cats))
    as Hlookup.
  { intros k. unfold load_standard_categories_list.
    rewrite load_standard_categories_lookup.
    by destruct (last (List.filter _ cats)). }
  split_and!.
  - unfold load_standard_categories, mbind, M_bind, read_file.
    by rewrite Hf.
  - apply (load_standard_categories_spec cats []); [apply NoDup_nil_2|].
    intros ? ? Hin. by apply elem_of_nil in Hin.
  - apply (load_standard_categories_length cats []).
  - done.
  - intros cat Hcat. unfold is_known. apply bool_decide_eq_true.
    rewrite Hlookup.
    destruct (last (List.filter _ cats)) as [c|] eqn:E; [eauto|].
    apply last_None in E. exfalso.
    apply list_elem_of_In in Hcat.
    assert (In cat []) as Hin; [|done]. rewrite <- E.
    apply filter_In. split; [done|]. by apply bool_decide_eq_true.
Qed.

Lemma load_reference_mapping_lookup (items : list (Z * str))
    (acc : list (str * Z)) (k : str) :
  dict_get (fold_left (λ class_mapping '(class_id, class_name),
                         dict_set class_mapping (strip class_name) class_id)
                      items acc) k
  = match last (List.filter (λ item, bool_decide (strip item.2 = k)) items)
    with
    | Some item => Some item.1
    | None => dict_get acc k
    end.
Proof.
  revert acc. induction items as [|[i n] rest IH]; intros acc; [done|].
  cbn [fold_left List.filter snd]. rewrite IH. case_bool_decide as Hk.
  - rewrite last_cons_filter.
    destruct (last (List.filter _ rest)); [done|].
    subst k. apply dict_get_set_eq.
  - destruct (last (List.filter _ rest)); [done|].
    by apply dict_get_set_ne.
Qed.

Lemma load_reference_mapping_values (items : list (Z * str))
    (acc : list (str * Z)) :
  NoDup items.*1 → NoDup acc.*2 →
  (∀ i, i ∈ items.*1 → i ∉ acc.*2) →
  NoDup (fold_left (λ class_mapping '(class_id, class_name),
                      dict_set class_mapping (strip class_name) class_id)
                   items acc).*2.
Proof.
  revert acc. induction items as [|[i n] rest IH]; intros acc; [done|].
  rewrite fmap_cons. intros [Hi Hrest]%NoDup_cons Hacc Hfresh.
  cbn [fold_left]. apply IH; [done|..].
  - apply dict_set_values_NoDup; [done|]. apply Hfresh. by left.
  - intros j Hj [->|Hin]%dict_set_values; [done|].
    apply (Hfresh j); [by right|done].
Qed.

(** X4. The reference mapping loaded from a reference manifest has
    distinct, trimmed names as keys; a name gives the last ID the
    manifest declares under that trimmed name; distinct IDs in the
    manifest give distinct IDs in the mapping. Loading writes no file and
    logs one line. *)
Theorem reference_mapping_last_wins (reference_path : path) (w : world)
    (data : Manifest) (items : list (Z * str)) :
  fs w !! reference_path = Some (YamlFile data) →
  names data = Some items →
  ∃ reference_mapping,
    load_reference_mapping reference_path w
    = (Ok reference_mapping,
       {| fs := fs w;
          logged := logged w
                    ++ [LoadedReference (length reference_mapping)
                                        reference_path] |}) ∧
    NoDup (dict_keys reference_mapping) ∧
    (∀ k, k ∈ dict_keys reference_mapping → strip k = k) ∧
    (∀ k, dict_get reference_mapping k
          = fst <$> last (List.filter (λ item, bool_decide (strip item.2 = k))
                                      items)) ∧
    (NoDup items.*1 → NoDup reference_mapping.*2).
Proof.
  intros Hf Hn. exists (load_reference_mapping_names items).
  destruct (load_reference_mapping_spec items [] (NoDup_nil_2)) as [Hnd Hkeys].
  { intros k Hk. by apply elem_of_nil in Hk. }
  split_and!; [|done|done|..].
  - unfold load_reference_mapping, mbind, M_bind, path_exists, read_file.
    rewrite Hf. rewrite bool_decide_true by eauto.
    cbn [negb]. rewrite ?Hf. cbn [yaml_load mret M_ret]. by rewrite Hn.
  - intros k. unfold load_reference_mapping_names.
    rewrite load_reference_mapping_lookup.
    by destruct (last (List.filter _ items)).
  - intros Hids. apply load_reference_mapping_values; [done|constructor|].
    intros i _ Hi. by apply elem_of_nil in Hi.
Qed.

Lemma invert_names_fresh (reference_mapping : list (str * Z))
    (acc : list (Z * str)) :
  NoDup reference_mapping.*2 →
  (∀ i, i ∈ reference_mapping.*2 → i ∉ dict_keys acc) →
  fold_left (λ d '(class_name, class_id), dict_set d class_id class_name)
            reference_mapping acc
  = acc ++ ((λ entry : str * Z, (entry.2, entry.1)) <$> reference_mapping).
Proof.
  revert acc. induction reference_mapping as [|[n i] rest IH]; intros acc.
  { intros _ _. by rewrite app_nil_r. }
  rewrite fmap_cons. intros [Hi Hrest]%NoDup_cons Hfresh.
  cbn [fold_left]. rewrite dict_set_fresh by (apply Hfresh; by left).
  rewrite IH; [by rewrite <- app_assoc|done|].
  intros j Hj. unfold dict_keys. rewrite fmap_app, elem_of_app.
  intros [Hin|Hin].
  - apply (Hfresh j); [by right|done].
  - apply list_elem_of_singleton in Hin. simpl in Hin. by subst j.
Qed.

Lemma load_names_fresh (items : list (Z * str)) (acc : list (str * Z)) :
  NoDup items.*2 →
  (∀ n, n ∈ items.*2 → strip n = n ∧ n ∉ dict_keys acc) →
  fold_left (λ class_mapping '(class_id, class_name),
               dict_set class_mapping (strip class_name) class_id)
            items acc
  = acc ++ ((λ item : Z * str, (item.2, item.1)) <$> items).
Proof.
  revert acc. induction items as [|[i n] rest IH]; intros acc.
  { intros _ _. by rewrite app_nil_r. }
  rewrite fmap_cons. intros [Hn Hrest]%NoDup_cons Hfresh.
  destruct (Hfresh n) as [Hs Hk]; [by left|].
  cbn [fold_left]. rewrite Hs, dict_set_fresh by done.
  rewrite IH; [by rewrite <- app_assoc|done|].
  intros m Hm. split; [apply Hfresh; by right|].
  unfold dict_keys. rewrite fmap_app, elem_of_app.
  intros [Hin|Hin].
  - destruct (Hfresh m) as [_ Hk']; [by right|done].
  - apply list_elem_of_singleton in Hin. simpl in Hin. by subst m.
Qed.

Lemma swapped_names (l : list (str * Z)) :
  ((λ entry : str * Z, (entry.2, entry.1)) <$> l).*2 = l.*1.
Proof.
  rewrite <- list_fmap_compose. apply list_fmap_ext. by intros ? [? ?] _.
Qed.

(** X5. A manifest written by [normalize_data_yaml] loads back, through
    [load_reference_mapping], as the very reference mapping it was
    written from, provided that mapping has distinct trimmed names and
    distinct IDs: every normalized dataset can serve as the reference. *)
Theorem rewritten_manifest_loads_back (dataset_yaml_path : path)
    (reference_mapping : list (str * Z)) (w : world) :
  NoDup reference_mapping.*1 →
  NoDup reference_mapping.*2 →
  (∀ k, k ∈ reference_mapping.*1 → strip k = k) →
  let w1 := (normalize_data_yaml dataset_yaml_path reference_mapping
                                 false w).2 in
  load_reference_mapping dataset_yaml_path w1
  = (Ok reference_mapping,
     {| fs := fs w1;
        logged := logged w1
                  ++ [LoadedReference (length reference_mapping)
                                      dataset_yaml_path] |}).
Proof.
  intros Hnames Hids Hstrip w1.
  assert (fs w1 !! dataset_yaml_path
          = Some (YamlFile (normalized_data reference_mapping))) as Hf
    by apply lookup_insert_eq.
  unfold load_reference_mapping, mbind, M_bind, path_exists, read_file.
  rewrite Hf. rewrite bool_decide_true by eauto.
  cbn [negb]. rewrite ?Hf. cbn [yaml_load mret M_ret normalized_data names].
  rewrite invert_names_fresh; [|done|].
  2:{ intros i _ Hi. by apply elem_of_nil in Hi. }
  cbn [app]. unfold load_reference_mapping_names.
  rewrite load_names_fresh.
  - cbn [app]. rewrite <- list_fmap_compose.
    assert ((λ item : Z * str, (item.2, item.1))
              ∘ (λ entry : str * Z, (entry.2, entry.1))
            <$> reference_mapping = reference_mapping) as ->; [|done].
    rewrite <- (list_fmap_id reference_mapping) at 2.
    apply list_fmap_ext. by intros ? [? ?] _.
  - by rewrite swapped_names.
  - intros n Hn. rewrite swapped_names in Hn.
    split; [by apply Hstrip|]. intros Hin. by apply elem_of_nil in Hin.
Qed.

(** ** Every declared class is accounted for once *)

Lemma classify_names_count (dataset : str) (reference_mapping : list (str * Z))
    (items : list (Z * str)) (id_mapping : gmap Z Z)
    (damage_class_ids : list Z) (w : world) :
  NoDup items.*1 →
  (∀ k, k ∈ items.*1 → id_mapping !! k = None) →
  ∃ id_mapping' ds,
    classify_names dataset reference_mapping items id_mapping
                   damage_class_ids w
    = (Ok (id_mapping',
           damage_class_ids ++ (List.filter is_damage_item items).*1),
       {| fs := fs w; logged := logged w ++ ds |}) ∧
    (size id_mapping'
     + length (List.filter is_damage_item items) + length ds
     = size id_mapping + length items)%nat.
Proof.
  revert id_mapping damage_class_ids w.
  induction items as [|[old_id class_name] rest IH]; intros m d w Hnd Hfresh.
  { exists m, []. split.
    - simpl. unfold mret, M_ret. rewrite !app_nil_r. by destruct w.
    - simpl. lia. }
  rewrite fmap_cons in Hnd. apply NoDup_cons in Hnd as [Hold Hnd].
  cbn [classify_names List.filter].
  change (bool_decide (strip class_name ∈ DAMAGE_CLASSES))
    with (is_damage_item (old_id, class_name)).
  destruct (is_damage_item (old_id, class_name)).
  - destruct (IH m (d ++ [old_id]) w Hnd) as (m' & ds & -> & Hcount).
    { intros k Hk. apply Hfresh. rewrite fmap_cons. by right. }
    exists m', ds. split.
    + by rewrite fmap_cons, <- app_assoc.
    + cbn [length]. lia.
  - destruct (dict_get reference_mapping (strip class_name)) as [new_id|].
    + destruct (IH (<[old_id := new_id]> m) d w Hnd) as (m' & ds & -> & Hcount).
      { intros k Hk. rewrite lookup_insert_ne.
        - apply Hfresh. rewrite fmap_cons. by right.
        - intros <-. done. }
      exists m', ds. split; [done|].
      rewrite map_size_insert_None in Hcount.
      * cbn [length]. lia.
      * apply Hfresh. rewrite fmap_cons. by left.
    + unfold mbind, M_bind, log.
      destruct (IH m d
                   {| fs := fs w;
                      logged := logged w
                                ++ [ClassNotInReference class_name old_id
                                                        dataset] |} Hnd)
        as (m' & ds & -> & Hcount).
      { intros k Hk. apply Hfresh. rewrite fmap_cons. by right. }
      exists m', (ClassNotInReference class_name old_id dataset :: ds). split.
      * cbn [fs logged]. by rewrite <- app_assoc.
      * cbn [length]. lia.
Qed.

(** X6. [create_class_id_mapping] writes no file and accounts for every
    declared class exactly once: it is in the remap table, or among the
    damage IDs, or warned about, so that mapped + damage + warnings is
    the number of declared classes; the damage IDs come in the order of
    the declaration. *)
Theorem declared_classes_accounted (dataset_yaml_path : path)
    (reference_mapping : list (str * Z)) (w : world) (data : Manifest)
    (items : list (Z * str)) :
  fs w !! dataset_yaml_path = Some (YamlFile data) →
  names data = Some items →
  NoDup items.*1 →
  ∃ id_mapping damage_class_ids ds,
    create_class_id_mapping dataset_yaml_path reference_mapping w
    = (Ok (id_mapping, damage_class_ids),
       {| fs := fs w; logged := logged w ++ ds |}) ∧
    damage_class_ids = (List.filter is_damage_item items).*1 ∧
    (size id_mapping + length damage_class_ids + length ds
     = length items)%nat.
Proof.
  intros Hf Hn Hnd.
  destruct (classify_names_count (name (parent dataset_yaml_path))
              reference_mapping items ∅ [] w Hnd)
    as (m & ds & Hrun & Hcount); [done|].
  exists m, (List.filter is_damage_item items).*1, ds. split_and!.
  - unfold create_class_id_mapping, mbind, M_bind, read_file.
    rewrite Hf. cbn [yaml_load mret M_ret]. rewrite Hn. exact Hrun.
  - done.
  - rewrite length_fmap. rewrite map_size_empty in Hcount. lia.
Qed.

(** ** The label loop, line by line *)

Lemma lstrip_app (s t : str) :
  lstrip (s ++ t) = match lstrip s with [] => lstrip t | _ => lstrip s ++ t end.
Proof.
  induction s as [|a s IH]; [done|].
  simpl. by destruct (isspace a).
Qed.

Lemma strip_app_space (s : str) (c : N) :
  isspace c = true → strip (s ++ [c]) = strip s.
Proof.
  intros Hc. unfold strip. rewrite lstrip_app.
  destruct (lstrip s) as [|a r] eqn:E.
  - simpl. by rewrite Hc.
  - by rewrite rstrip_app_space.
Qed.

Lemma Forall_lstrip (P : N → Prop) (s : str) :
  Forall P s → Forall P (lstrip s).
Proof.
  induction 1 as [|a s Ha Hs IH]; [done|].
  simpl. destruct (isspace a); [done|by constructor].
Qed.

Lemma Forall_strip (P : N → Prop) (s : str) :
  Forall P s → Forall P (strip s).
Proof.
  intros Hs. unfold strip, rstrip.
  apply Forall_reverse, Forall_lstrip, Forall_reverse. by apply Forall_lstrip.
Qed.

(** Every line read is free of line breaks but for its terminator. *)
Lemma readlines_from_lines (cur s : str) (line : str) :
  no_line_break cur →
  line ∈ readlines_from cur s →
  ∃ body, no_line_break body ∧ (line = body ++ [10%N] ∨ line = body).
Proof.
  remember (length s) as n eqn:Hn. revert s cur Hn.
  induction n as [n IH] using lt_wf_ind. intros s cur -> Hcur.
  destruct s as [|c r]; cbn [readlines_from].
  { destruct cur as [|a cur']; [intros Hin; by apply elem_of_nil in Hin|].
    intros ->%list_elem_of_singleton. exists (reverse (a :: cur')).
    split; [by apply Forall_reverse|by right]. }
  assert (∀ t, (length t < length (c :: r))%nat →
               line ∈ readlines_from [] t →
               ∃ body, no_line_break body ∧
                       (line = body ++ [10%N] ∨ line = body)) as Hrec.
  { intros t Ht. by apply (IH (length t) Ht t []); [|constructor]. }
  assert (∃ body, no_line_break body ∧
                  (reverse (10%N :: cur) = body ++ [10%N]
                   ∨ reverse (10%N :: cur) = body)) as Hterm.
  { exists (reverse cur). split; [by apply Forall_reverse|].
    left. by rewrite reverse_cons. }
  destruct (N.eqb_spec c 10) as [->|H10].
  { intros [->|Hin]%elem_of_cons; [done|].
    apply (Hrec r); [simpl; lia|done]. }
  destruct (N.eqb_spec c 13) as [->|H13].
  { destruct r as [|c' r'].
    - intros ->%list_elem_of_singleton. done.
    - destruct (c' =? 10)%N.
      + intros [->|Hin]%elem_of_cons; [done|].
        apply (Hrec r'); [simpl; lia|done].
      + intros [->|Hin]%elem_of_cons; [done|].
        apply (Hrec (c' :: r')); [simpl; lia|done]. }
  apply (IH (length r)); [simpl; lia|done|].
  by constructor.
Qed.

Lemma readlines_lines (content line : str) :
  line ∈ readlines content →
  ∃ body, no_line_break body ∧ (line = body ++ [10%N] ∨ line = body).
Proof. apply readlines_from_lines. constructor. Qed.

Lemma readlines_from_cons_line (cur l rest : str) :
  no_line_break l →
  readlines_from cur (l ++ 10%N :: rest)
  = (reverse cur ++ l ++ [10%N]) :: readlines_from [] rest.
Proof.
  intros Hl. revert cur. induction Hl as [|c l [H10 H13] Hl IH]; intros cur.
  - simpl. by rewrite reverse_cons.
  - cbn [app readlines_from].
    apply N.eqb_neq in H10, H13. rewrite H10, H13.
    rewrite IH, reverse_cons, <- app_assoc. done.
Qed.

(** Reading back what was written gives the lines written, each with its
    line feed, when no line contains a line break. *)
Lemma readlines_written_text (new_lines : list str) :
  Forall no_line_break new_lines →
  readlines (written_text new_lines) = (λ l, l ++ [10%N]) <$> new_lines.
Proof.
  intros Hall. rewrite written_text_lines. unfold readlines.
  induction Hall as [|l ls Hl Hls IH]; [done|].
  rewrite fmap_cons. cbn [mjoin list_join]. rewrite <- app_assoc.
  cbn [app]. rewrite readlines_from_cons_line by done.
  f_equal. exact IH.
Qed.

Lemma mjoin_cons {A} (x : list A) (l : list (list A)) :
  mjoin (x :: l) = x ++ mjoin l.
Proof. reflexivity. Qed.

Section lines_more.
Context `{!DecimalTable}.

Lemma line_outcome_cases (id_mapping : gmap Z Z) (damage_class_ids : list Z)
    (line : str) :
  (malformed line ∧
   line_outcome id_mapping damage_class_ids line = Skipped) ∨
  (¬ malformed line ∧
   ∃ tok g gs k,
     split line = tok :: g :: gs ∧ py_int tok = Some k ∧
     line_outcome id_mapping damage_class_ids line
     = if bool_decide (k ∈ damage_class_ids) then Removed
       else match id_mapping !! k with
            | Some c => Remapped (join (text " ") (py_str c :: g :: gs))
            | None => Kept (strip line)
            end).
Proof.
  destruct (decide (malformed line)) as [Hm|Hm].
  { left. split; [done|]. by apply malformed_skipped. }
  right. split; [done|]. unfold malformed in Hm. unfold line_outcome.
  destruct (split line) as [|tok [|g gs]] eqn:Hs;
    try (exfalso; apply Hm; left; simpl; lia).
  destruct (py_int tok) as [k|] eqn:Hp; [|exfalso; apply Hm; by right].
  by exists tok, g, gs, k.
Qed.

(** X7. The loop treats every line on its own: the result for two lists
    of lines one after the other is the two results put together, lines
    appended and counters added. *)
Theorem normalize_lines_app (id_mapping : gmap Z Z)
    (damage_class_ids : list Z) (lines1 lines2 : list str) :
  normalize_lines id_mapping damage_class_ids (lines1 ++ lines2)
  = (let '(new1, r1, rm1) :=
       normalize_lines id_mapping damage_class_ids lines1 in
     let '(new2, r2, rm2) :=
       normalize_lines id_mapping damage_class_ids lines2 in
     (new1 ++ new2, (r1 + r2)%nat, (rm1 + rm2)%nat)).
Proof.
  rewrite !normalize_lines_outcomes. cbn zeta.
  by rewrite !fmap_app, join_app, !sum_list_with_app.
Qed.

(** X8. Every line read has exactly one fate: it is written (remapped
    or kept), or removed as damage, or skipped as malformed; and only
    written lines are counted as remapped. *)
Theorem every_line_has_one_fate (id_mapping : gmap Z Z)
    (damage_class_ids : list Z) (lines new_lines : list str)
    (num_remapped num_removed : nat) :
  normalize_lines id_mapping damage_class_ids lines
  = (new_lines, num_remapped, num_removed) →
  length lines
  = (length new_lines + num_removed
     + length (List.filter (λ l, bool_decide (malformed l)) lines))%nat ∧
  (num_remapped ≤ length new_lines)%nat.
Proof.
  rewrite normalize_lines_outcomes. cbn zeta. intros [= <- <- <-].
  induction lines as [|line rest [IH1 IH2]]; [done|].
  rewrite !fmap_cons, mjoin_cons, length_app.
  cbn [sum_list_with List.filter length].
  destruct (line_outcome_cases id_mapping damage_class_ids line)
    as [[Hm ->]|[Hm (tok & g & gs & k & _ & _ & ->)]].
  - rewrite (bool_decide_true (malformed line)) by done.
    cbn [emitted remapped removed length]. split; lia.
  - rewrite (bool_decide_false (malformed line)) by done.
    case_bool_decide;
      [cbn [emitted remapped removed length]; split; lia|].
    destruct (id_mapping !! k); cbn [emitted remapped removed length];
      split; lia.
Qed.

(** What the loop emits for the lines of a file that was read. *)
Lemma normalize_lines_output_clean (id_mapping : gmap Z Z)
    (damage_class_ids : list Z) (content out : str) :
  out ∈ (normalize_lines id_mapping damage_class_ids
                         (readlines content)).1.1 →
  trimmed out ∧ ¬ malformed out ∧ no_line_break out.
Proof.
  intros Hin. apply normalize_lines_emitted in Hin as (line & Hline & Hem).
  apply line_outcome_emitted in Hem
    as (tok & g & gs & k & Hs & Hp & _ & Hcases).
  pose proof (split_tokens line) as Ht. rewrite Hs in Ht.
  apply Forall_cons in Ht as [_ Ht].
  destruct Hcases as [(c & _ & ->)|[_ ->]].
  - assert (Forall token (py_str c :: g :: gs)) as Hall
      by (constructor; [apply py_str_token|done]).
    split_and!.
    + by apply join_trimmed.
    + unfold malformed. rewrite split_join by done. cbn [length hd].
      rewrite py_int_py_str. intros [?|?]; [lia|done].
    + by apply join_no_newline.
  - split_and!.
    + destruct (strip_cases line) as [E|?]; [|done].
      apply strip_nil_split in E. by rewrite Hs in E.
    + unfold malformed. rewrite split_strip, Hs. cbn [length hd].
      rewrite Hp. intros [?|?]; [lia|done].
    + apply readlines_lines in Hline as (body & Hbody & [->| ->]).
      * rewrite strip_app_space by done. by apply Forall_strip.
      * by apply Forall_strip.
Qed.

(** X9. The lines written back are clean: each one is free of
    surrounding whitespace and of line breaks, has at least two tokens
    and starts with an integer. *)
Theorem written_lines_are_clean (id_mapping : gmap Z Z)
    (damage_class_ids : list Z) (content out : str) :
  out ∈ (normalize_lines id_mapping damage_class_ids
                         (readlines content)).1.1 →
  trimmed out ∧ ¬ malformed out ∧ no_line_break out.
Proof. apply normalize_lines_output_clean. Qed.

Lemma clean_line_kept (line : str) :
  trimmed line → ¬ malformed line →
  line_outcome ∅ [] (line ++ [10%N]) = Kept line.
Proof.
  intros Ht Hm.
  destruct (line_outcome_cases ∅ [] (line ++ [10%N]))
    as [[Hm' _]|[_ (tok & g & gs & k & _ & _ & ->)]].
  - exfalso. apply Hm. unfold malformed in *.
    by rewrite split_app_space in Hm'.
  - rewrite bool_decide_false by apply not_elem_of_nil.
    rewrite lookup_empty. by rewrite strip_trimmed_newline.
Qed.

Lemma clean_lines_kept (ls : list str) :
  Forall (λ l, trimmed l ∧ ¬ malformed l) ls →
  normalize_lines ∅ [] ((λ l, l ++ [10%N]) <$> ls) = (ls, O, O).
Proof.
  rewrite normalize_lines_outcomes. cbn zeta.
  induction 1 as [|l ls [Ht Hm] Hls IH]; [done|].
  rewrite !fmap_cons, clean_line_kept, mjoin_cons by done.
  cbn [sum_list_with emitted remapped removed app].
  by injection IH as -> -> ->.
Qed.

(** X10. A label file that [normalize_label_file] has written is a fixed
    point of the pass without tables: run again with an empty remap
    table and no damage IDs, the file is read back line for line and
    written as it is, and nothing is counted. *)
Theorem rewritten_file_passes_unchanged (label_path : path)
    (id_mapping : gmap Z Z) (damage_class_ids : list Z) (w : world)
    (content : str) :
  fs w !! label_path = Some (TextFile content) →
  let w1 := (normalize_label_file label_path id_mapping damage_class_ids
                                  false w).2 in
  normalize_label_file label_path ∅ [] false w1 = (Ok (O, O), w1).
Proof.
  intros Hf w1. subst w1.
  rewrite (normalize_label_file_text _ _ _ _ _ _ Hf).
  pose proof (normalize_lines_output_clean id_mapping damage_class_ids content)
    as Hclean.
  destruct (normalize_lines _ _ (readlines content)) as [[nl r] rm].
  cbn [fst snd] in *.
  set (w1 := {| fs := <[label_path := TextFile (written_text nl)]> (fs w);
                logged := logged w |}).
  assert (fs w1 !! label_path = Some (TextFile (written_text nl))) as Hf1
    by apply lookup_insert_eq.
  rewrite (normalize_label_file_text _ _ _ _ _ _ Hf1).
  rewrite readlines_written_text.
  2:{ apply Forall_forall. intros l Hl. by apply Hclean. }
  rewrite clean_lines_kept.
  2:{ apply Forall_forall. intros l Hl.
      destruct (Hclean l Hl) as (? & ? & _). done. }
  f_equal. unfold w1. cbn [fs logged]. by rewrite insert_insert_eq.
Qed.

End lines_more.

(** ** What a dataset run can touch *)

Section dataset_more.
Context `{!DecimalTable}.

Lemma label_file_effect_dom (id_mapping : gmap Z Z)
    (damage_class_ids : list Z) (dry_run : bool) (label_path : path)
    (w : world) :
  dom (fs (label_file_effect id_mapping damage_class_ids dry_run
                             label_path w)) = dom (fs w) ∧
  logged w `prefix_of`
    logged (label_file_effect id_mapping damage_class_ids dry_run
                              label_path w).
Proof.
  unfold label_file_effect.
  destruct (fs w !! label_path) as [[content|doc|m|cs|bytes]|] eqn:Hf;
    try done.
  - destruct dry_run; [done|]. cbn [fs logged]. split; [|done].
    apply dom_insert_lookup_L. by rewrite Hf.
  - cbn [fs logged]. split; [|by apply prefix_app_r].
    destruct dry_run; [done|]. apply dom_insert_lookup_L. by rewrite Hf.
Qed.

(** The loop over the label files touches only the files it is given,
    creates and deletes none, and only adds to the log. *)
Lemma normalize_label_files_frame (paths : list path) (id_mapping : gmap Z Z)
    (damage_class_ids : list Z) (dry_run : bool)
    (total_remapped total_removed : nat) (w : world) :
  let w' := (normalize_label_files paths id_mapping damage_class_ids dry_run
                                   total_remapped total_removed w).2 in
  (∀ q, q ∉ paths → fs w' !! q = fs w !! q) ∧
  dom (fs w') = dom (fs w) ∧
  logged w `prefix_of` logged w'.
Proof.
  revert total_remapped total_removed w.
  induction paths as [|p rest IH]; intros a b w; [done|].
  cbn [normalize_label_files]. rewrite bind_run, normalize_label_file_cases.
  destruct (label_file_effect_dom id_mapping damage_class_ids dry_run p w)
    as [Hdom Hlog].
  destruct (label_file_result id_mapping damage_class_ids (fs w !! p))
    as [[r rm]|e]; cbn [snd].
  - destruct (IH (a + r)%nat (b + rm)%nat
                 (label_file_effect id_mapping damage_class_ids dry_run p w))
      as (Hother & Hdom' & Hlog').
    split_and!; [|congruence|by etrans].
    intros q [Hne Hq]%not_elem_of_cons.
    rewrite Hother by done. by apply label_file_effect_other.
  - split_and!; [|done..].
    intros q [Hne Hq]%not_elem_of_cons. by apply label_file_effect_other.
Qed.

Lemma find_label_files_elem (dataset_dir : path) (w : world) (q : path) :
  q ∈ List.filter is_label_file
        (List.filter (is_txt_under dataset_dir) (elements (dom (fs w)))) →
  is_txt_under dataset_dir q && is_label_file q = true.
Proof.
  intros Hq. apply list_elem_of_In in Hq.
  apply filter_In in Hq as [Hq Hl]. apply filter_In in Hq as [_ Hq].
  by rewrite Hq, Hl.
Qed.

(** The steps of a dataset run, with the world after each. *)
Lemma normalize_dataset_steps (dataset_yaml_path : path)
    (reference_mapping : list (str * Z)) (dry_run : bool) (w : world) :
  (∃ e, normalize_dataset dataset_yaml_path reference_mapping dry_run w
        = (Raise e, w) ∧
        create_class_id_mapping dataset_yaml_path reference_mapping w
        = (Raise e, w)) ∨
  (∃ id_mapping damage_class_ids w0 w1,
     create_class_id_mapping dataset_yaml_path reference_mapping w
     = (Ok (id_mapping, damage_class_ids), w0) ∧
     fs w0 = fs w ∧ is_Some (fs w !! dataset_yaml_path) ∧
     normalize_data_yaml dataset_yaml_path reference_mapping dry_run w0
     = (Ok (), w1) ∧
     dom (fs w1) = dom (fs w) ∧
     let paths := List.filter is_label_file
                    (List.filter (is_txt_under (parent dataset_yaml_path))
                                 (elements (dom (fs w)))) in
     normalize_dataset dataset_yaml_path reference_mapping dry_run w
     = match normalize_label_files paths id_mapping damage_class_ids dry_run
                                   O O w1 with
       | (Ok (total_remapped, total_removed), w') =>
         (Ok {| dataset := name (parent dataset_yaml_path);
                label_files := length paths;
                annotations_remapped := total_remapped;
                annotations_removed := total_removed;
                classes_mapped := size id_mapping;
                damage_classes := length damage_class_ids |}, w')
       | (Raise e, w') => (Raise e, w')
       end).
Proof.
  unfold normalize_dataset. rewrite bind_run.
  destruct (create_class_id_mapping_fs dataset_yaml_path reference_mapping w)
    as (r & w0 & Hc & Hfs0 & Hsome).
  destruct r as [[m d]|e].
  - right. specialize (Hsome _ eq_refl). rewrite Hc.
    exists m, d, w0.
    exists (if dry_run
            then {| fs := fs w0;
                    logged := logged w0 ++ [WouldNormalize dataset_yaml_path] |}
            else {| fs := <[dataset_yaml_path :=
                             YamlFile (normalized_data reference_mapping)]>
                            (fs w0);
                    logged := logged w0 |}).
    assert (dom (fs (if dry_run
            then {| fs := fs w0;
                    logged := logged w0 ++ [WouldNormalize dataset_yaml_path] |}
            else {| fs := <[dataset_yaml_path :=
                             YamlFile (normalized_data reference_mapping)]>
                            (fs w0);
                    logged := logged w0 |})) = dom (fs w)) as Hdom.
    { destruct dry_run; cbn [fs]; [by rewrite Hfs0|].
      rewrite dom_insert_lookup_L by by rewrite Hfs0. by rewrite Hfs0. }
    split_and!; [done..| |done|].
    { unfold normalize_data_yaml, log, write_file. by destruct dry_run. }
    cbn zeta. rewrite !bind_run.
    assert (normalize_data_yaml dataset_yaml_path reference_mapping dry_run w0
            = (Ok (), if dry_run
            then {| fs := fs w0;
                    logged := logged w0 ++ [WouldNormalize dataset_yaml_path] |}
            else {| fs := <[dataset_yaml_path :=
                             YamlFile (normalized_data reference_mapping)]>
                            (fs w0);
                    logged := logged w0 |})) as ->.
    { unfold normalize_data_yaml, log, write_file. by destruct dry_run. }
    rewrite bind_run. unfold find_label_files at 1. rewrite Hdom.
    rewrite bind_run.
    destruct (normalize_label_files _ m d dry_run 0 0 _) as [[[a b]|e] w'];
      done.
  - left. exists e.
    assert (w0 = w) as ->.
    { revert Hc. unfold create_class_id_mapping. rewrite bind_run.
      unfold read_file.
      destruct (fs w !! dataset_yaml_path) as [[content|doc|data|cs|bytes]|];
        try (intros [= _ <-]; done).
      rewrite bind_run. cbn [yaml_load mret M_ret].
      destruct (names data) as [items|].
      - destruct (classify_names_fs (name (parent dataset_yaml_path))
                    reference_mapping items ∅ [] w) as (r & w' & -> & _).
        done.
      - rewrite bind_run. unfold log. done. }
    by rewrite Hc.
Qed.

(** X11. A dataset run neither creates nor deletes a file, in either
    mode and whether it returns or raises. *)
Theorem dataset_run_keeps_file_set (dataset_yaml_path : path)
    (reference_mapping : list (str * Z)) (dry_run : bool) (w : world) :
  dom (fs (normalize_dataset dataset_yaml_path reference_mapping dry_run w).2)
  = dom (fs w).
Proof.
  destruct (normalize_dataset_steps dataset_yaml_path reference_mapping
              dry_run w)
    as [(e & -> & _)|(m & d & w0 & w1 & _ & _ & _ & _ & Hdom & ->)]; [done|].
  cbn zeta.
  set (paths := List.filter is_label_file _).
  destruct (normalize_label_files_frame paths m d dry_run O O w1)
    as (_ & Hdom' & _). cbn zeta in Hdom'.
  destruct (normalize_label_files paths m d dry_run 0 0 w1)
    as [[[a b]|e] w']; cbn [snd] in *; congruence.
Qed.

(** X12. A dataset run leaves every file alone other than its manifest
    and the [.txt] files under the manifest's directory that pass the
    label-file filter. *)
Theorem dataset_run_touches_only_its_files (dataset_yaml_path : path)
    (reference_mapping : list (str * Z)) (dry_run : bool) (w : world)
    (q : path) :
  q ≠ dataset_yaml_path →
  is_txt_under (parent dataset_yaml_path) q && is_label_file q = false →
  fs (normalize_dataset dataset_yaml_path reference_mapping dry_run w).2 !! q
  = fs w !! q.
Proof.
  intros Hne Hq.
  destruct (normalize_dataset_steps dataset_yaml_path reference_mapping
              dry_run w)
    as [(e & -> & _)|(m & d & w0 & w1 & _ & Hfs0 & _ & Hy & _ & ->)];
    [done|].
  cbn zeta.
  set (paths := List.filter is_label_file _).
  assert (q ∉ paths) as Hnot.
  { intros Hin%find_label_files_elem. congruence. }
  destruct (normalize_label_files_frame paths m d dry_run O O w1)
    as (Hother & _ & _). cbn zeta in Hother. specialize (Hother q Hnot).
  assert (fs w1 !! q = fs w !! q) as Hw1.
  { revert Hy. unfold normalize_data_yaml, log, write_file.
    destruct dry_run; intros [= <-]; cbn [fs]; rewrite <- Hfs0; [done|].
    by apply lookup_insert_ne. }
  destruct (normalize_label_files paths m d dry_run 0 0 w1)
    as [[[a b]|e] w']; cbn [snd] in *; congruence.
Qed.

Lemma normalize_lines_no_tables (lines : list str) :
  ∃ new_lines, normalize_lines ∅ [] lines = (new_lines, O, O).
Proof.
  unfold normalize_lines.
  generalize (@nil str). induction lines as [|l ls IH]; intros acc.
  - by eexists.
  - cbn [fold_left]. 
    assert (label_step ∅ [] (acc, O, O) l = (acc, O, O) ∨
            ∃ acc', label_step ∅ [] (acc, O, O) l = (acc', O, O)) as [->| [acc' ->]];
      [|apply IH..].
    unfold label_step. destruct (strip l) as [|c s]; [by left|].
    destruct (length (split (c :: s)) <? 2)%nat; [by left|].
    destruct (py_int (hd [] (split (c :: s)))) as [z|]; [|by left].
    rewrite bool_decide_false by apply not_elem_of_nil.
    rewrite lookup_empty. right. by eexists.
Qed.

Lemma normalize_label_files_no_tables (paths : list path) (dry_run : bool)
    (total_remapped total_removed : nat) (w : world) (r : nat * nat)
    (w' : world) :
  normalize_label_files paths ∅ [] dry_run total_remapped total_removed w
  = (Ok r, w') →
  r = (total_remapped, total_removed).
Proof.
  revert total_remapped total_removed w.
  induction paths as [|p rest IH]; intros a b w.
  - by intros [= <- _].
  - cbn [normalize_label_files]. rewrite bind_run, normalize_label_file_cases.
    assert (label_file_result ∅ [] (fs w !! p) = Ok (O, O) ∨
            ∃ e, label_file_result ∅ [] (fs w !! p) = Raise e) as [->|[e ->]];
      [| |done].
    + unfold label_file_result.
      destruct (fs w !! p) as [c|]; [|by left].
      destruct (label_text c) as [content|]; [|eauto].
      destruct (normalize_lines_no_tables (readlines content)) as [nl ->].
      by left.
    + rewrite !Nat.add_0_r. apply IH.
Qed.

(** X13. A manifest without a [names] field: the run maps nothing, yet a
    real run still overwrites the manifest with the reference content,
    reports the missing field, and counts no remapped or removed
    annotation whatever the label files hold. *)
Theorem dataset_without_names (dataset_yaml_path : path)
    (reference_mapping : list (str * Z)) (w : world) (data : Manifest) :
  fs w !! dataset_yaml_path = Some (YamlFile data) →
  names data = None →
  ends_with (text ".txt") (name dataset_yaml_path) = false →
  let '(r, w') :=
    normalize_dataset dataset_yaml_path reference_mapping false w in
  fs w' !! dataset_yaml_path
  = Some (YamlFile (normalized_data reference_mapping)) ∧
  NoNamesField dataset_yaml_path ∈ logged w' ∧
  ∀ stats, r = Ok stats →
    annotations_remapped stats = O ∧ annotations_removed stats = O ∧
    classes_mapped stats = O ∧ damage_classes stats = O.
Proof.
  intros Hf Hn Hyaml.
  destruct (normalize_dataset_steps dataset_yaml_path reference_mapping
              false w)
    as [(e & _ & Hc)|(m & d & w0 & w1 & Hc & Hfs0 & _ & Hy & _ & ->)].
  { revert Hc. unfold create_class_id_mapping. rewrite bind_run.
    unfold read_file. rewrite Hf, bind_run. cbn [yaml_load mret M_ret].
    by rewrite Hn. }
  revert Hc. unfold create_class_id_mapping. rewrite bind_run.
  unfold read_file. rewrite Hf, bind_run. cbn [yaml_load mret M_ret].
  rewrite Hn, bind_run. unfold log. intros [= <- <- <-].
  revert Hy. unfold normalize_data_yaml, write_file. cbn [fs logged].
  intros [= <-]. cbn zeta.
  set (paths := List.filter is_label_file _).
  set (w1 := {| fs := _; logged := _ |}).
  destruct (normalize_label_files_frame paths ∅ [] false O O w1)
    as (Hother & _ & Hlog). cbn zeta in Hother, Hlog.
  assert (dataset_yaml_path ∉ paths) as Hnot.
  { intros Hin%find_label_files_elem. unfold is_txt_under in Hin.
    rewrite Hyaml in Hin. by rewrite andb_false_r in Hin. }
  specialize (Hother _ Hnot).
  pose proof (normalize_label_files_no_tables paths false O O w1) as Hzero.
  destruct (normalize_label_files paths ∅ [] false 0 0 w1)
    as [[[a b]|e] w']; cbn [snd] in *.
  - split_and!.
    + rewrite Hother. unfold w1. cbn [fs]. apply lookup_insert_eq.
    + destruct Hlog as [more ->]. unfold w1. cbn [logged].
      rewrite !elem_of_app, list_elem_of_singleton. auto.
    + intros stats [= <-]. cbn. specialize (Hzero _ _ eq_refl).
      by injection Hzero as -> ->.
  - split_and!.
    + rewrite Hother. unfold w1. cbn [fs]. apply lookup_insert_eq.
    + destruct Hlog as [more ->]. unfold w1. cbn [logged].
      rewrite !elem_of_app, list_elem_of_singleton. auto.
    + done.
Qed.

End dataset_more.

(** ** File discovery *)

Ltac ltb_cases :=
  repeat match goal with
         | |- context [(?a <? ?b)%N] => destruct (N.ltb_spec a b)
         end.

Lemma str_leb_refl (a : str) : str_leb a a = true.
Proof. induction a as [|x a IH]; [done|]. simpl. by rewrite N.ltb_irrefl. Qed.

Lemma str_leb_total (a b : str) : str_leb a b = false → str_leb b a = true.
Proof.
  revert b. induction a as [|x a IH]; intros [|y b]; simpl; try done.
  ltb_cases; try done; try lia. apply IH.
Qed.

Lemma str_leb_antisym (a b : str) :
  str_leb a b = true → str_leb b a = true → a = b.
Proof.
  revert b. induction a as [|x a IH]; intros [|y b]; simpl; try done.
  ltb_cases; try done; try lia.
  intros Hab Hba. assert (x = y) as -> by lia. f_equal. by apply IH.
Qed.

Lemma str_leb_trans (a b c : str) :
  str_leb a b = true → str_leb b c = true → str_leb a c = true.
Proof.
  revert b c. induction a as [|x a IH]; intros [|y b] [|z c]; simpl;
    try done.
  ltb_cases; try done; try lia. apply IH.
Qed.

Lemma path_leb_refl (p : path) : path_leb p p = true.
Proof. induction p as [|x p IH]; [done|]. simpl. by rewrite decide_True. Qed.

Lemma path_leb_total (p q : path) : path_leb p q = false → path_leb q p = true.
Proof.
  revert q. induction p as [|x p IH]; intros [|y q]; simpl; try done.
  destruct (decide (x = y)) as [->|Hne].
  - rewrite decide_True by done. apply IH.
  - rewrite decide_False by done. apply str_leb_total.
Qed.

Lemma path_leb_antisym (p q : path) :
  path_leb p q = true → path_leb q p = true → p = q.
Proof.
  revert q. induction p as [|x p IH]; intros [|y q]; simpl; try done.
  destruct (decide (x = y)) as [->|Hne].
  - rewrite decide_True by done. intros. f_equal. by apply IH.
  - rewrite decide_False by done. intros Hxy Hyx.
    destruct Hne. by apply str_leb_antisym.
Qed.

Lemma path_leb_trans (p q r : path) :
  path_leb p q = true → path_leb q r = true → path_leb p r = true.
Proof.
  revert q r. induction p as [|x p IH]; intros [|y q] [|z r]; simpl;
    try done.
  destruct (decide (x = y)) as [->|Hxy].
  - destruct (decide (y = z)) as [->|Hyz]; [apply IH|done].
  - destruct (decide (y = z)) as [->|Hyz].
    + by rewrite decide_False by done.
    + intros Hle1 Hle2. destruct (decide (x = z)) as [->|Hxz].
      * destruct Hxy. by apply str_leb_antisym.
      * by apply str_leb_trans with y.
Qed.

#[local] Instance path_le_trans : Transitive path_le.
Proof. intros p q r. apply path_leb_trans. Qed.

#[local] Instance path_le_antisym : AntiSymm (=) path_le.
Proof. intros p q. apply path_leb_antisym. Qed.

Lemma insert_path_perm (p : path) (l : list path) : insert_path p l ≡ₚ p :: l.
Proof.
  induction l as [|q r IH]; [done|]. simpl.
  destruct (path_leb p q); [done|]. rewrite IH. apply Permutation_swap.
Qed.

Lemma sort_paths_perm (l : list path) : sort_paths l ≡ₚ l.
Proof.
  induction l as [|p r IH]; [done|]. unfold sort_paths in *. simpl.
  by rewrite insert_path_perm, IH.
Qed.

Lemma insert_path_sorted (p : path) (l : list path) :
  StronglySorted path_le l → StronglySorted path_le (insert_path p l).
Proof.
  induction 1 as [|q r Hr IH Hq]; simpl.
  - repeat constructor.
  - destruct (path_leb p q) eqn:Hle.
    + constructor; [by constructor|]. constructor; [done|].
      eapply Forall_impl; [exact Hq|]. intros s Hs. by transitivity q.
    + constructor; [done|]. rewrite insert_path_perm.
      constructor; [|done]. by apply path_leb_total.
Qed.

Lemma sort_paths_sorted (l : list path) : StronglySorted path_le (sort_paths l).
Proof.
  induction l as [|p r IH]; [constructor|].
  unfold sort_paths in *. simpl. by apply insert_path_sorted.
Qed.

(** X14. The order in which datasets are processed does not depend on
    the order in which the directory walk lists them: sorting any two
    listings of the same files gives the same list. *)
Theorem sort_paths_order_independent (l l' : list path) :
  l ≡ₚ l' → sort_paths l = sort_paths l'.
Proof.
  intros Hp. apply (StronglySorted_unique path_le).
  - apply sort_paths_sorted.
  - apply sort_paths_sorted.
  - by rewrite !sort_paths_perm.
Qed.

(** X15. When the root directory holds a file, [find_all_data_yaml_files]
    returns, in ascending path order and each once, exactly the stored
    files named [data.yaml] below the root, and changes nothing. *)
Theorem data_yaml_files_found (root_dir : path) (w : world) (f0 : path) :
  is_Some (fs w !! f0) →
  root_dir `prefix_of` f0 →
  ∃ files,
    find_all_data_yaml_files root_dir w = (Ok files, w) ∧
    StronglySorted path_le files ∧ NoDup files ∧
    ∀ f, f ∈ files ↔
         is_Some (fs w !! f) ∧ root_dir `prefix_of` parent f ∧ f ≠ [] ∧
         name f = text "data.yaml".
Proof.
  intros Hf0 Hpre. unfold find_all_data_yaml_files. rewrite bind_run.
  unfold dir_exists.
  assert (existsb (λ f, bool_decide (root_dir `prefix_of` f))
                  (elements (dom (fs w))) = true) as ->.
  { apply existsb_exists. exists f0. split.
    - apply list_elem_of_In, elem_of_elements, elem_of_dom. done.
    - by apply bool_decide_eq_true. }
  cbn [negb]. rewrite bind_run. unfold rglob_name. cbn [mret M_ret].
  eexists. split; [reflexivity|]. split_and!.
  - apply sort_paths_sorted.
  - rewrite sort_paths_perm. apply NoDup_list_filter, NoDup_elements.
  - intros f. rewrite sort_paths_perm, list_elem_of_In, filter_In.
    rewrite <- list_elem_of_In, elem_of_elements, elem_of_dom.
    unfold is_under. rewrite !andb_true_iff, !bool_decide_eq_true.
    tauto.
Qed.

(** ** The COCO [main] *)


Lemma annotation_file_effect_other (annotation_file : path)
    (standard_categories : list (str * Category)) (dry_run : bool)
    (w : world) (q : path) :
  q ≠ annotation_file →
  fs (annotation_file_effect annotation_file standard_categories dry_run w)
     !! q = fs w !! q.
Proof.
  intros Hne. unfold annotation_file_effect.
  destruct (fs w !! annotation_file) as [[s|data|m|cs|bytes]|]; try done.
  destruct (categories data); [|done]. destruct dry_run; [done|].
  cbn [fs]. by apply lookup_insert_ne.
Qed.



Lemma find_all_annotation_files_spec (base_dir : path) (w : world) :
  ∃ files, find_all_annotation_files base_dir w = (Ok files, w) ∧
           NoDup files ∧
           ∀ f, f ∈ files ↔
                is_Some (fs w !! f) ∧ is_under base_dir f = true ∧
                name f = text "annotations.json".
Proof.
  eexists. split; [reflexivity|]. split.
  - apply NoDup_list_filter, NoDup_elements.
  - intros f. rewrite list_elem_of_In, filter_In.
    rewrite <- list_elem_of_In, elem_of_elements, elem_of_dom.
    rewrite andb_true_iff, bool_decide_eq_true. tauto.
Qed.


(** The real loop, when it returns: one statistics record per file, and
    each file rewritten from what it held. *)
Lemma process_files_post (annotation_files : list path)
    (standard_categories : list (str * Category)) (all_stats : list Stats)
    (unmapped : gset str) (w w' : world) (r : list Stats * gset str) :
  NoDup annotation_files →
  Annotations.process_files annotation_files standard_categories false
                            all_stats unmapped w = (Ok r, w') →
  length r.1 = (length all_stats + length annotation_files)%nat ∧
  (∀ q, q ∉ annotation_files → fs w' !! q = fs w !! q) ∧
  (∀ f, f ∈ annotation_files →
        fs w' !! f
        = fs (annotation_file_effect f standard_categories false w) !! f) ∧
  (∀ f, f ∈ annotation_files →
        match fs w !! f with
        | Some (JsonFile _) | Some (CategoriesFile _) => True
        | _ => False
        end).
Proof.
  revert all_stats unmapped w.
  induction annotation_files as [|p rest IH]; intros a s w Hnd.
  { intros [= <- <-]. cbn.
    split_and!; [lia|done|..]; by intros f ?%elem_of_nil. }
  apply NoDup_cons in Hnd as [Hp Hnd].
  cbn [Annotations.process_files].
  rewrite bind_run, normalize_annotation_file_cases.
  destruct (annotation_file_result p standard_categories (fs w !! p))
    as [stats|e] eqn:Hres; [|done].
  intros Hrun.
  destruct (IH _ _ _ Hnd Hrun) as (Hlen & Hother & Hfiles & Hparsed).
  split_and!.
  - rewrite Hlen, length_app. cbn. lia.
  - intros q [Hne Hq]%not_elem_of_cons. rewrite Hother by done.
    by apply annotation_file_effect_other.
  - intros f [->|Hf]%elem_of_cons; [by apply Hother|].
    assert (f ≠ p) as Hne by (by intros ->).
    rewrite (Hfiles f Hf). unfold annotation_file_effect at 1 3.
    rewrite !(annotation_file_effect_other p) by done.
    destruct (fs w !! f) as [[c|data|m|cs|bytes]|]; try done;
      try (by apply annotation_file_effect_other).
    destruct (categories data) as [cats|];
      [|by apply annotation_file_effect_other].
    cbn [fs]. by rewrite !lookup_insert_eq.
  - intros f [->|Hf]%elem_of_cons.
    + revert Hres. unfold annotation_file_result.
      by destruct (fs w !! p) as [[c|data|m|cs|bytes]|].
    + specialize (Hparsed f Hf).
      rewrite annotation_file_effect_other in Hparsed by (by intros ->).
      done.
Qed.

(** X17. When the real COCO [main] returns, every [annotations.json]
    below the dataset directory held a JSON document; each of them that
    is an object with a [categories] key now lists exactly the standard
    categories in ascending ID order; each without the key, or that is
    an array, holds what it held; and no other file has changed. *)
Theorem annotations_main_rewrites_every_file (dataset_dir categories_file : path)
    (w w' : world) (summary : Annotations.Summary)
    (standard_categories : list (str * Category)) :
  load_standard_categories categories_file w = (Ok standard_categories, w) →
  Annotations.main {| Annotations.dataset_dir := dataset_dir;
                      Annotations.categories_file := categories_file;
                      Annotations.dry_run := false |} w
  = (Ok summary, w') →
  ∀ f,
    if bool_decide (is_Some (fs w !! f)) && is_under dataset_dir f
       && bool_decide (name f = text "annotations.json")
    then
      match fs w !! f with
      | Some (JsonFile data) =>
        ∃ data',
          fs w' !! f = Some (JsonFile data') ∧
          match categories data with
          | Some _ =>
            categories data'
            = Some (sorted_by_id (dict_values standard_categories))
          | None => data' = data
          end
      | Some (CategoriesFile cats) => fs w' !! f = Some (CategoriesFile cats)
      | _ => False
      end
    else fs w' !! f = fs w !! f.
Proof.
  intros Hstd. unfold Annotations.main. cbn [Annotations.dataset_dir
    Annotations.categories_file Annotations.dry_run].
  rewrite bind_run, Hstd, bind_run.
  destruct (find_all_annotation_files_spec dataset_dir w)
    as (files & -> & Hnd & Hfiles).
  rewrite bind_run.
  destruct (Annotations.process_files files standard_categories false [] ∅ w)
    as [[[stats u]|e] w1] eqn:Hrun; [|done].
  intros [= <- <-].
  destruct (process_files_post _ _ _ _ _ _ _ Hnd Hrun)
    as (_ & Hother & Hpost & Hparsed).
  intros f.
  destruct (bool_decide (is_Some (fs w !! f)) && is_under dataset_dir f
            && bool_decide (name f = text "annotations.json")) eqn:Hsel.
  - apply andb_prop in Hsel as [[Hs Hu]%andb_prop Hn].
    apply bool_decide_eq_true in Hs, Hn.
    assert (f ∈ files) as Hin by (by apply Hfiles).
    rewrite (Hpost f Hin). specialize (Hparsed f Hin).
    unfold annotation_file_effect.
    destruct (fs w !! f) as [[c|data|m|cs|bytes]|] eqn:Hheld;
      rewrite ?Hheld; try done.
    destruct (categories data) as [cats|].
    + cbn [fs]. rewrite lookup_insert_eq. eauto.
    + rewrite Hheld. eauto.
  - apply Hother. intros Hin%Hfiles. destruct Hin as (Hs & Hu & Hn).
    rewrite Hu, bool_decide_true, bool_decide_true in Hsel by done. done.
Qed.

(** X18. The COCO loop has no handler: if [normalize_annotation_file]
    raises on one [annotations.json] below the dataset directory, [main]
    raises, so that no summary is produced. *)
Theorem annotations_main_aborts_on_bad_file (dataset_dir categories_file : path)
    (dry_run : bool) (w : world) (f : path)
    (standard_categories : list (str * Category)) (e : exn) :
  load_standard_categories categories_file w = (Ok standard_categories, w) →
  is_Some (fs w !! f) →
  is_under dataset_dir f = true →
  name f = text "annotations.json" →
  (normalize_annotation_file f standard_categories dry_run w).1 = Raise e →
  ∃ e' w', Annotations.main {| Annotations.dataset_dir := dataset_dir;
                               Annotations.categories_file := categories_file;
                               Annotations.dry_run := dry_run |} w
           = (Raise e', w').
Proof.
  intros Hstd Hheld Hu Hn Hbad. unfold Annotations.main.
  cbn [Annotations.dataset_dir Annotations.categories_file
       Annotations.dry_run].
  rewrite bind_run, Hstd, bind_run.
  destruct (find_all_annotation_files_spec dataset_dir w)
    as (files & -> & _ & Hfiles).
  rewrite bind_run.
  assert (f ∈ files) as Hin by (apply Hfiles; eauto).
  rewrite normalize_annotation_file_cases in Hbad. cbn [fst] in Hbad.
  assert (∃ e' w', Annotations.process_files files standard_categories
                     dry_run [] ∅ w = (Raise e', w')) as (e' & w' & ->);
    [|by eexists _, _].
  clear Hfiles Hheld Hstd. generalize (@nil Stats) (∅ : gset str).
  revert w Hbad. induction files as [|p rest IH]; intros w Hbad a s.
  { by apply elem_of_nil in Hin. }
  cbn [Annotations.process_files].
  rewrite bind_run, normalize_annotation_file_cases.
  destruct (decide (p = f)) as [->|Hne].
  - rewrite Hbad. by eexists _, _.
  - destruct (annotation_file_result p standard_categories (fs w !! p))
      as [stats|e0]; [|by eexists _, _].
    apply IH.
    + apply elem_of_cons in Hin as [->|Hin]; done.
    + rewrite annotation_file_effect_other by done.
      revert Hbad. unfold annotation_file_result.
      by destruct (fs w !! f) as [[c|data|m|cs|bytes]|].
Qed.

(** ** The YOLO [main] *)

Section yolo_main.
Context `{!DecimalTable}.

Lemma normalize_label_files_raises (paths : list path) (id_mapping : gmap Z Z)
    (damage_class_ids : list Z) (dry_run : bool)
    (total_remapped total_removed : nat) (w w' : world) (e : exn) :
  normalize_label_files paths id_mapping damage_class_ids dry_run
                        total_remapped total_removed w = (Raise e, w') →
  e = DecodeError.
Proof.
  revert total_remapped total_removed w.
  induction paths as [|p rest IH]; intros a b w; [done|].
  cbn [normalize_label_files]. rewrite bind_run, normalize_label_file_cases.
  destruct (label_file_result id_mapping damage_class_ids (fs w !! p))
    as [[r rm]|e'] eqn:Hres; [apply IH|].
  intros [= <- _]. revert Hres. unfold label_file_result.
  destruct (fs w !! p) as [c|]; [|done].
  destruct (label_text c) as [content|]; [|by intros [= <-]].
  by destruct (normalize_lines _ _ _) as [[? ?] ?].
Qed.

(** What a dataset run can raise: the manifest is missing or is no YAML
    document, or a label file is no text. *)
Lemma normalize_dataset_raises (dataset_yaml_path : path)
    (reference_mapping : list (str * Z)) (dry_run : bool) (w w' : world)
    (e : exn) :
  normalize_dataset dataset_yaml_path reference_mapping dry_run w
  = (Raise e, w') →
  e = FileNotFoundError ∨ e = DecodeError.
Proof.
  destruct (normalize_dataset_steps dataset_yaml_path reference_mapping
              dry_run w)
    as [(e' & -> & Hc)|(m & d & w0 & w1 & _ & _ & _ & _ & _ & ->)].
  - intros [= <- <-]. revert Hc. unfold create_class_id_mapping.
    rewrite bind_run. unfold read_file.
    destruct (fs w !! dataset_yaml_path) as [[content|doc|data|cs|bytes]|];
      try (intros [= <-]; auto).
    rewrite bind_run. cbn [yaml_load mret M_ret].
    destruct (names data) as [items|]; [|done].
    destruct (classify_names_fs (name (parent dataset_yaml_path))
                reference_mapping items ∅ [] w) as (r & w2 & -> & _).
    done.
  - cbn zeta.
    destruct (normalize_label_files _ m d dry_run 0 0 w1)
      as [[[a b]|e'] w2] eqn:Hl; [done|].
    intros [= <- <-]. right. by eapply normalize_label_files_raises.
Qed.

(** The loop of [main] always returns, having placed each dataset either
    among the statistics or among the failures. *)
Lemma process_datasets_total (data_yaml_files : list path)
    (reference_mapping : list (str * Z)) (dry_run : bool)
    (all_stats : list DatasetStats) (errors : list (path * exn))
    (w : world) :
  ∃ all_stats' errors' w',
    Yolo.process_datasets data_yaml_files reference_mapping dry_run
                          all_stats errors w
    = (Ok (all_stats', errors'), w') ∧
    (length all_stats' + length errors')%nat
    = (length all_stats + length errors + length data_yaml_files)%nat ∧
    ∃ more, errors' = errors ++ more ∧ more.*1 `sublist_of` data_yaml_files ∧
            Forall (λ pe, pe.2 = FileNotFoundError ∨ pe.2 = DecodeError) more.
Proof.
  revert all_stats errors w.
  induction data_yaml_files as [|p rest IH]; intros a errs w.
  { exists a, errs, w. split_and!; [done|cbn; lia|].
    exists []. by rewrite app_nil_r. }
  cbn [Yolo.process_datasets].
  destruct (normalize_dataset p reference_mapping dry_run w)
    as [[stats|e] w1] eqn:Hrun.
  - destruct (IH (a ++ [stats]) errs w1)
      as (a' & errs' & w' & -> & Hlen & more & -> & Hsub & Hall).
    exists a', (errs ++ more), w'. split_and!; [done| |].
    + rewrite Hlen, length_app. cbn. lia.
    + exists more. split_and!; [done| |done]. by apply sublist_cons.
  - destruct (normalize_dataset_raises _ _ _ _ _ _ Hrun) as [->| ->].
    + destruct (IH a (errs ++ [(p, FileNotFoundError)]) w1)
        as (a' & errs' & w' & -> & Hlen & more & -> & Hsub & Hall).
      eexists a', _, w'. split_and!; [done| |].
      * rewrite Hlen, length_app. cbn. lia.
      * exists ((p, FileNotFoundError) :: more).
        split_and!; [by rewrite <- app_assoc| |].
        -- rewrite fmap_cons. by apply sublist_skip.
        -- constructor; [by left|done].
    + destruct (IH a (errs ++ [(p, DecodeError)]) w1)
        as (a' & errs' & w' & -> & Hlen & more & -> & Hsub & Hall).
      eexists a', _, w'. split_and!; [done| |].
      * rewrite Hlen, length_app. cbn. lia.
      * exists ((p, DecodeError) :: more).
        split_and!; [by rewrite <- app_assoc| |].
        -- rewrite fmap_cons. by apply sublist_skip.
        -- constructor; [by right|done].
Qed.

(** X19. Once the reference is loaded and the manifests are found, the
    YOLO [main] always returns a summary: a dataset that raises is set
    aside with its exception and the loop goes on, so that the datasets
    counted and the datasets set aside add up to the datasets selected. *)
Theorem yolo_main_continues_past_failures (args : Yolo.Args) (w w0 : world)
    (reference_mapping : list (str * Z)) (data_yaml_files : list path) :
  load_reference_mapping (Yolo.reference_yaml args) w
  = (Ok reference_mapping, w0) →
  find_all_data_yaml_files (Yolo.root_dir args) w0
  = (Ok data_yaml_files, w0) →
  let selected :=
    match Yolo.dataset_filter args with
    | Some (c :: d) =>
      List.filter (λ f, contains (c :: d) (path_str f)) data_yaml_files
    | _ => data_yaml_files
    end in
  ∃ summary w',
    Yolo.main args w = (Ok summary, w') ∧
    (Yolo.total_datasets summary + length (Yolo.failed summary))%nat
    = length selected ∧
    (Yolo.failed summary).*1 `sublist_of` selected ∧
    Forall (λ pe, pe.2 = FileNotFoundError ∨ pe.2 = DecodeError)
           (Yolo.failed summary).
Proof.
  intros Href Hfind selected. unfold Yolo.main.
  rewrite bind_run, Href, bind_run, Hfind. cbn zeta. fold selected.
  rewrite bind_run.
  destruct (process_datasets_total selected reference_mapping
              (Yolo.dry_run args) [] [] w0)
    as (a' & errs' & w' & -> & Hlen & more & -> & Hsub & Hall).
  eexists _, w'. split; [reflexivity|].
  cbn [Yolo.total_datasets Yolo.failed]. split_and!; [|done..].
  rewrite Hlen. cbn. lia.
Qed.

Lemma process_datasets_dry_run (data_yaml_files : list path)
    (reference_mapping : list (str * Z))
    (all_stats : list DatasetStats) (errors : list (path * exn))
    (w : world) :
  Forall (λ f, ends_with (text ".txt") (name f) = false) data_yaml_files →
  fs (Yolo.process_datasets data_yaml_files reference_mapping true
                            all_stats errors w).2 = fs w.
Proof.
  revert all_stats errors w.
  induction data_yaml_files as [|p rest IH]; intros a errs w Hall; [done|].
  apply Forall_cons in Hall as [Hp Hall].
  cbn [Yolo.process_datasets].
  destruct (normalize_dataset_dry_run p reference_mapping w Hp) as [Hfs _].
  destruct (normalize_dataset p reference_mapping true w)
    as [[stats|e] w1] eqn:Hrun; cbn [snd] in Hfs.
  - rewrite IH by done. done.
  - destruct (normalize_dataset_raises _ _ _ _ _ _ Hrun) as [->| ->];
      rewrite IH by done; done.
Qed.

Lemma load_reference_mapping_fs (reference_path : path) (w : world) :
  fs (load_reference_mapping reference_path w).2 = fs w.
Proof.
  unfold load_reference_mapping, mbind, M_bind, path_exists, read_file, log.
  destruct (fs w !! reference_path) as [c|] eqn:Hf.
  - rewrite bool_decide_true by eauto. cbn [negb]. rewrite ?Hf.
    destruct c as [content|doc|data|cs|bytes]; try done.
    cbn [yaml_load mret M_ret]. by destruct (names data).
  - rewrite bool_decide_false by (by intros [? ?]). done.
Qed.

Lemma find_all_data_yaml_files_names (root_dir : path) (w : world) :
  ∃ r, find_all_data_yaml_files root_dir w = (r, w) ∧
       ∀ files, r = Ok files →
                Forall (λ f, name f = text "data.yaml") files.
Proof.
  unfold find_all_data_yaml_files. rewrite bind_run. unfold dir_exists.
  destruct (existsb _ _); cbn [negb].
  - rewrite bind_run. unfold rglob_name. cbn [mret M_ret].
    eexists. split; [reflexivity|]. intros files [= <-].
    apply Forall_forall. intros f. rewrite sort_paths_perm.
    rewrite list_elem_of_In, filter_In. intros [_ Hf].
    apply andb_prop in Hf as [_ Hf]. by apply bool_decide_eq_true in Hf.
  - eexists. split; [reflexivity|]. done.
Qed.

(** X20. In preview mode the YOLO [main] changes no file, whatever the
    tree holds and whether it returns or exits. *)
Theorem yolo_main_dry_run_writes_nothing (args : Yolo.Args) (w : world) :
  Yolo.dry_run args = true →
  fs (Yolo.main args w).2 = fs w.
Proof.
  intros Hdry. unfold Yolo.main. rewrite bind_run.
  pose proof (load_reference_mapping_fs (Yolo.reference_yaml args) w) as Hfs0.
  destruct (load_reference_mapping (Yolo.reference_yaml args) w)
    as [[ref|e] w0]; cbn [snd] in Hfs0; [|done].
  rewrite bind_run.
  destruct (find_all_data_yaml_files_names (Yolo.root_dir args) w0)
    as (r & -> & Hnames).
  destruct r as [files|e]; [|done].
  specialize (Hnames _ eq_refl). cbn zeta. rewrite bind_run, Hdry.
  set (selected := match Yolo.dataset_filter args with
                   | Some (c :: d) => _ | _ => files end).
  assert (Forall (λ f, ends_with (text ".txt") (name f) = false) selected)
    as Hsel.
  { assert (Forall (λ f, name f = text "data.yaml") selected) as Hn.
    { unfold selected. destruct (Yolo.dataset_filter args) as [[|c d]|];
        try done.
      apply Forall_forall. intros f Hf%list_elem_of_In.
      apply filter_In in Hf as [Hf _]. apply list_elem_of_In in Hf.
      revert f Hf. by apply Forall_forall. }
    eapply Forall_impl; [exact Hn|]. intros f ->. reflexivity. }
  pose proof (process_datasets_dry_run selected ref [] [] w0 Hsel) as Hfs.
  destruct (Yolo.process_datasets selected ref true [] [] w0)
    as [[[a errs]|e] w']; cbn [snd mret M_ret] in *; congruence.
Qed.

End yolo_main.

(** ** The further properties on concrete inputs *)

Lemma annotation_statistics_add_up_witness :
  ∃ stats w',
    normalize_annotation_file annotations_json canonical_doors false coco_world
    = (Ok stats, w') ∧
    file stats = annotations_json ∧
    categories_found stats = length [local_door] ∧
    categories_normalized stats
    = length (List.filter (is_known canonical_doors) [local_door]) ∧
    unmapped_categories stats
    = unmapped_entry <$>
        List.filter (λ cat, negb (is_known canonical_doors cat)) [local_door] ∧
    categories_found stats
    = (categories_normalized stats + length (unmapped_categories stats))%nat ∧
    (annotations_updated stats
     ≤ length (default [] (annotations coco_document)))%nat.
Proof.
  apply (annotation_statistics_add_up annotations_json canonical_doors false
           coco_world coco_document [local_door]); reflexivity.
Defined.


Lemma standard_categories_last_wins_witness :
  ∃ standard_categories,
    load_standard_categories categories_json standard_world
    = (Ok standard_categories, standard_world) ∧
    NoDup (dict_keys standard_categories) ∧
    (length standard_categories ≤ length [door])%nat ∧
    (∀ k, dict_get standard_categories k
          = last (List.filter (λ c, bool_decide (strip (cat_name c) = k))
                              [door])) ∧
    (∀ cat, cat ∈ [door] → is_known standard_categories cat = true).
Proof.
  apply (standard_categories_last_wins categories_json standard_world [door]).
  reflexivity.
Defined.

Lemma reference_mapping_last_wins_witness :
  ∃ reference_mapping,
    load_reference_mapping reference_yaml_path raw_world
    = (Ok reference_mapping,
       {| fs := fs raw_world;
          logged := logged raw_world
                    ++ [LoadedReference (length reference_mapping)
                                        reference_yaml_path] |}) ∧
    NoDup (dict_keys reference_mapping) ∧
    (∀ k, k ∈ dict_keys reference_mapping → strip k = k) ∧
    (∀ k, dict_get reference_mapping k
          = fst <$> last (List.filter (λ item, bool_decide (strip item.2 = k))
                                      [(1, text "door")])) ∧
    (NoDup [(1, text "door")].*1 → NoDup reference_mapping.*2).
Proof.
  apply (reference_mapping_last_wins reference_yaml_path raw_world
           reference_manifest [(1, text "door")]); reflexivity.
Defined.

Lemma rewritten_manifest_loads_back_witness :
  load_reference_mapping data_yaml
    (normalize_data_yaml data_yaml swapped_reference false swapped_world).2
  = (Ok swapped_reference,
     {| fs := fs (normalize_data_yaml data_yaml swapped_reference false
                                      swapped_world).2;
        logged := logged (normalize_data_yaml data_yaml swapped_reference
                                              false swapped_world).2
                  ++ [LoadedReference (length swapped_reference)
                                      data_yaml] |}).
Proof.
  apply (rewritten_manifest_loads_back data_yaml swapped_reference
           swapped_world).
  - by_compute.
  - by_compute.
  - intros k Hk. revert k Hk. apply Forall_forall. by_compute.
Defined.

Lemma declared_classes_accounted_witness :
  ∃ id_mapping damage_class_ids ds,
    create_class_id_mapping data_yaml forced_reference forced_world
    = (Ok (id_mapping, damage_class_ids),
       {| fs := fs forced_world; logged := logged forced_world ++ ds |}) ∧
    damage_class_ids
    = (List.filter is_damage_item [(4, text " Mất "); (0, text "door")]).*1 ∧
    (size id_mapping + length damage_class_ids + length ds
     = length [(4, text " Mất "); (0, text "door")])%nat.
Proof.
  apply (declared_classes_accounted data_yaml forced_reference forced_world
           forced_manifest [(4, text " Mất "); (0, text "door")]).
  - reflexivity.
  - reflexivity.
  - by_compute.
Defined.

Lemma every_line_has_one_fate_witness :
  length [text "0 0.1 0.2"; text "7 0.5 0.5"; text "x"; text "9 0.3 0.4"]
  = (length [text "1 0.1 0.2"; text "9 0.3 0.4"] + 1
     + length (List.filter (λ l, bool_decide (@malformed ascii_table l))
                 [text "0 0.1 0.2"; text "7 0.5 0.5"; text "x";
                  text "9 0.3 0.4"]))%nat ∧
  (1 ≤ length [text "1 0.1 0.2"; text "9 0.3 0.4"])%nat.
Proof.
  apply (@every_line_has_one_fate ascii_table {[0 := 1]} [7]
           [text "0 0.1 0.2"; text "7 0.5 0.5"; text "x"; text "9 0.3 0.4"]
           [text "1 0.1 0.2"; text "9 0.3 0.4"] 1%nat 1%nat).
  vm_compute. reflexivity.
Defined.

Lemma written_lines_are_clean_witness :
  trimmed (text "1 0.1 0.2") ∧ ¬ @malformed ascii_table (text "1 0.1 0.2") ∧
  no_line_break (text "1 0.1 0.2").
Proof.
  apply (@written_lines_are_clean ascii_table {[0 := 1]} []
           (text "  0   0.1 0.2 " ++ [13%N; 10%N] ++ text "x" ++ [10%N])
           (text "1 0.1 0.2")).
  vm_compute. by left.
Defined.

Lemma rewritten_file_passes_unchanged_witness :
  @normalize_label_file ascii_table label_txt ∅ [] false
    (@normalize_label_file ascii_table label_txt {[0 := 1]} [] false
                           yolo_world).2
  = (Ok (O, O),
     (@normalize_label_file ascii_table label_txt {[0 := 1]} [] false
                            yolo_world).2).
Proof.
  apply (@rewritten_file_passes_unchanged ascii_table label_txt {[0 := 1]} []
           yolo_world
           (text "0 0.1 0.2" ++ [10%N] ++ text "9 0.3 0.4" ++ [10%N])).
  reflexivity.
Defined.

Lemma dataset_run_touches_only_its_files_witness :
  fs (@normalize_dataset ascii_table raw_d_yaml yolo_reference false
                         raw_world).2 !! raw_e_yaml
  = fs raw_world !! raw_e_yaml.
Proof.
  apply (@dataset_run_touches_only_its_files ascii_table raw_d_yaml
           yolo_reference false raw_world raw_e_yaml).
  - by_compute.
  - vm_compute. reflexivity.
Defined.

Lemma dataset_without_names_witness :
  let '(r, w') :=
    @normalize_dataset ascii_table data_yaml yolo_reference false
                       nameless_world in
  fs w' !! data_yaml = Some (YamlFile (normalized_data yolo_reference)) ∧
  NoNamesField data_yaml ∈ logged w' ∧
  ∀ stats, r = Ok stats →
    annotations_remapped stats = O ∧ annotations_removed stats = O ∧
    classes_mapped stats = O ∧ damage_classes stats = O.
Proof.
  apply (@dataset_without_names ascii_table data_yaml yolo_reference
           nameless_world nameless_manifest); reflexivity.
Defined.

Lemma sort_paths_order_independent_witness :
  sort_paths [raw_e_yaml; raw_d_yaml] = sort_paths [raw_d_yaml; raw_e_yaml].
Proof.
  apply (sort_paths_order_independent [raw_e_yaml; raw_d_yaml]
           [raw_d_yaml; raw_e_yaml]).
  apply Permutation_swap.
Defined.

Lemma data_yaml_files_found_witness :
  ∃ files,
    find_all_data_yaml_files raw raw_world = (Ok files, raw_world) ∧
    StronglySorted path_le files ∧ NoDup files ∧
    ∀ f, f ∈ files ↔
         is_Some (fs raw_world !! f) ∧ raw `prefix_of` parent f ∧ f ≠ [] ∧
         name f = text "data.yaml".
Proof.
  apply (data_yaml_files_found raw raw_world raw_d_label).
  - vm_compute. eauto.
  - by_compute.
Defined.

Lemma annotations_main_rewrites_every_file_witness :
  if bool_decide (is_Some (fs standard_world !! annotations_json))
     && is_under [text "d"] annotations_json
     && bool_decide (name annotations_json = text "annotations.json")
  then
    match fs standard_world !! annotations_json with
    | Some (JsonFile data) =>
      ∃ data',
        fs (Annotations.main
              {| Annotations.dataset_dir := [text "d"];
                 Annotations.categories_file := categories_json;
                 Annotations.dry_run := false |} standard_world).2
           !! annotations_json
        = Some (JsonFile data') ∧
        match categories data with
        | Some _ =>
          categories data' = Some (sorted_by_id (dict_values canonical_doors))
        | None => data' = data
        end
    | Some (CategoriesFile cats) =>
      fs (Annotations.main
            {| Annotations.dataset_dir := [text "d"];
               Annotations.categories_file := categories_json;
               Annotations.dry_run := false |} standard_world).2
         !! annotations_json
      = Some (CategoriesFile cats)
    | _ => False
    end
  else fs (Annotations.main
             {| Annotations.dataset_dir := [text "d"];
                Annotations.categories_file := categories_json;
                Annotations.dry_run := false |} standard_world).2
          !! annotations_json
       = fs standard_world !! annotations_json.
Proof.
  apply (annotations_main_rewrites_every_file [text "d"] categories_json
           standard_world _
           {| Annotations.files_processed := 1;
              Annotations.total_categories := 1;
              Annotations.total_normalized := 1;
              Annotations.total_annotations := 1;
              Annotations.unmapped_categories_set := ∅ |}
           canonical_doors).
  - reflexivity.
  - vm_compute. reflexivity.
Defined.

Lemma annotations_main_aborts_on_bad_file_witness :
  ∃ e' w', Annotations.main {| Annotations.dataset_dir := [text "d"];
                               Annotations.categories_file := categories_json;
                               Annotations.dry_run := false |} broken_world
           = (Raise e', w').
Proof.
  apply (annotations_main_aborts_on_bad_file [text "d"] categories_json false
           broken_world annotations_json canonical_doors DecodeError).
  - reflexivity.
  - vm_compute. eauto.
  - reflexivity.
  - reflexivity.
  - reflexivity.
Defined.

Lemma yolo_main_continues_past_failures_witness :
  ∃ summary w',
    @Yolo.main ascii_table (raw_args false) raw_world = (Ok summary, w') ∧
    (Yolo.total_datasets summary + length (Yolo.failed summary))%nat
    = length [raw_d_yaml; raw_e_yaml] ∧
    (Yolo.failed summary).*1 `sublist_of` [raw_d_yaml; raw_e_yaml] ∧
    Forall (λ pe, pe.2 = FileNotFoundError ∨ pe.2 = DecodeError)
           (Yolo.failed summary).
Proof.
  apply (@yolo_main_continues_past_failures ascii_table (raw_args false)
           raw_world
           {| fs := fs raw_world;
              logged := [LoadedReference 1 reference_yaml_path] |}
           yolo_reference [raw_d_yaml; raw_e_yaml]).
  - reflexivity.
  - vm_compute. reflexivity.
Defined.

Lemma yolo_main_dry_run_writes_nothing_witness :
  fs (@Yolo.main ascii_table (raw_args true) raw_world).2 = fs raw_world.
Proof.
  apply (@yolo_main_dry_run_writes_nothing ascii_table (raw_args true)
           raw_world).
  reflexivity.
Defined.
